(** * A DHCPv4 server: wire codec, lease store, address allocator, handlers

    Shallow embedding of [dhcp_server.py] (class [DHCPServer]) and
    [dhcp_db.py] (class [DHCPDatabase]).

    - Python [bytes] are lists of [byte]; an [int] is a [Z]; a [str] is a
      [string].
    - A Python exception is a [Raise] in the [result] monad; a [try/except]
      is a match on the result.
    - The two SQL tables are finite maps keyed by their PRIMARY KEY.
    - [datetime.now().timestamp()] is a clock reading handed to every store
      operation; readings are integers counting microseconds (the resolution
      of [datetime]), float rounding is not represented.
    - [socket.sendto] appends to the list of datagrams a handler returns.
    - A handler runs from its first to its last store operation without
      another handler in between; [threading] is not represented. *)

From Equations Require Import Equations.
From Equations.Prop Require Import Logic.
From stdpp Require Import gmap strings list fin_maps.
From Stdlib.Strings Require Import Ascii Byte.

Open Scope Z_scope.

(** ** Exceptions *)

Inductive exn := IndexError | ValueError | OSError | StructError.

Inductive result (A : Type) := Ok (a : A) | Raise (e : exn).
Arguments Ok {A} a.
Arguments Raise {A} e.

#[global] Instance result_bind : MBind result := fun A B k m =>
  match m with Ok a => k a | Raise e => Raise e end.
#[global] Instance result_ret : MRet result := fun A a => Ok a.

(** ** Python [bytes] *)

Definition byte_val (b : byte) : Z := Z.of_N (Byte.to_N b).

(** [bytes([n])]: [ValueError] unless [n] is in [range(256)]. *)
Definition byte_of_int (n : Z) : result byte :=
  if decide (0 <= n < 256)
  then match Byte.of_N (Z.to_N n) with Some b => Ok b | None => Raise ValueError end
  else Raise ValueError.

(** [l[i]] for [0 <= i]. *)
Definition index (l : list byte) (i : nat) : result Z :=
  match l !! i with Some b => Ok (byte_val b) | None => Raise IndexError end.

(** [l[a:b]] for [0 <= a], [0 <= b]; never raises. *)
Definition slice (a b : nat) (l : list byte) : list byte := take (b - a) (drop a l).

(** [l[a:b] = v] on a bytearray: the slice is replaced, the length may change. *)
Definition splice (a b : nat) (v l : list byte) : list byte :=
  take a l ++ v ++ drop (Nat.max a b) l.

(** [struct.pack('!I', n)] *)
Definition pack_I (n : Z) : result (list byte) :=
  if decide (0 <= n < 2 ^ 32) then
    b3 ← byte_of_int (n / 2 ^ 24 mod 256);
    b2 ← byte_of_int (n / 2 ^ 16 mod 256);
    b1 ← byte_of_int (n / 2 ^ 8 mod 256);
    b0 ← byte_of_int (n mod 256);
    Ok [b3; b2; b1; b0]
  else Raise StructError.

(** [f'{b:02x}'] *)
Definition hex_digit (n : Z) : ascii :=
  ascii_of_N (Z.to_N (if decide (n < 10) then 48 + n else 87 + n)).
Definition hex2 (b : byte) : string :=
  String (hex_digit (byte_val b / 16)) (String (hex_digit (byte_val b mod 16)) EmptyString).

(** [':'.join(f'{b:02x}' for b in client_mac)] *)
Definition mac_str (client_mac : list byte) : string :=
  String.concat ":" (hex2 <$> client_mac).

(** ** [ipaddress]: networks, hosts and their string form *)

Record IPv4Network := { network_address : Z; prefixlen : Z }.

(** [network.hosts()]: every address strictly between the network and the
    broadcast address, ascending; both addresses of a /31, the address of a
    /32 (the special cases of [ipaddress.IPv4Network]). *)
Definition hosts (n : IPv4Network) : list Z :=
  if decide (prefixlen n = 32) then [network_address n]
  else if decide (prefixlen n = 31) then [network_address n; network_address n + 1]
  else seqZ (network_address n + 1) (2 ^ (32 - prefixlen n) - 2).

Definition dec_digit (n : Z) : ascii := ascii_of_N (Z.to_N (48 + n)).
Definition dec_octet (n : Z) : string :=
  if decide (n < 10) then String (dec_digit n) EmptyString
  else if decide (n < 100) then String (dec_digit (n / 10)) (String (dec_digit (n mod 10)) EmptyString)
  else String (dec_digit (n / 100))
         (String (dec_digit (n / 10 mod 10)) (String (dec_digit (n mod 10)) EmptyString)).

(** [str(ip)] *)
Definition ip_str (ip : Z) : string :=
  String.concat "." (dec_octet <$> [ip / 2 ^ 24 mod 256; ip / 2 ^ 16 mod 256; ip / 2 ^ 8 mod 256; ip mod 256]).

(** ** [dhcp_db.py] *)

Module DHCPDatabase.

(** A row of [leases]; [mac_address] is the key of the table. *)
Record Lease := {
  ip_address : string;
  hostname : option string;
  lease_start : Z;
  lease_end : Z;
  last_seen : Z }.

(** A row of [static_reservations]. *)
Record Reservation := {
  res_ip_address : string;
  res_hostname : option string;
  description : option string }.

Record t := {
  leases : gmap string Lease;
  static_reservations : gmap string Reservation }.

Definition with_leases (db : t) (ls : gmap string Lease) : t :=
  {| leases := ls; static_reservations := static_reservations db |}.

(** [lease_time] is in seconds, the clock counts microseconds. *)
Definition seconds (n : Z) : Z := n * 1000000.

(** INSERT OR REPLACE INTO leases *)
Definition add_lease (db : t) (mac_address ip : string) (lease_time : Z)
    (host : option string) (now : Z) : t :=
  with_leases db
    (<[mac_address := {| ip_address := ip; hostname := host; lease_start := now;
                         lease_end := now + seconds lease_time; last_seen := now |}]>
       (leases db)).

(** SELECT ... WHERE mac_address = ? AND lease_end > ? *)
Definition get_lease (db : t) (mac_address : string) (now : Z) : option Lease :=
  match leases db !! mac_address with
  | Some l => if decide (lease_end l > now) then Some l else None
  | None => None
  end.

(** INSERT OR REPLACE INTO static_reservations *)
Definition add_static_reservation (db : t) (mac_address ip : string)
    (host descr : option string) : t :=
  {| leases := leases db;
     static_reservations :=
       <[mac_address := {| res_ip_address := ip; res_hostname := host; description := descr |}]>
         (static_reservations db) |}.

(** SELECT ... FROM static_reservations WHERE mac_address = ? *)
Definition get_static_reservation (db : t) (mac_address : string) : option Reservation :=
  static_reservations db !! mac_address.

(** SELECT ... FROM leases WHERE lease_end > ? *)
Definition get_all_leases (db : t) (now : Z) : list (string * Lease) :=
  map_to_list (filter (fun kv => lease_end kv.2 > now) (leases db)).

(** DELETE FROM leases WHERE lease_end <= ? *)
Definition cleanup_expired_leases (db : t) (now : Z) : t :=
  with_leases db (filter (fun kv => ~ lease_end kv.2 <= now) (leases db)).

Definition empty : t := {| leases := ∅; static_reservations := ∅ |}.

End DHCPDatabase.

(** ** [dhcp_server.py] *)

Import DHCPDatabase.

Definition DHCPDISCOVER : Z := 1.
Definition DHCPOFFER : Z := 2.
Definition DHCPREQUEST : Z := 3.
Definition DHCPDECLINE : Z := 4.
Definition DHCPACK : Z := 5.
Definition DHCPNAK : Z := 6.
Definition DHCPRELEASE : Z := 7.

(** The configuration fields of [DHCPServer]. [network] holds
    [ipaddress.ip_network(self.network)], [dhcp_options] keeps the insertion
    order of the dict. *)
Record DHCPServer := {
  server_ip : string;
  network : IPv4Network;
  excluded_ips : gset string;
  lease_time : Z;
  dhcp_options : list (Z * list byte) }.

(** The readings of [datetime.now()] taken by the store operations that one
    handler invocation performs, in program order. *)
Record Clock := {
  now_get_lease : Z;
  now_cleanup : Z;
  now_get_all : Z;
  now_add_lease : Z }.

(** [socket.sendto(payload, (host, port))] *)
Record Datagram := { payload : list byte; dest_host : string; dest_port : Z }.

(** State of one pass through the option loop of [parse_dhcp_packet]. *)
Inductive flow :=
| Break (message_type : Z) (host : option string)
| Next (i : nat) (message_type : Z) (host : option string).

Section Server.

(** [socket.inet_aton]; [OSError] on an illegal address string. *)
Variable inet_aton : string -> result (list byte).
(** [bytes.decode('utf-8', errors='ignore')] *)
Variable decode_utf8_ignore : list byte -> string.

(** [DHCPServer.__init__] *)
Definition __init__ : result DHCPServer :=
  mask ← inet_aton "255.255.255.0";
  router ← inet_aton "192.168.1.1";
  dns ← inet_aton "8.8.8.8";
  ntp ← inet_aton "8.8.8.8";
  lt ← pack_I 3600;
  Ok {| server_ip := "192.168.1.1";
        network := {| network_address := 3232235776; prefixlen := 24 |};
        excluded_ips := {[ "192.168.1.0"; "192.168.1.1"; "192.168.1.255" ]};
        lease_time := 3600;
        dhcp_options := [(1, mask); (3, router); (6, dns); (42, ntp); (51, lt)] |}.

Definition active_ips (db : DHCPDatabase.t) (now : Z) : gset string :=
  list_to_set ((fun kv => ip_address kv.2) <$> get_all_leases db now).

Definition ip_free (s : DHCPServer) (active_leases : gset string) (ip : Z) : Prop :=
  (ip_str ip ∉ excluded_ips s) ∧ (ip_str ip ∉ active_leases).

#[global] Instance ip_free_dec s a ip : Decision (ip_free s a ip).
Proof. unfold ip_free. apply _. Defined.

(** [for ip in network.hosts(): if ...: return str(ip)], else [None]. *)
Definition first_available (s : DHCPServer) (active_leases : gset string) : option string :=
  match list_find (ip_free s active_leases) (hosts (network s)) with
  | Some (_, ip) => Some (ip_str ip)
  | None => None
  end.

Definition _get_available_ip (s : DHCPServer) (db : DHCPDatabase.t)
    (client_mac : string) (clk : Clock) : option string * DHCPDatabase.t :=
  match get_static_reservation db client_mac with
  | Some static_res => (Some (res_ip_address static_res), db)
  | None =>
    match get_lease db client_mac (now_get_lease clk) with
    | Some existing_lease => (Some (ip_address existing_lease), db)
    | None =>
      let db := cleanup_expired_leases db (now_cleanup clk) in
      let active_leases := active_ips db (now_get_all clk) in
      (first_available s active_leases, db)
    end
  end.

(** One pass through the body of the [while] loop, entered with
    [i < len(options)]. *)
Definition loop_body (options : list byte) (i : nat) (message_type : Z)
    (host : option string) : result flow :=
  tag ← index options i;
  st ← (if decide (tag = 53) then
          v ← index options (i + 2); Ok (v, host)
        else if decide (tag = 12) then
          n ← index options (i + 1);
          Ok (message_type, Some (decode_utf8_ignore (slice (i + 2) (i + 2 + Z.to_nat n) options)))
        else Ok (message_type, host));
  if decide (tag = 255) then Ok (Break st.1 st.2)
  else n ← index options (i + 1); Ok (Next (i + Z.to_nat n + 2) st.1 st.2).

Lemma loop_body_Next options i mt hn i' mt' hn' :
  loop_body options i mt hn = Ok (Next i' mt' hn') -> (i + 2 <= i')%nat.
Proof.
  unfold loop_body, mbind, result_bind.
  destruct (index options i); [|done].
  destruct (if decide (a = 53) then _ else _); [|done].
  destruct (decide (a = 255)); [done|].
  destruct (index options (i + 1)); [|done]. intros [= <- _ _]. lia.
Qed.

(** [while i < len(options): ...] *)
Equations? option_loop (options : list byte) (i : nat) (message_type : Z)
    (host : option string) : result (Z * option string)
    by wf (length options - i)%nat lt :=
option_loop options i mt hn with decide (i < length options)%nat => {
  | right _ := Ok (mt, hn)
  | left _ with inspect (loop_body options i mt hn) => {
      | exist _ (Raise e) _ := Raise e
      | exist _ (Ok (Break mt' hn')) _ := Ok (mt', hn')
      | exist _ (Ok (Next i' mt' hn')) Hb := option_loop options i' mt' hn' } }.
Proof. apply loop_body_Next in Hb. lia. Qed.

(** The [try] block of [parse_dhcp_packet]. *)
Definition parse_dhcp_packet_try (data : list byte)
    : result (Z * list byte * list byte * option string) :=
  let client_mac := slice 28 34 data in
  let transaction_id := slice 4 8 data in
  let options := drop 240 data in
  st ← option_loop options 0 0 None;
  Ok (st.1, client_mac, transaction_id, st.2).

Definition parse_dhcp_packet (data : list byte) : Z * list byte * list byte * option string :=
  match parse_dhcp_packet_try data with
  | Ok r => r
  | Raise _ => (0, [], [], None)
  end.

(** [for opt_code, opt_value in self.dhcp_options.items(): ...] *)
Fixpoint extend_options (options : list byte) (items : list (Z * list byte))
    : result (list byte) :=
  match items with
  | [] => Ok options
  | (opt_code, opt_value) :: items =>
    c ← byte_of_int opt_code;
    n ← byte_of_int (Z.of_nat (length opt_value));
    extend_options (options ++ [c; n] ++ opt_value) items
  end.

(** The [try] block of [create_dhcp_packet]. *)
Definition create_dhcp_packet_try (s : DHCPServer) (message_type : Z)
    (client_mac transaction_id : list byte) (your_ip : string) : result (list byte) :=
  let packet := replicate 240 x00 in
  let packet := <[0%nat := x02]> packet in
  let packet := <[1%nat := x01]> packet in
  let packet := <[2%nat := x06]> packet in
  let packet := <[3%nat := x00]> packet in
  let packet := splice 4 8 transaction_id packet in
  your_ip_bytes ← inet_aton your_ip;
  let packet := splice 16 20 your_ip_bytes packet in
  server_ip_bytes ← inet_aton (server_ip s);
  let packet := splice 20 24 server_ip_bytes packet in
  let packet := splice 28 34 client_mac packet in
  cookie ← pack_I 0x63825363;
  let packet := splice 236 240 cookie packet in
  mt ← byte_of_int message_type;
  let options := [x35; x01; mt] in
  let options := options ++ [x36; x04] in
  let options := options ++ server_ip_bytes in
  options ← extend_options options (dhcp_options s);
  let options := options ++ [xff] in
  Ok (packet ++ options).

Definition create_dhcp_packet (s : DHCPServer) (message_type : Z)
    (client_mac transaction_id : list byte) (your_ip : string) : list byte :=
  match create_dhcp_packet_try s message_type client_mac transaction_id your_ip with
  | Ok final_packet => final_packet
  | Raise _ => []
  end.

(** [if packet: self.socket.sendto(packet, ('255.255.255.255', 68))] *)
Definition send_reply (packet : list byte) : list Datagram :=
  match packet with
  | [] => []
  | _ => [{| payload := packet; dest_host := "255.255.255.255"; dest_port := 68 |}]
  end.

Definition handle_discover (s : DHCPServer) (db : DHCPDatabase.t)
    (client_mac transaction_id : list byte) (host : option string) (clk : Clock)
    : DHCPDatabase.t * list Datagram :=
  let mac := mac_str client_mac in
  let '(ip_to_offer, db) := _get_available_ip s db mac clk in
  match ip_to_offer with
  | None | Some EmptyString => (db, [])
  | Some ip_to_offer =>
    (db, send_reply (create_dhcp_packet s DHCPOFFER client_mac transaction_id ip_to_offer))
  end.

Definition handle_request (s : DHCPServer) (db : DHCPDatabase.t)
    (client_mac transaction_id : list byte) (host : option string) (clk : Clock)
    : DHCPDatabase.t * list Datagram :=
  let mac := mac_str client_mac in
  let '(ip_to_assign, db) := _get_available_ip s db mac clk in
  match ip_to_assign with
  | None | Some EmptyString => (db, [])
  | Some ip_to_assign =>
    let db := add_lease db mac ip_to_assign (lease_time s) host (now_add_lease clk) in
    (db, send_reply (create_dhcp_packet s DHCPACK client_mac transaction_id ip_to_assign))
  end.

Definition handle_client (s : DHCPServer) (db : DHCPDatabase.t) (data : list byte)
    (clk : Clock) : DHCPDatabase.t * list Datagram :=
  let '(message_type, client_mac, transaction_id, host) := parse_dhcp_packet data in
  if decide (message_type = DHCPDISCOVER) then
    handle_discover s db client_mac transaction_id host clk
  else if decide (message_type = DHCPREQUEST) then
    handle_request s db client_mac transaction_id host clk
  else if decide (message_type = DHCPRELEASE) then (db, [])
  else (db, []).

End Server.

(** ** Library instances used in the examples

    [inet_aton_decimal] is [inet_aton] restricted to four decimal parts
    without leading zeros (the C function also reads octal, hexadecimal and
    shorter forms); [decode_ascii] is the decoder on 7-bit input, where
    dropping the other bytes is what [errors='ignore'] does to lone bytes
    above 127. *)

Fixpoint split_on (sep : ascii) (s : string) : list string :=
  match s with
  | EmptyString => [EmptyString]
  | String c s' =>
    if decide (c = sep) then EmptyString :: split_on sep s'
    else match split_on sep s' with
         | [] => [String c EmptyString]
         | w :: ws => String c w :: ws
         end
  end.

Definition digit_val (c : ascii) : option Z :=
  let n := Z.of_N (N_of_ascii c) in
  if decide (48 <= n <= 57) then Some (n - 48) else None.

Fixpoint decimal_val (acc : Z) (s : string) : option Z :=
  match s with
  | EmptyString => Some acc
  | String c s' => d ← digit_val c; decimal_val (10 * acc + d) s'
  end.

Definition octet_of (s : string) : result byte :=
  match s with
  | EmptyString => Raise OSError
  | String "0" (String _ _) => Raise OSError
  | _ => match decimal_val 0 s with
         | Some n => if decide (n < 256) then byte_of_int n else Raise OSError
         | None => Raise OSError
         end
  end.

Definition inet_aton_decimal (s : string) : result (list byte) :=
  match split_on "." s with
  | [a; b; c; d] =>
    a ← octet_of a; b ← octet_of b; c ← octet_of c; d ← octet_of d; Ok [a; b; c; d]
  | _ => Raise OSError
  end.

Definition decode_ascii (bs : list byte) : string :=
  String.string_of_list_ascii
    ((fun b => ascii_of_N (Byte.to_N b)) <$> filter (fun b => byte_val b < 128) bs).


(** * Properties of the wire codec *)

(** One step of the option walk: position [i] holds a tag other than 255
    whose length byte (and, for tag 53, value byte) lies inside the buffer;
    the walk continues at [j]. *)
Definition steps_to (options : list byte) (i j : nat) : Prop :=
  exists tag n, options !! i = Some tag /\ byte_val tag ≠ 255 /\
    (byte_val tag = 53 -> is_Some (options !! (i + 2)%nat)) /\
    options !! (i + 1)%nat = Some n /\ j = (i + Z.to_nat (byte_val n) + 2)%nat.

(** Position [i] holds a tag for which the walk indexes past the end of the
    buffer: tag 53 without a byte at [i + 2], or a tag other than 255
    without a byte at [i + 1]. *)
Definition overruns (options : list byte) (i : nat) : Prop :=
  exists tag, options !! i = Some tag /\
    ((byte_val tag = 53 /\ options !! (i + 2)%nat = None) \/
     (byte_val tag ≠ 255 /\ options !! (i + 1)%nat = None)).

(** An option as the walk reads it: tag, length byte, value. It is
    well formed when the tag is not 255, the length byte counts the value
    and a message-type option has a value byte. *)
Definition tlv : Type := byte * byte * list byte.

Definition tlv_ok (o : tlv) : Prop :=
  byte_val o.1.1 ≠ 255 /\ Z.to_nat (byte_val o.1.2) = length o.2 /\
  (byte_val o.1.1 = 53 -> o.2 ≠ []).

Definition encode_tlv (o : tlv) : list byte := o.1.1 :: o.1.2 :: o.2.

Definition encode_options (opts : list tlv) : list byte := concat (encode_tlv <$> opts).

(** The positions the walk reaches from the start of the options. *)
Definition visits (options : list byte) (j : nat) : Prop := rtc (steps_to options) 0%nat j.

Section Codec.

Variable decode_utf8_ignore : list byte -> string.
Abbreviation option_loop := (option_loop decode_utf8_ignore).
Abbreviation loop_body := (loop_body decode_utf8_ignore).

Lemma option_loop_eq options i mt hn :
  option_loop options i mt hn =
  if decide (i < length options)%nat then
    match loop_body options i mt hn with
    | Raise e => Raise e
    | Ok (Break mt' hn') => Ok (mt', hn')
    | Ok (Next i' mt' hn') => option_loop options i' mt' hn'
    end
  else Ok (mt, hn).
Proof.
  funelim (option_loop options i mt hn); rewrite <- ?Heqcall, Heq; [done|..].
  all: match goal with E : loop_body _ _ _ _ = _ |- _ => by rewrite E end.
Qed.

Lemma index_Some (l : list byte) i b : l !! i = Some b -> index l i = Ok (byte_val b).
Proof. unfold index. by intros ->. Qed.

Lemma index_None (l : list byte) i : l !! i = None -> index l i = Raise IndexError.
Proof. unfold index. by intros ->. Qed.

Lemma loop_body_end options i tag mt hn :
  options !! i = Some tag -> byte_val tag = 255 ->
  loop_body options i mt hn = Ok (Break mt hn).
Proof.
  intros Hi Ht. unfold loop_body. rewrite (index_Some _ _ _ Hi), Ht. reflexivity.
Qed.

Lemma loop_body_message_type options i tag n v mt hn :
  options !! i = Some tag -> byte_val tag = 53 ->
  options !! (i + 1)%nat = Some n -> options !! (i + 2)%nat = Some v ->
  loop_body options i mt hn = Ok (Next (i + Z.to_nat (byte_val n) + 2) (byte_val v) hn).
Proof.
  intros Hi Ht Hn Hv. unfold loop_body.
  rewrite (index_Some _ _ _ Hi), Ht. cbn.
  rewrite (index_Some _ _ _ Hv). cbn. by rewrite (index_Some _ _ _ Hn).
Qed.

Lemma loop_body_hostname options i tag n mt hn :
  options !! i = Some tag -> byte_val tag = 12 ->
  options !! (i + 1)%nat = Some n ->
  loop_body options i mt hn =
  Ok (Next (i + Z.to_nat (byte_val n) + 2) mt
        (Some (decode_utf8_ignore (slice (i + 2) (i + 2 + Z.to_nat (byte_val n)) options)))).
Proof.
  intros Hi Ht Hn. unfold loop_body.
  rewrite (index_Some _ _ _ Hi), Ht. cbn. by rewrite (index_Some _ _ _ Hn).
Qed.

Lemma loop_body_skip options i tag n mt hn :
  options !! i = Some tag ->
  byte_val tag ≠ 255 -> byte_val tag ≠ 53 -> byte_val tag ≠ 12 ->
  options !! (i + 1)%nat = Some n ->
  loop_body options i mt hn = Ok (Next (i + Z.to_nat (byte_val n) + 2) mt hn).
Proof.
  intros Hi H255 H53 H12 Hn. unfold loop_body.
  rewrite (index_Some _ _ _ Hi). cbn.
  destruct (decide (byte_val tag = 53)); [done|].
  destruct (decide (byte_val tag = 12)); [done|]. cbn.
  destruct (decide (byte_val tag = 255)); [done|].
  by rewrite (index_Some _ _ _ Hn).
Qed.

Lemma loop_body_overruns options i mt hn :
  overruns options i -> loop_body options i mt hn = Raise IndexError.
Proof.
  intros (tag & Hi & [[H53 Hv] | [H255 Hn]]); unfold loop_body.
  - rewrite (index_Some _ _ _ Hi), H53. cbn. by rewrite (index_None _ _ Hv).
  - assert (options !! (i + 2)%nat = None) as Hv.
    { apply lookup_ge_None. apply lookup_ge_None in Hn. lia. }
    rewrite (index_Some _ _ _ Hi). cbn.
    rewrite (index_None _ _ Hn), (index_None _ _ Hv).
    repeat case_decide; done.
Qed.

Lemma loop_body_steps options i j mt hn :
  steps_to options i j ->
  exists mt' hn', loop_body options i mt hn = Ok (Next j mt' hn').
Proof.
  intros (tag & n & Hi & H255 & Hv & Hn & ->).
  destruct (decide (byte_val tag = 53)) as [H53|H53].
  - destruct (Hv H53) as [v Hv']. eexists _, _. by eapply loop_body_message_type.
  - destruct (decide (byte_val tag = 12)) as [H12|H12].
    + eexists _, _. by eapply loop_body_hostname.
    + eexists _, _. by eapply loop_body_skip.
Qed.

Lemma loop_body_Raise_inv options i mt hn e :
  (i < length options)%nat -> loop_body options i mt hn = Raise e ->
  e = IndexError /\ overruns options i.
Proof.
  intros Hlt. destruct (lookup_lt_is_Some_2 options i Hlt) as [tag Hi].
  unfold loop_body, overruns. rewrite (index_Some _ _ _ Hi). cbn. unfold index.
  repeat (case_decide || case_match); cbn; intros; simplify_eq; try lia; naive_solver.
Qed.

Lemma loop_body_Next_inv options i mt hn j mt' hn' :
  loop_body options i mt hn = Ok (Next j mt' hn') -> steps_to options i j.
Proof.
  unfold loop_body, steps_to, index.
  destruct (options !! i) as [tag|] eqn:Hi; [|done]. cbn.
  repeat (case_decide || case_match); cbn; intros; simplify_eq; try lia; naive_solver.
Qed.

(** Induction along the iterations of the loop. *)
Lemma option_loop_ind options (P : nat -> Z -> option string -> result (Z * option string) -> Prop) :
  (forall i mt hn, ¬ (i < length options)%nat -> P i mt hn (Ok (mt, hn))) ->
  (forall i mt hn e, (i < length options)%nat ->
     loop_body options i mt hn = Raise e -> P i mt hn (Raise e)) ->
  (forall i mt hn mt' hn', (i < length options)%nat ->
     loop_body options i mt hn = Ok (Break mt' hn') -> P i mt hn (Ok (mt', hn'))) ->
  (forall i mt hn j mt' hn', (i < length options)%nat ->
     loop_body options i mt hn = Ok (Next j mt' hn') ->
     P j mt' hn' (option_loop options j mt' hn') ->
     P i mt hn (option_loop options j mt' hn')) ->
  forall i mt hn, P i mt hn (option_loop options i mt hn).
Proof.
  intros Hexit Hraise Hbreak Hnext i mt hn.
  funelim (option_loop options i mt hn); rewrite <- ?Heqcall; eauto.
  eapply Hnext; [done..|]. by apply H.
Qed.

Lemma option_loop_raises options i mt hn e :
  option_loop options i mt hn = Raise e <->
  e = IndexError /\ exists j, rtc (steps_to options) i j /\ overruns options j.
Proof.
  split.
  - revert i mt hn. apply (option_loop_ind options
      (fun i mt hn r => r = Raise e ->
         e = IndexError /\ exists j, rtc (steps_to options) i j /\ overruns options j)).
    + done.
    + intros i mt hn e' Hlt Hb [= ->].
      destruct (loop_body_Raise_inv _ _ _ _ _ Hlt Hb) as [-> Hov].
      split; [done|]. exists i. split; [apply rtc_refl | done].
    + done.
    + intros i mt hn j mt' hn' Hlt Hb IH Hr.
      destruct (IH Hr) as [-> (k & Hk & Hov)]. split; [done|].
      exists k. split; [|done]. eapply rtc_l; [|done]. by eapply loop_body_Next_inv.
  - intros [-> (j & Hrtc & Hov)]. revert mt hn.
    induction Hrtc as [i | i k j Hstep _ IH]; intros mt hn; rewrite option_loop_eq.
    + destruct Hov as (tag & Hi & Hov).
      rewrite decide_True by (by eapply lookup_lt_Some).
      rewrite loop_body_overruns; [done|]. by exists tag.
    + destruct (loop_body_steps _ _ _ mt hn Hstep) as (mt' & hn' & ->).
      destruct Hstep as (tag & _ & Hi & _).
      rewrite decide_True by (by eapply lookup_lt_Some). by apply IH.
Qed.

Definition flow_message_type (f : flow) : Z :=
  match f with Break mt _ | Next _ mt _ => mt end.

Lemma loop_body_keeps_message_type options i tag mt hn f :
  options !! i = Some tag -> byte_val tag ≠ 53 ->
  loop_body options i mt hn = Ok f -> flow_message_type f = mt.
Proof.
  intros Hi H53. unfold loop_body. rewrite (index_Some _ _ _ Hi). cbn.
  rewrite decide_False by done.
  destruct (index options (i + 1)); repeat case_decide; cbn; intros; by simplify_eq.
Qed.

Lemma option_loop_no_message_type options i mt hn r :
  (forall j tag, rtc (steps_to options) i j -> options !! j = Some tag -> byte_val tag ≠ 53) ->
  option_loop options i mt hn = Ok r -> r.1 = mt.
Proof.
  revert i mt hn. apply (option_loop_ind options
    (fun i mt hn res =>
       (forall j tag, rtc (steps_to options) i j -> options !! j = Some tag -> byte_val tag ≠ 53) ->
       res = Ok r -> r.1 = mt)).
  - by intros i mt hn _ _ [= <-].
  - done.
  - intros i mt hn mt' hn' Hlt Hb H53 [= <-].
    destruct (lookup_lt_is_Some_2 options i Hlt) as [tag Hi].
    apply (loop_body_keeps_message_type _ _ _ _ _ _ Hi (H53 _ _ (rtc_refl _ _) Hi) Hb).
  - intros i mt hn j mt' hn' Hlt Hb IH H53 Hr.
    destruct (lookup_lt_is_Some_2 options i Hlt) as [tag Hi].
    rewrite <- (loop_body_keeps_message_type _ _ _ _ _ _ Hi (H53 _ _ (rtc_refl _ _) Hi) Hb).
    apply IH; [|done]. intros k tag' Hk. apply H53.
    eapply rtc_l; [|done]. by eapply loop_body_Next_inv.
Qed.

(** What one well-formed option does to [(message_type, hostname)]. *)
Definition field_update (st : Z * option string) (o : tlv) : Z * option string :=
  if decide (byte_val o.1.1 = 53) then
    (match o.2 with b :: _ => byte_val b | [] => st.1 end, st.2)
  else if decide (byte_val o.1.1 = 12) then (st.1, Some (decode_utf8_ignore o.2))
  else st.

Lemma slice_middle (pre v post : list byte) a b :
  a = length pre -> b = (length pre + length v)%nat -> slice a b (pre ++ v ++ post) = v.
Proof.
  intros -> ->. unfold slice. rewrite drop_app_length.
  replace (length pre + length v - length pre)%nat with (length v) by lia.
  by rewrite take_app_length.
Qed.

Lemma option_loop_tlv pre o post st :
  tlv_ok o ->
  option_loop (pre ++ encode_tlv o ++ post) (length pre) st.1 st.2 =
  option_loop (pre ++ encode_tlv o ++ post) (length (pre ++ encode_tlv o))
    (field_update st o).1 (field_update st o).2.
Proof.
  destruct o as [[tag n] v], st as [mt hn]. intros (H255 & Hn & Hv).
  unfold encode_tlv. cbn in *.
  set (options := pre ++ tag :: n :: v ++ post).
  assert (options !! length pre = Some tag) as Hi by (by apply list_lookup_middle).
  assert (options !! (length pre + 1)%nat = Some n) as Hi1.
  { unfold options. rewrite lookup_app_r by lia.
    by replace (length pre + 1 - length pre)%nat with 1%nat by lia. }
  assert (length (pre ++ tag :: n :: v) = (length pre + Z.to_nat (byte_val n) + 2)%nat) as ->.
  { rewrite length_app. cbn. lia. }
  rewrite option_loop_eq.
  rewrite decide_True by (by eapply lookup_lt_Some).
  unfold field_update. cbn.
  destruct (decide (byte_val tag = 53)) as [H53|H53]; cbn.
  - destruct v as [|b v]; [by destruct Hv|].
    erewrite loop_body_message_type; [done..|].
    unfold options. rewrite lookup_app_r by lia.
    by replace (length pre + 2 - length pre)%nat with 2%nat by lia.
  - destruct (decide (byte_val tag = 12)) as [H12|H12]; cbn.
    + erewrite loop_body_hostname; [|done..].
      rewrite Hn.
      assert (slice (length pre + 2) (length pre + 2 + length v) options = v) as ->; [|done].
      unfold options. change (tag :: n :: v ++ post) with ([tag; n] ++ v ++ post).
      rewrite (assoc_L _ pre [tag; n] (v ++ post)).
      apply slice_middle; rewrite length_app; cbn; lia.
    + by erewrite loop_body_skip.
Qed.

Lemma option_loop_encode opts : forall pre post st,
  Forall tlv_ok opts ->
  option_loop (pre ++ encode_options opts ++ xff :: post) (length pre) st.1 st.2 =
  Ok (foldl field_update st opts).
Proof.
  induction opts as [|o opts IH]; intros pre post st Hok.
  - cbn. rewrite option_loop_eq.
    assert ((pre ++ xff :: post) !! length pre = Some xff) as Hi by (by apply list_lookup_middle).
    rewrite decide_True by (by eapply lookup_lt_Some).
    erewrite loop_body_end; [|done..]. by destruct st.
  - apply Forall_cons in Hok as [Ho Hok].
    change (encode_options (o :: opts)) with (encode_tlv o ++ encode_options opts).
    rewrite <- (assoc_L _ (encode_tlv o)).
    rewrite option_loop_tlv by done.
    rewrite (assoc_L _ pre). by apply IH.
Qed.

Lemma slice_app_l (l l' : list byte) a b :
  (a <= b)%nat -> (b <= length l)%nat -> slice a b (l ++ l') = slice a b l.
Proof.
  intros Hab Hb. unfold slice. rewrite drop_app_le by lia.
  rewrite take_app_le; [done|]. rewrite length_drop. lia.
Qed.

Lemma parse_short_buffer data :
  (length data <= 240)%nat ->
  parse_dhcp_packet decode_utf8_ignore data = (0, slice 28 34 data, slice 4 8 data, None).
Proof.
  intros Hlen. unfold parse_dhcp_packet, parse_dhcp_packet_try.
  rewrite drop_ge by lia. by rewrite option_loop_eq.
Qed.

(** A message type other than 0 comes from a buffer longer than 240 bytes, so
    the MAC and the transaction id handed to the handlers have their full
    length. *)
Lemma parse_message_type_sizes data mt mac xid hn :
  parse_dhcp_packet decode_utf8_ignore data = (mt, mac, xid, hn) -> mt ≠ 0 ->
  length mac = 6%nat /\ length xid = 4%nat.
Proof.
  intros Hp Hmt. destruct (decide (length data <= 240)%nat) as [Hle|Hgt].
  { rewrite (parse_short_buffer _ Hle) in Hp. by simplify_eq. }
  unfold parse_dhcp_packet, parse_dhcp_packet_try in Hp.
  destruct (option_loop (drop 240 data) 0 0 None) as [r|e]; cbn in Hp; [|by simplify_eq].
  injection Hp as _ <- <- _. unfold slice. rewrite !length_take, !length_drop. lia.
Qed.

Lemma parse_dhcp_packet_try_raises data e :
  parse_dhcp_packet_try decode_utf8_ignore data = Raise e <->
  e = IndexError /\ exists j, visits (drop 240 data) j /\ overruns (drop 240 data) j.
Proof.
  unfold parse_dhcp_packet_try, visits.
  rewrite <- (option_loop_raises _ 0%nat 0 None).
  destruct (option_loop _ _ _ _); cbn; naive_solver.
Qed.

End Codec.

(** A request as the clients of the repository build it. *)
Definition client_packet (xid mac cookie options : list byte) : list byte :=
  [x01; x01; x06; x00] ++ xid ++ replicate 20 x00 ++ mac ++ replicate 202 x00 ++ cookie ++ options.

Definition magic_cookie : list byte := [x63; x82; x53; x63].
Definition example_xid : list byte := [x12; x34; x56; x78].
Definition example_mac : list byte := [xaa; xbb; xcc; xdd; xee; x01].

(** A REQUEST with no option but the message type. *)
Definition request_from (mac : list byte) : list byte :=
  client_packet example_xid mac magic_cookie [x35; x01; x03; xff].

(** ** C10: parsing never raises, failures are dropped *)

(** C10. [parse_dhcp_packet] is a total function of the buffer (its loop is
    defined by well-founded recursion) whose result is always a 4-tuple; when
    the body raises, the tuple is [(0, b'', b'', None)], so the message type
    is 0; and a message type of 0 makes [handle_client] leave the lease
    store as it is and send nothing. *)
Theorem parse_total_failure_dropped
    (inet_aton : string -> result (list byte)) (decode : list byte -> string)
    (s : DHCPServer) (db : DHCPDatabase.t) (data : list byte) (clk : Clock) :
  (exists mt mac xid hn, parse_dhcp_packet decode data = (mt, mac, xid, hn) /\
     (forall e, parse_dhcp_packet_try decode data = Raise e ->
        mt = 0 /\ mac = [] /\ xid = [] /\ hn = None)) /\
  ((parse_dhcp_packet decode data).1.1.1 = 0 ->
     handle_client inet_aton decode s db data clk = (db, [])).
Proof.
  split.
  - destruct (parse_dhcp_packet decode data) as [[[mt mac] xid] hn] eqn:Hp.
    exists mt, mac, xid, hn. split; [done|]. intros e He.
    unfold parse_dhcp_packet in Hp. rewrite He in Hp. by simplify_eq.
  - unfold handle_client.
    destruct (parse_dhcp_packet decode data) as [[[mt mac] xid] hn]. cbn. by intros ->.
Qed.

(** Scenario 5 of the specification: a buffer of 100 zero bytes is dropped. *)
Example short_buffer_dropped :
  handle_client inet_aton_decimal decode_ascii
    {| server_ip := "192.168.1.1"; network := {| network_address := 3232235776; prefixlen := 24 |};
       excluded_ips := ∅; lease_time := 3600; dhcp_options := [] |}
    DHCPDatabase.empty (replicate 100 x00)
    {| now_get_lease := 0; now_cleanup := 0; now_get_all := 0; now_add_lease := 0 |}
  = (DHCPDatabase.empty, []).
Proof. reflexivity. Qed.

(** A truncated message-type option makes the body raise. *)
Example truncated_option_raises :
  parse_dhcp_packet_try decode_ascii (client_packet example_xid example_mac magic_cookie [x35; x01])
  = Raise IndexError.
Proof. reflexivity. Qed.

(** ** C4: when parsing fails *)

(** A DISCOVER whose magic cookie is zero. *)
Definition wrong_cookie_packet : list byte :=
  client_packet example_xid example_mac [x00; x00; x00; x00] [x35; x01; x01; xff].

(** A DISCOVER whose hostname option announces 200 bytes, holds one, and is
    followed by no end option. *)
Definition overlong_option_packet : list byte :=
  client_packet example_xid example_mac magic_cookie [x35; x01; x01; x0c; xc8; x61].

(** C4, counterexample. A buffer with a wrong magic cookie, and one whose
    last option runs past the end with no tag 255, are both parsed to a
    DISCOVER and not to the error result. *)
Lemma parse_accepts_wrong_cookie :
  slice 236 240 wrong_cookie_packet ≠ magic_cookie /\
  parse_dhcp_packet decode_ascii wrong_cookie_packet = (1, example_mac, example_xid, None) /\
  parse_dhcp_packet decode_ascii overlong_option_packet = (1, example_mac, example_xid, Some "a"%string).
Proof. split; [|split]; [intros [=] | reflexivity | reflexivity]. Qed.

(** C4, amended. The body of [parse_dhcp_packet] raises, and the error
    tuple [(0, b'', b'', None)] is returned, exactly when the option walk
    reaches a position where it indexes past the end of the buffer (tag 53
    with no byte two places on, or a tag other than 255 in the last byte).
    A buffer of at most 240 bytes, and a buffer on whose walk no tag 53
    occurs, yield message type 0. The length and the magic cookie are not
    examined: the result depends on bytes 4..8, bytes 28..34 and the bytes
    from offset 240 only. *)
Theorem parse_failure_conditions (decode : list byte -> string) (data : list byte) :
  (forall e, parse_dhcp_packet_try decode data = Raise e <->
     e = IndexError /\ exists j, visits (drop 240 data) j /\ overruns (drop 240 data) j) /\
  (forall e, parse_dhcp_packet_try decode data = Raise e ->
     parse_dhcp_packet decode data = (0, [], [], None)) /\
  ((length data <= 240)%nat ->
     parse_dhcp_packet decode data = (0, slice 28 34 data, slice 4 8 data, None)) /\
  ((forall j tag, visits (drop 240 data) j -> drop 240 data !! j = Some tag -> byte_val tag ≠ 53) ->
     (parse_dhcp_packet decode data).1.1.1 = 0) /\
  (forall data', slice 4 8 data' = slice 4 8 data -> slice 28 34 data' = slice 28 34 data ->
     drop 240 data' = drop 240 data ->
     parse_dhcp_packet decode data' = parse_dhcp_packet decode data).
Proof.
  split; [|split; [|split; [|split]]].
  - intros e. apply parse_dhcp_packet_try_raises.
  - intros e He. unfold parse_dhcp_packet. by rewrite He.
  - apply parse_short_buffer.
  - intros H53. unfold parse_dhcp_packet, parse_dhcp_packet_try.
    destruct (option_loop decode (drop 240 data) 0 0 None) as [r|e] eqn:Hl; [|done]. cbn.
    by eapply option_loop_no_message_type.
  - intros data' Hxid Hmac Hopts.
    unfold parse_dhcp_packet, parse_dhcp_packet_try. by rewrite Hxid, Hmac, Hopts.
Qed.

(** ** C5: tag 0 is an ordinary option *)

Definition padded_request : list byte :=
  client_packet example_xid example_mac magic_cookie [x00; x35; x01; x03; xff].

Definition unpadded_request : list byte :=
  client_packet example_xid example_mac magic_cookie [x35; x01; x03; xff].

(** C5, counterexample. With one byte of tag-0 padding before the
    message-type option the walk reads 53 as the length of option 0 and steps
    past the end: the REQUEST is parsed with message type 0, not 3. *)
Lemma padding_not_skipped :
  parse_dhcp_packet decode_ascii unpadded_request = (3, example_mac, example_xid, None) /\
  parse_dhcp_packet decode_ascii padded_request = (0, example_mac, example_xid, None).
Proof. split; reflexivity. Qed.

(** C5, amended. At a position holding tag 255 the walk stops with the
    fields found so far. At a position holding any other tag, tag 0
    included, it reads the next byte as a length [n] and continues [n + 2]
    bytes further on; only tag 53 changes the message type and only tag 12
    the hostname. *)
Theorem option_walk_tlv (decode : list byte -> string) (options : list byte) (i : nat)
    (tag : byte) (mt : Z) (hn : option string) :
  options !! i = Some tag ->
  (byte_val tag = 255 -> option_loop decode options i mt hn = Ok (mt, hn)) /\
  (forall n, byte_val tag ≠ 255 -> options !! (i + 1)%nat = Some n ->
     (byte_val tag = 53 -> is_Some (options !! (i + 2)%nat)) ->
     exists mt' hn',
       option_loop decode options i mt hn =
         option_loop decode options (i + Z.to_nat (byte_val n) + 2) mt' hn' /\
       (byte_val tag ≠ 53 -> mt' = mt) /\ (byte_val tag ≠ 12 -> hn' = hn)).
Proof.
  intros Hi. pose proof (lookup_lt_Some _ _ _ Hi) as Hlt. split.
  - intros H255. rewrite option_loop_eq, decide_True by done.
    by erewrite loop_body_end.
  - intros n H255 Hn Hv. rewrite option_loop_eq, decide_True by done.
    destruct (decide (byte_val tag = 53)) as [H53|H53].
    { destruct (Hv H53) as [v Hv']. erewrite loop_body_message_type; [|done..].
      eexists _, _. split; [done|]. split; [done|]. intros _. reflexivity. }
    destruct (decide (byte_val tag = 12)) as [H12|H12].
    { erewrite loop_body_hostname; [|done..]. eexists _, _. split; [done|]. by split. }
    erewrite loop_body_skip; [|done..]. eexists _, _. by split.
Qed.

Lemma option_walk_tlv_witness :
  [x00; x02; xaa; xbb; x35; x01; x03; xff] !! 0%nat = Some x00 /\
  ((byte_val x00 = 255 ->
      option_loop decode_ascii [x00; x02; xaa; xbb; x35; x01; x03; xff] 0 0 None = Ok (0, None)) /\
   (forall n, byte_val x00 ≠ 255 ->
      [x00; x02; xaa; xbb; x35; x01; x03; xff] !! (0 + 1)%nat = Some n ->
      (byte_val x00 = 53 -> is_Some ([x00; x02; xaa; xbb; x35; x01; x03; xff] !! (0 + 2)%nat)) ->
      exists mt' hn',
        option_loop decode_ascii [x00; x02; xaa; xbb; x35; x01; x03; xff] 0 0 None =
          option_loop decode_ascii [x00; x02; xaa; xbb; x35; x01; x03; xff]
            (0 + Z.to_nat (byte_val n) + 2) mt' hn' /\
        (byte_val x00 ≠ 53 -> mt' = 0) /\ (byte_val x00 ≠ 12 -> hn' = None))).
Proof.
  split; [reflexivity|].
  apply (option_walk_tlv decode_ascii [x00; x02; xaa; xbb; x35; x01; x03; xff] 0 x00 0 None).
  reflexivity.
Defined.

(** ** C6: the fields parsing returns *)

(** A REQUEST carrying a requested-address option (tag 50). *)
Definition request_for (ip : list byte) : list byte :=
  client_packet example_xid example_mac magic_cookie ([x35; x01; x03; x32; x04] ++ ip ++ [xff]).

(** A REQUEST carrying a server-identifier option (tag 54). *)
Definition request_to (server : list byte) : list byte :=
  client_packet example_xid example_mac magic_cookie ([x35; x01; x03; x36; x04] ++ server ++ [xff]).

(** C6, counterexample. Two REQUESTs that differ in the requested address
    only, and two that differ in the server identifier only, have the same
    parse result: no reading of the returned tuple yields either field. *)
Lemma requested_ip_not_returned :
  ¬ (exists proj : Z * list byte * list byte * option string -> list byte,
       proj (parse_dhcp_packet decode_ascii (request_for [xc0; xa8; x01; x02])) = [xc0; xa8; x01; x02] /\
       proj (parse_dhcp_packet decode_ascii (request_for [xc0; xa8; x01; x03])) = [xc0; xa8; x01; x03]) /\
  ¬ (exists proj : Z * list byte * list byte * option string -> list byte,
       proj (parse_dhcp_packet decode_ascii (request_to [xc0; xa8; x01; x01])) = [xc0; xa8; x01; x01] /\
       proj (parse_dhcp_packet decode_ascii (request_to [xc0; xa8; x01; x09])) = [xc0; xa8; x01; x09]).
Proof.
  split; intros (proj & H1 & H2).
  - change (parse_dhcp_packet decode_ascii (request_for [xc0; xa8; x01; x03]))
      with (parse_dhcp_packet decode_ascii (request_for [xc0; xa8; x01; x02])) in H2.
    rewrite H1 in H2. discriminate.
  - change (parse_dhcp_packet decode_ascii (request_to [xc0; xa8; x01; x09]))
      with (parse_dhcp_packet decode_ascii (request_to [xc0; xa8; x01; x01])) in H2.
    rewrite H1 in H2. discriminate.
Qed.

(** C6, amended. For every packet made of a 240-byte header, well-formed
    options and the end tag 255 (anything may follow), parsing returns four
    fields: the first value byte of the last option with tag 53 (0 when
    there is none), bytes 28..34 of the header, bytes 4..8 of the header,
    and the decoded value of the last option with tag 12 ([None] when there
    is none). Options 50 and 54 are skipped like every other option. *)
Theorem parse_valid_packet (decode : list byte -> string) (header : list byte)
    (opts : list tlv) (trailer : list byte) :
  length header = 240%nat -> Forall tlv_ok opts ->
  parse_dhcp_packet decode (header ++ encode_options opts ++ xff :: trailer) =
    ((foldl (field_update decode) (0, None) opts).1,
     slice 28 34 header, slice 4 8 header,
     (foldl (field_update decode) (0, None) opts).2).
Proof.
  intros Hlen Hok. unfold parse_dhcp_packet, parse_dhcp_packet_try.
  rewrite !slice_app_l by lia.
  replace 240%nat with (length header) at 1. rewrite drop_app_length.
  pose proof (option_loop_encode decode opts [] trailer (0, None) Hok) as Hl.
  cbn in Hl. by rewrite Hl.
Qed.

Lemma parse_valid_packet_witness :
  parse_dhcp_packet decode_ascii
    (client_packet example_xid example_mac magic_cookie [] ++
     encode_options [(x35, x01, [x03]); (x0c, x02, [x68; x69]); (x32, x04, [xc0; xa8; x01; x02])] ++
     xff :: []) =
  (3, example_mac, example_xid, Some "hi"%string).
Proof.
  apply (parse_valid_packet decode_ascii
           (client_packet example_xid example_mac magic_cookie [])
           [(x35, x01, [x03]); (x0c, x02, [x68; x69]); (x32, x04, [xc0; xa8; x01; x02])] []).
  - reflexivity.
  - repeat constructor; vm_compute; congruence.
Defined.

(** * Properties of the serializer *)

Lemma byte_of_int_val (n : Z) :
  0 <= n < 256 -> exists b, byte_of_int n = Ok b /\ byte_val b = n.
Proof.
  intros Hn. unfold byte_of_int. rewrite decide_True by done.
  destruct (Byte.of_N (Z.to_N n)) as [b|] eqn:Hb.
  - exists b. split; [done|]. unfold byte_val. apply Byte.to_of_N in Hb. rewrite Hb. lia.
  - apply Byte.of_N_None_iff in Hb. lia.
Qed.

Lemma length_4_inv (l : list byte) :
  length l = 4%nat -> exists a b c d, l = [a; b; c; d].
Proof. destruct l as [|a [|b [|c [|d [|]]]]]; try done. by exists a, b, c, d. Qed.

Lemma length_6_inv (l : list byte) :
  length l = 6%nat -> exists a b c d e f, l = [a; b; c; d; e; f].
Proof.
  destruct l as [|a [|b [|c [|d [|e [|f [|]]]]]]]; try done. by exists a, b, c, d, e, f.
Qed.

(** ** C7: layout of a reply *)

(** C7. For the server that [__init__] configures, a message type in
    [0..255], a 4-byte xid, a 6-byte client MAC and an address string that
    [inet_aton] accepts, [create_dhcp_packet] returns: op 2, htype 1, hlen 6,
    hops 0; the xid at 4..8; zeros at 8..16; [your_ip] at 16..20; the server
    address at 20..24; zeros at 24..28; the MAC at 28..34 followed by zeros
    up to 44; zeros for sname and file (44..236); the magic cookie at
    236..240; then the options 53, 54, 1, 3, 6, 42, 51 in this order, each
    with its length byte, option 51 being 3600 as a big-endian 32-bit
    number, and the end tag 255. *)
Theorem create_dhcp_packet_layout (inet_aton : string -> result (list byte))
    (s : DHCPServer) (message_type : Z) (client_mac transaction_id : list byte)
    (your_ip : string) (your_ip_bytes : list byte) :
  (forall a b, inet_aton a = Ok b -> length b = 4%nat) ->
  __init__ inet_aton = Ok s ->
  0 <= message_type < 256 ->
  length transaction_id = 4%nat ->
  length client_mac = 6%nat ->
  inet_aton your_ip = Ok your_ip_bytes ->
  exists mt server mask router dns ntp,
    byte_val mt = message_type /\
    inet_aton (server_ip s) = Ok server /\
    dhcp_options s = [(1, mask); (3, router); (6, dns); (42, ntp); (51, [x00; x00; x0e; x10])] /\
    pack_I (lease_time s) = Ok [x00; x00; x0e; x10] /\
    create_dhcp_packet inet_aton s message_type client_mac transaction_id your_ip =
      [x02; x01; x06; x00] ++ transaction_id ++ replicate 8 x00 ++
      your_ip_bytes ++ server ++ replicate 4 x00 ++
      client_mac ++ replicate 10 x00 ++ replicate 192 x00 ++ magic_cookie ++
      [x35; x01; mt] ++ ([x36; x04] ++ server) ++
      ([x01; x04] ++ mask) ++ ([x03; x04] ++ router) ++ ([x06; x04] ++ dns) ++
      ([x2a; x04] ++ ntp) ++ [x33; x04; x00; x00; x0e; x10] ++ [xff].
Proof.
  intros Hlen Hinit Hmt Hxid Hmac Hip.
  unfold __init__ in Hinit.
  destruct (inet_aton "255.255.255.0") as [mask|] eqn:Hmask; [|done].
  destruct (inet_aton "192.168.1.1") as [router|] eqn:Hrouter; [|done].
  destruct (inet_aton "8.8.8.8") as [dns|] eqn:Hdns; [|done].
  cbn in Hinit. injection Hinit as <-.
  destruct (byte_of_int_val message_type Hmt) as (mt & Hmtb & Hmtv).
  exists mt, router, mask, router, dns, dns.
  split; [done|]. split; [done|]. split; [done|]. split; [done|].
  destruct (length_4_inv _ Hxid) as (x0 & x1 & x2 & x3 & ->).
  destruct (length_6_inv _ Hmac) as (m0 & m1 & m2 & m3 & m4 & m5 & ->).
  destruct (length_4_inv _ (Hlen _ _ Hip)) as (y0 & y1 & y2 & y3 & ->).
  destruct (length_4_inv _ (Hlen _ _ Hmask)) as (k0 & k1 & k2 & k3 & ->).
  destruct (length_4_inv _ (Hlen _ _ Hrouter)) as (r0 & r1 & r2 & r3 & ->).
  destruct (length_4_inv _ (Hlen _ _ Hdns)) as (d0 & d1 & d2 & d3 & ->).
  unfold create_dhcp_packet, create_dhcp_packet_try. cbn [server_ip dhcp_options].
  rewrite Hip, Hrouter, Hmtb. reflexivity.
Qed.

(** * Properties of the lease store and the allocator *)

(** [ip] is the address of a lease of [db] that is active at [now]. *)
Definition leased (db : DHCPDatabase.t) (now : Z) (ip : string) : Prop :=
  exists mac l, leases db !! mac = Some l /\ lease_end l > now /\ ip_address l = ip.

Lemma lookup_cleanup db now mac l :
  leases (cleanup_expired_leases db now) !! mac = Some l <->
  leases db !! mac = Some l /\ lease_end l > now.
Proof.
  unfold cleanup_expired_leases. cbn. rewrite map_lookup_filter_Some. cbn.
  split; intros [? ?]; split; [done|lia|done|lia].
Qed.

Lemma static_reservations_cleanup db now :
  static_reservations (cleanup_expired_leases db now) = static_reservations db.
Proof. reflexivity. Qed.

Lemma elem_of_active_ips db now ip : ip ∈ active_ips db now <-> leased db now ip.
Proof.
  unfold active_ips, get_all_leases, leased.
  rewrite elem_of_list_to_set, list_elem_of_fmap. split.
  - intros ([mac l] & -> & Hin). apply elem_of_map_to_list in Hin.
    apply map_lookup_filter_Some in Hin as [Hl Hend]. by exists mac, l.
  - intros (mac & l & Hl & Hend & <-). exists (mac, l). split; [done|].
    apply elem_of_map_to_list. by apply map_lookup_filter_Some.
Qed.

Lemma get_lease_Some db mac now l :
  get_lease db mac now = Some l <-> leases db !! mac = Some l /\ lease_end l > now.
Proof.
  unfold get_lease. destruct (leases db !! mac) as [l'|]; [|by intuition].
  case_decide; split; [by intros [= ->] | by intros [[= ->] _] | done | intros [[= ->] ?]; lia].
Qed.

Lemma hosts_lookup_mono n i j a b :
  hosts n !! i = Some a -> hosts n !! j = Some b -> (i <= j)%nat -> a <= b.
Proof.
  unfold hosts. repeat case_decide.
  - destruct i, j; cbn; intros; simplify_eq; lia.
  - destruct i as [|[|i]], j as [|[|j]]; cbn; intros; simplify_eq; lia.
  - rewrite !lookup_seqZ. lia.
Qed.

(** ** C2: static reservations take precedence *)

(** C2. When the store holds a reservation for the MAC, the allocator
    returns the reserved address and leaves the store alone, whatever the
    leases, the excluded set, the network and the clock are. *)
Theorem static_precedence (s : DHCPServer) (db : DHCPDatabase.t) (client_mac : string)
    (r : Reservation) (clk : Clock) :
  get_static_reservation db client_mac = Some r ->
  _get_available_ip s db client_mac clk = (Some (res_ip_address r), db).
Proof. intros Hr. unfold _get_available_ip. by rewrite Hr. Qed.

(** ** C3: dynamic allocation *)

(** C3. For a MAC with no reservation and no unexpired lease the allocator
    returns the store with the expired leases deleted (a lease is kept
    exactly when its end lies after the reading of the sweep). The address
    returned is that of the numerically smallest host of the network whose
    string is neither excluded nor the address of a lease active in the
    swept store; when every host is excluded or leased, no address is
    returned. *)
Theorem dynamic_allocation (s : DHCPServer) (db : DHCPDatabase.t) (client_mac : string)
    (clk : Clock) :
  get_static_reservation db client_mac = None ->
  get_lease db client_mac (now_get_lease clk) = None ->
  exists (r : option string) (db' : DHCPDatabase.t),
    _get_available_ip s db client_mac clk = (r, db') /\
    static_reservations db' = static_reservations db /\
    (forall mac l, leases db' !! mac = Some l <->
                   leases db !! mac = Some l /\ lease_end l > now_cleanup clk) /\
    match r with
    | Some a =>
      exists ip, a = ip_str ip /\ ip ∈ hosts (network s) /\
        (ip_str ip ∉ excluded_ips s) /\ ¬ leased db' (now_get_all clk) (ip_str ip) /\
        forall ip', ip' ∈ hosts (network s) -> ip_str ip' ∉ excluded_ips s ->
          ¬ leased db' (now_get_all clk) (ip_str ip') -> ip <= ip'
    | None =>
      forall ip, ip ∈ hosts (network s) ->
        ip_str ip ∈ excluded_ips s \/ leased db' (now_get_all clk) (ip_str ip)
    end.
Proof.
  intros Hstatic Hlease. unfold _get_available_ip. rewrite Hstatic, Hlease.
  set (db' := cleanup_expired_leases db (now_cleanup clk)).
  exists (first_available s (active_ips db' (now_get_all clk))), db'.
  split; [done|]. split; [done|]. split; [intros; apply lookup_cleanup|].
  unfold first_available.
  destruct (list_find _ _) as [[i ip]|] eqn:Hfind.
  - apply list_find_Some in Hfind as (Hi & [Hex Hact] & Hmin).
    exists ip. split; [done|]. split; [by eapply list_elem_of_lookup_2|].
    split; [done|]. split; [by rewrite <- elem_of_active_ips|].
    intros ip' Hin' Hex' Hact'. apply list_elem_of_lookup in Hin' as [j Hj].
    destruct (decide (j < i)%nat) as [Hlt|Hge].
    + exfalso. apply (Hmin j ip' Hj Hlt). split; [done|]. by rewrite elem_of_active_ips.
    + eapply hosts_lookup_mono; [done..|lia].
  - rewrite list_find_None in Hfind. intros ip Hin.
    rewrite Forall_forall in Hfind. specialize (Hfind ip Hin).
    unfold ip_free in Hfind. rewrite elem_of_active_ips in Hfind.
    destruct (decide (ip_str ip ∈ excluded_ips s)); [by left|right].
    destruct (decide (ip_str ip ∈ active_ips db' (now_get_all clk))) as [Hin'|Hnin].
    + by apply elem_of_active_ips.
    + exfalso. apply Hfind. split; [done|]. by rewrite <- elem_of_active_ips.
Qed.

(** The three ways through the allocator. *)
Lemma get_available_ip_cases s db client_mac clk :
  (exists r, get_static_reservation db client_mac = Some r /\
     _get_available_ip s db client_mac clk = (Some (res_ip_address r), db)) \/
  (get_static_reservation db client_mac = None /\
   exists l, get_lease db client_mac (now_get_lease clk) = Some l /\
     _get_available_ip s db client_mac clk = (Some (ip_address l), db)) \/
  (get_static_reservation db client_mac = None /\
   get_lease db client_mac (now_get_lease clk) = None /\
   _get_available_ip s db client_mac clk =
     (first_available s (active_ips (cleanup_expired_leases db (now_cleanup clk)) (now_get_all clk)),
      cleanup_expired_leases db (now_cleanup clk))).
Proof.
  unfold _get_available_ip.
  destruct (get_static_reservation db client_mac) as [r|]; [left; by exists r|right].
  destruct (get_lease db client_mac (now_get_lease clk)) as [l|]; [left|right]; [|done].
  split; [done|]. by exists l.
Qed.

Lemma first_available_Some s active a :
  first_available s active = Some a ->
  exists ip, a = ip_str ip /\ ip ∈ hosts (network s) /\ (a ∉ excluded_ips s) /\ a ∉ active.
Proof.
  unfold first_available. destruct (list_find _ _) as [[i ip]|] eqn:Hfind; [|done].
  intros [= <-]. apply list_find_Some in Hfind as (Hi & [Hex Hact] & _).
  exists ip. split; [done|]. split; [by eapply list_elem_of_lookup_2|done].
Qed.

Section Handlers.

Variable inet_aton : string -> result (list byte).
Variable s : DHCPServer.

Lemma create_dhcp_packet_try_nonempty mt mac xid ip p :
  create_dhcp_packet_try inet_aton s mt mac xid ip = Ok p -> p ≠ [].
Proof.
  unfold create_dhcp_packet_try.
  destruct (inet_aton ip); [|done]. cbn.
  destruct (inet_aton (server_ip s)); [|done]. cbn.
  destruct (byte_of_int mt); [|done]. cbn.
  destruct (extend_options _ _); [|done]. cbn.
  intros [= <-] Hnil. apply (f_equal length) in Hnil.
  rewrite ?length_app in Hnil. cbn in Hnil. lia.
Qed.

(** Whether a reply can be built does not depend on the transaction id. *)
Lemma create_dhcp_packet_xid mt mac xid xid' ip :
  create_dhcp_packet inet_aton s mt mac xid ip ≠ [] ->
  create_dhcp_packet inet_aton s mt mac xid' ip ≠ [].
Proof.
  unfold create_dhcp_packet.
  destruct (create_dhcp_packet_try inet_aton s mt mac xid' ip) as [p'|e'] eqn:Hp'.
  { intros _. by eapply create_dhcp_packet_try_nonempty. }
  destruct (create_dhcp_packet_try inet_aton s mt mac xid ip) as [p|e] eqn:Hp; [|done].
  exfalso. revert Hp Hp'. unfold create_dhcp_packet_try.
  destruct (inet_aton ip); [|done]. cbn.
  destruct (inet_aton (server_ip s)); [|done]. cbn.
  destruct (byte_of_int mt); [|done]. cbn.
  destruct (extend_options _ _); done.
Qed.

Lemma send_reply_nonempty p : send_reply p ≠ [] <-> p ≠ [].
Proof. by destruct p. Qed.

(** What [handle_request] does, by the outcome of the allocator. *)
Lemma handle_request_eq db mac xid hn clk :
  handle_request inet_aton s db mac xid hn clk =
  match _get_available_ip s db (mac_str mac) clk with
  | (None, db') | (Some EmptyString, db') => (db', [])
  | (Some ip, db') =>
    (add_lease db' (mac_str mac) ip (lease_time s) hn (now_add_lease clk),
     send_reply (create_dhcp_packet inet_aton s DHCPACK mac xid ip))
  end.
Proof.
  unfold handle_request. destruct (_get_available_ip _ _ _ _) as [[[|c ip]|] db']; done.
Qed.

Lemma handle_discover_eq db mac xid hn clk :
  handle_discover inet_aton s db mac xid hn clk =
  match _get_available_ip s db (mac_str mac) clk with
  | (None, db') | (Some EmptyString, db') => (db', [])
  | (Some ip, db') => (db', send_reply (create_dhcp_packet inet_aton s DHCPOFFER mac xid ip))
  end.
Proof.
  unfold handle_discover. destruct (_get_available_ip _ _ _ _) as [[[|c ip]|] db']; done.
Qed.

End Handlers.

(** * Examples: the configured server *)

(** The server [__init__] builds when [inet_aton] reads dotted decimals. *)
Definition example_server : DHCPServer :=
  {| server_ip := "192.168.1.1";
     network := {| network_address := 3232235776; prefixlen := 24 |};
     excluded_ips := {[ "192.168.1.0"; "192.168.1.1"; "192.168.1.255" ]};
     lease_time := 3600;
     dhcp_options := [(1, [xff; xff; xff; x00]); (3, [xc0; xa8; x01; x01]);
                      (6, [x08; x08; x08; x08]); (42, [x08; x08; x08; x08]);
                      (51, [x00; x00; x0e; x10])] |}.

Example example_server_init : __init__ inet_aton_decimal = Ok example_server.
Proof. reflexivity. Qed.

(** All store operations of one handler read the same instant. *)
Definition clock_at (now : Z) : Clock :=
  {| now_get_lease := now; now_cleanup := now; now_get_all := now; now_add_lease := now |}.

(** Scenario 1 of the specification: a fresh client is given 192.168.1.2. *)
Example fresh_client_allocation :
  (_get_available_ip example_server DHCPDatabase.empty "aa:bb:cc:dd:ee:01" (clock_at 0)).1
  = Some "192.168.1.2"%string.
Proof. vm_compute. reflexivity. Qed.

(** Scenario 1, continued: the REQUEST is answered and the lease is written. *)
Example fresh_client_request :
  map_to_list (leases (handle_client inet_aton_decimal decode_ascii example_server
                         DHCPDatabase.empty (request_from example_mac) (clock_at 0)).1)
  = [("aa:bb:cc:dd:ee:01"%string,
      {| ip_address := "192.168.1.2"; hostname := None; lease_start := 0;
         lease_end := 3600000000; last_seen := 0 |})].
Proof. vm_compute. reflexivity. Qed.

(** Scenario 4 of the specification: a /30 with two usable addresses. *)
Definition small_server : DHCPServer :=
  {| server_ip := "192.168.1.1";
     network := {| network_address := 3232235776; prefixlen := 30 |};
     excluded_ips := {[ "192.168.1.0"; "192.168.1.3" ]};
     lease_time := 3600;
     dhcp_options := dhcp_options example_server |}.

Example pool_exhaustion :
  let db1 := (handle_client inet_aton_decimal decode_ascii small_server DHCPDatabase.empty
                (request_from [xaa; xbb; xcc; xdd; xee; x01]) (clock_at 0)).1 in
  let db2 := (handle_client inet_aton_decimal decode_ascii small_server db1
                (request_from [xaa; xbb; xcc; xdd; xee; x02]) (clock_at 1)).1 in
  ip_address <$> leases db2 !! "aa:bb:cc:dd:ee:01"%string = Some "192.168.1.1"%string /\
  ip_address <$> leases db2 !! "aa:bb:cc:dd:ee:02"%string = Some "192.168.1.2"%string /\
  handle_client inet_aton_decimal decode_ascii small_server db2
    (request_from [xaa; xbb; xcc; xdd; xee; x03]) (clock_at 2) = (db2, []).
Proof. vm_compute. repeat split; reflexivity. Qed.

(** ** C8: what a DISCOVER does to the store *)

(** A store whose only lease ended at the 3600th second. *)
Definition stale_db : DHCPDatabase.t :=
  add_lease DHCPDatabase.empty "11:22:33:44:55:66" "192.168.1.2" 3600 None 0.

(** C8, counterexample. A DISCOVER from a MAC with no reservation and no
    lease, handled after another client's lease has ended, deletes that
    expired record: the lease table is not the same before and after. *)
Lemma discover_deletes_expired :
  leases stale_db !! "11:22:33:44:55:66"%string =
    Some {| ip_address := "192.168.1.2"; hostname := None; lease_start := 0;
            lease_end := 3600000000; last_seen := 0 |} /\
  leases (handle_discover inet_aton_decimal example_server stale_db
            example_mac example_xid None (clock_at 3600000001)).1
    !! "11:22:33:44:55:66"%string = None.
Proof. split; vm_compute; reflexivity. Qed.

Lemma send_reply_cases p :
  send_reply p = [] \/
  send_reply p = [{| payload := p; dest_host := "255.255.255.255"; dest_port := 68 |}].
Proof. destruct p; [by left|by right]. Qed.

Lemma handle_discover_shape inet_aton s db mac xid hn clk :
  exists out,
    handle_discover inet_aton s db mac xid hn clk =
      ((_get_available_ip s db (mac_str mac) clk).2, out) /\
    (out = [] \/
     exists ip, out = [{| payload := create_dhcp_packet inet_aton s DHCPOFFER mac xid ip;
                          dest_host := "255.255.255.255"; dest_port := 68 |}]).
Proof.
  rewrite handle_discover_eq.
  destruct (_get_available_ip s db (mac_str mac) clk) as [[[|c ip]|] db']; cbn.
  1, 3: exists []; split; [done|by left].
  eexists. split; [done|].
  destruct (send_reply_cases (create_dhcp_packet inet_aton s DHCPOFFER mac xid (String c ip)))
    as [->| ->]; [by left|right; by eexists].
Qed.

(** C8, amended. Handling a DISCOVER never inserts or changes a lease and
    never touches the reservations. It leaves the store exactly as it was
    when the MAC has a reservation or an unexpired lease; otherwise the
    store becomes the store swept at the reading of the sweep, so the only
    records that disappear are leases that had ended by then. At most one
    datagram is sent: an OFFER to 255.255.255.255:68. *)
Theorem discover_store_effect (inet_aton : string -> result (list byte))
    (s : DHCPServer) (db : DHCPDatabase.t) (client_mac transaction_id : list byte)
    (host : option string) (clk : Clock) :
  exists db' out,
    handle_discover inet_aton s db client_mac transaction_id host clk = (db', out) /\
    static_reservations db' = static_reservations db /\
    (forall m l, leases db' !! m = Some l -> leases db !! m = Some l) /\
    (forall m l, leases db !! m = Some l -> lease_end l > now_cleanup clk ->
       leases db' !! m = Some l) /\
    (is_Some (get_static_reservation db (mac_str client_mac)) \/
     is_Some (get_lease db (mac_str client_mac) (now_get_lease clk)) -> db' = db) /\
    (get_static_reservation db (mac_str client_mac) = None ->
     get_lease db (mac_str client_mac) (now_get_lease clk) = None ->
     db' = cleanup_expired_leases db (now_cleanup clk)) /\
    (out = [] \/
     exists ip, out = [{| payload := create_dhcp_packet inet_aton s DHCPOFFER
                                       client_mac transaction_id ip;
                          dest_host := "255.255.255.255"; dest_port := 68 |}]).
Proof.
  destruct (handle_discover_shape inet_aton s db client_mac transaction_id host clk)
    as (out & -> & Hout).
  eexists _, out. split; [reflexivity|].
  destruct (get_available_ip_cases s db (mac_str client_mac) clk)
    as [(r & Hr & ->) | [(Hr & l & Hl & ->) | (Hr & Hl & ->)]]; cbn.
  - repeat split; try done. intros Hn _. by rewrite Hr in Hn.
  - repeat split; try done. intros _ Hn. by rewrite Hl in Hn.
  - split; [done|]. split; [intros m l Hm; by apply lookup_cleanup in Hm as [? ?]|].
    split; [intros m l Hm He; by apply lookup_cleanup|].
    split; [|done]. rewrite Hr, Hl. by intros [[? [=]] | [? [=]]].
Qed.

(** ** C9: renewal *)

Lemma get_lease_add_lease db mac ip lt hn now now' :
  now' < now + DHCPDatabase.seconds lt ->
  get_lease (add_lease db mac ip lt hn now) mac now' =
    Some {| ip_address := ip; hostname := hn; lease_start := now;
            lease_end := now + DHCPDatabase.seconds lt; last_seen := now |}.
Proof.
  intros Hlt. unfold get_lease, add_lease. cbn. rewrite lookup_insert_eq. cbn.
  rewrite decide_True by lia. done.
Qed.

Lemma static_precedence_helper s db mac r clk :
  get_static_reservation db mac = Some r ->
  _get_available_ip s db mac clk = (Some (res_ip_address r), db).
Proof. intros Hr. unfold _get_available_ip. by rewrite Hr. Qed.

(** Once a lease has been written for the address the allocator gave, the
    allocator gives the same address again for as long as the lease runs. *)
Lemma get_available_ip_again s db db' client_mac ip hn clk clk' :
  _get_available_ip s db client_mac clk = (Some ip, db') ->
  now_get_lease clk' < now_add_lease clk + DHCPDatabase.seconds (lease_time s) ->
  _get_available_ip s
    (add_lease db' client_mac ip (lease_time s) hn (now_add_lease clk)) client_mac clk' =
  (Some ip, add_lease db' client_mac ip (lease_time s) hn (now_add_lease clk)).
Proof.
  intros Ha Hlt.
  destruct (get_available_ip_cases s db client_mac clk)
    as [(r & Hr & Heq) | [(Hr & l & Hl & Heq) | (Hr & Hl & Heq)]];
    rewrite Heq in Ha; injection Ha as Hip <-.
  - rewrite <- Hip. by apply static_precedence_helper.
  - unfold _get_available_ip.
    change (get_static_reservation (add_lease db client_mac ip (lease_time s) hn (now_add_lease clk))
              client_mac) with (get_static_reservation db client_mac).
    by rewrite Hr, get_lease_add_lease.
  - unfold _get_available_ip at 1.
    change (get_static_reservation
              (add_lease (cleanup_expired_leases db (now_cleanup clk)) client_mac ip
                 (lease_time s) hn (now_add_lease clk)) client_mac)
      with (get_static_reservation db client_mac).
    by rewrite Hr, get_lease_add_lease.
Qed.

Lemma send_reply_Some p :
  p ≠ [] -> send_reply p = [{| payload := p; dest_host := "255.255.255.255"; dest_port := 68 |}].
Proof. by destruct p. Qed.

(** C9. Let a REQUEST be answered with an ACK, and let the same MAC send a
    second REQUEST that is handled next, is looked up before the first
    lease ends, and is written at a later clock reading. Then both ACKs
    carry the same address; after each REQUEST the lease of the MAC has
    [lease_start] and [last_seen] equal to the reading of its write and
    [lease_end] that reading plus the configured lease time; and the second
    [lease_end] is strictly greater than the first. *)
Theorem renewal_stability (inet_aton : string -> result (list byte)) (s : DHCPServer)
    (db db1 db2 : DHCPDatabase.t) (client_mac xid1 xid2 : list byte)
    (host1 host2 : option string) (clk1 clk2 : Clock) (out1 out2 : list Datagram) :
  handle_request inet_aton s db client_mac xid1 host1 clk1 = (db1, out1) ->
  handle_request inet_aton s db1 client_mac xid2 host2 clk2 = (db2, out2) ->
  out1 ≠ [] ->
  now_get_lease clk2 < now_add_lease clk1 + DHCPDatabase.seconds (lease_time s) ->
  now_add_lease clk1 < now_add_lease clk2 ->
  exists ip l1 l2,
    out1 = [{| payload := create_dhcp_packet inet_aton s DHCPACK client_mac xid1 ip;
               dest_host := "255.255.255.255"; dest_port := 68 |}] /\
    out2 = [{| payload := create_dhcp_packet inet_aton s DHCPACK client_mac xid2 ip;
               dest_host := "255.255.255.255"; dest_port := 68 |}] /\
    create_dhcp_packet inet_aton s DHCPACK client_mac xid1 ip ≠ [] /\
    create_dhcp_packet inet_aton s DHCPACK client_mac xid2 ip ≠ [] /\
    leases db1 !! mac_str client_mac = Some l1 /\
    leases db2 !! mac_str client_mac = Some l2 /\
    l1 = {| ip_address := ip; hostname := host1; lease_start := now_add_lease clk1;
            lease_end := now_add_lease clk1 + DHCPDatabase.seconds (lease_time s);
            last_seen := now_add_lease clk1 |} /\
    l2 = {| ip_address := ip; hostname := host2; lease_start := now_add_lease clk2;
            lease_end := now_add_lease clk2 + DHCPDatabase.seconds (lease_time s);
            last_seen := now_add_lease clk2 |} /\
    lease_end l2 > lease_end l1.
Proof.
  intros H1 H2 Hout Hwithin Hlater.
  rewrite handle_request_eq in H1.
  destruct (_get_available_ip s db (mac_str client_mac) clk1) as [[ip|] db'] eqn:Ha;
    [|by simplify_eq].
  assert (ip ≠ EmptyString) as Hip by (intros ->; by simplify_eq).
  assert ((db1, out1) =
          (add_lease db' (mac_str client_mac) ip (lease_time s) host1 (now_add_lease clk1),
           send_reply (create_dhcp_packet inet_aton s DHCPACK client_mac xid1 ip))) as Heq1
    by (by destruct ip).
  injection Heq1 as -> ->. clear H1.
  apply send_reply_nonempty in Hout.
  pose proof (create_dhcp_packet_xid inet_aton s _ _ _ xid2 _ Hout) as Hout2.
  rewrite handle_request_eq in H2.
  rewrite (get_available_ip_again _ _ _ _ _ host1 _ clk2 Ha Hwithin) in H2.
  assert ((db2, out2) =
          (add_lease (add_lease db' (mac_str client_mac) ip (lease_time s) host1 (now_add_lease clk1))
             (mac_str client_mac) ip (lease_time s) host2 (now_add_lease clk2),
           send_reply (create_dhcp_packet inet_aton s DHCPACK client_mac xid2 ip))) as Heq2
    by (by destruct ip).
  injection Heq2 as -> ->. clear H2.
  eexists ip, _, _.
  split; [by apply send_reply_Some|]. split; [by apply send_reply_Some|].
  split; [done|]. split; [done|].
  split; [apply lookup_insert_eq|]. split; [apply lookup_insert_eq|].
  split; [done|]. split; [done|]. cbn. lia.
Qed.

(** ** C1: no address is leased twice *)

(** No two MACs hold leases active at [now] for the same address. *)
Definition unique_active (db : DHCPDatabase.t) (now : Z) : Prop :=
  forall m1 m2 l1 l2, m1 ≠ m2 ->
    leases db !! m1 = Some l1 -> leases db !! m2 = Some l2 ->
    lease_end l1 > now -> lease_end l2 > now -> ip_address l1 ≠ ip_address l2.

(** The server handles the datagrams one after the other; each comes with
    the clock readings of its handler. *)
Definition run (inet_aton : string -> result (list byte)) (decode : list byte -> string)
    (s : DHCPServer) (db : DHCPDatabase.t) (evs : list (list byte * Clock)) : DHCPDatabase.t :=
  foldl (fun db ev => (handle_client inet_aton decode s db ev.1 ev.2).1) db evs.

(** [ip] is reserved for some MAC. *)
Definition reserved (db : DHCPDatabase.t) (ip : string) : Prop :=
  exists m r, static_reservations db !! m = Some r /\ res_ip_address r = ip.

(** No two MACs have the same reserved address, and every reserved address
    is excluded from the pool or is not the string of a host of the network. *)
Definition reservations_apart (s : DHCPServer) (db : DHCPDatabase.t) : Prop :=
  (forall m1 m2 r1 r2, static_reservations db !! m1 = Some r1 ->
     static_reservations db !! m2 = Some r2 ->
     res_ip_address r1 = res_ip_address r2 -> m1 = m2) /\
  (forall m r, static_reservations db !! m = Some r ->
     res_ip_address r ∈ excluded_ips s \/
     forall ip, ip ∈ hosts (network s) -> ip_str ip ≠ res_ip_address r).

(** The readings of one handler do not run backwards and start at [t0] or
    later. *)
Definition clock_ordered (t0 : Z) (clk : Clock) : Prop :=
  t0 <= now_get_lease clk /\ now_get_lease clk <= now_cleanup clk /\
  now_cleanup clk <= now_get_all clk /\ now_get_all clk <= now_add_lease clk.

Fixpoint timeline (t0 : Z) (evs : list (list byte * Clock)) : Prop :=
  match evs with
  | [] => True
  | ev :: evs => clock_ordered t0 ev.2 /\ timeline (now_add_lease ev.2) evs
  end.

Definition end_of_timeline (t0 : Z) (evs : list (list byte * Clock)) : Z :=
  foldl (fun _ ev => now_add_lease ev.2) t0 evs.

(** Every active lease of a MAC with a reservation is for the reserved
    address, every other active lease is for an address that is not
    reserved. *)
Definition placed (db : DHCPDatabase.t) (now : Z) : Prop :=
  forall m l, leases db !! m = Some l -> lease_end l > now ->
    match static_reservations db !! m with
    | Some r => ip_address l = res_ip_address r
    | None => ¬ reserved db (ip_address l)
    end.

Definition consistent (db : DHCPDatabase.t) (now : Z) : Prop :=
  unique_active db now /\ placed db now.

(** A store with a reservation of 192.168.1.2 for the MAC ending in 02. *)
Definition reserved_db : DHCPDatabase.t :=
  add_static_reservation DHCPDatabase.empty "aa:bb:cc:dd:ee:02" "192.168.1.2" None None.

(** C1, counterexample. The MAC ending in 01 sends a REQUEST and is given
    the first free host, 192.168.1.2; the MAC ending in 02, for which
    192.168.1.2 is reserved, sends a REQUEST a microsecond later and is given
    its reservation. Both leases are active and hold the same address. *)
Lemma static_reservation_duplicates_ip :
  ¬ unique_active
      (run inet_aton_decimal decode_ascii example_server reserved_db
         [(request_from [xaa; xbb; xcc; xdd; xee; x01], clock_at 0);
          (request_from [xaa; xbb; xcc; xdd; xee; x02], clock_at 1)]) 2.
Proof.
  intros Hu.
  apply (Hu "aa:bb:cc:dd:ee:01"%string "aa:bb:cc:dd:ee:02"%string
          {| ip_address := "192.168.1.2"; hostname := None; lease_start := 0;
             lease_end := 3600000000; last_seen := 0 |}
          {| ip_address := "192.168.1.2"; hostname := None; lease_start := 1;
             lease_end := 3600000001; last_seen := 1 |}).
  - discriminate.
  - vm_compute. reflexivity.
  - vm_compute. reflexivity.
  - cbn. lia.
  - cbn. lia.
  - reflexivity.
Qed.

Lemma consistent_mono db t t' : consistent db t -> t <= t' -> consistent db t'.
Proof.
  intros [Hu Hp] Hle. split.
  - intros m1 m2 l1 l2 Hne H1 H2 He1 He2. apply (Hu m1 m2 l1 l2); [done..|lia|lia].
  - intros m l Hm He. apply Hp; [done|lia].
Qed.

Lemma consistent_cleanup db t now :
  consistent db t -> consistent (cleanup_expired_leases db now) t.
Proof.
  intros [Hu Hp]. split.
  - intros m1 m2 l1 l2 Hne H1 H2. apply lookup_cleanup in H1 as [H1 _], H2 as [H2 _].
    by apply (Hu m1 m2).
  - intros m l Hm. apply lookup_cleanup in Hm as [Hm _]. by apply (Hp m l).
Qed.

Lemma consistent_add_lease db t mac ip lt hn now :
  consistent db t ->
  (forall m' l', m' ≠ mac -> leases db !! m' = Some l' -> lease_end l' > t ->
     ip_address l' ≠ ip) ->
  match static_reservations db !! mac with
  | Some r => ip = res_ip_address r
  | None => ¬ reserved db ip
  end ->
  consistent (add_lease db mac ip lt hn now) t.
Proof.
  intros [Hu Hp] Hfresh Hplace. split.
  - intros m1 m2 l1 l2 Hne H1 H2 He1 He2. unfold add_lease in H1, H2. cbn in H1, H2.
    destruct (decide (m1 = mac)) as [->|Hm1], (decide (m2 = mac)) as [->|Hm2]; [done|..].
    + rewrite lookup_insert_eq in H1. rewrite lookup_insert_ne in H2 by done.
      injection H1 as <-. cbn. intros Heq. by apply (Hfresh m2 l2).
    + rewrite lookup_insert_eq in H2. rewrite lookup_insert_ne in H1 by done.
      injection H2 as <-. cbn. by apply (Hfresh m1 l1).
    + rewrite lookup_insert_ne in H1, H2 by done. by apply (Hu m1 m2).
  - intros m l Hm He. unfold add_lease in Hm. cbn in Hm.
    change (static_reservations (add_lease db mac ip lt hn now))
      with (static_reservations db).
    change (reserved (add_lease db mac ip lt hn now)) with (reserved db).
    destruct (decide (m = mac)) as [->|Hne].
    + rewrite lookup_insert_eq in Hm. by injection Hm as <-.
    + rewrite lookup_insert_ne in Hm by done. by apply Hp.
Qed.

Section Uniqueness.

Variable inet_aton : string -> result (list byte).
Variable decode : list byte -> string.
Variable s : DHCPServer.

Lemma get_available_ip_consistent db mac clk t0 :
  reservations_apart s db -> consistent db t0 -> clock_ordered t0 clk ->
  match _get_available_ip s db mac clk with
  | (r, db') =>
    static_reservations db' = static_reservations db /\
    consistent db' (now_add_lease clk) /\
    forall ip, r = Some ip ->
      (forall m' l', m' ≠ mac -> leases db' !! m' = Some l' ->
         lease_end l' > now_add_lease clk -> ip_address l' ≠ ip) /\
      match static_reservations db' !! mac with
      | Some r => ip = res_ip_address r
      | None => ¬ reserved db' ip
      end
  end.
Proof.
  intros [Hinj Hout] Hc (H0 & H1 & H2 & H3).
  assert (consistent db (now_add_lease clk)) as Hc' by (eapply consistent_mono; [done|lia]).
  destruct (get_available_ip_cases s db mac clk)
    as [(r & Hr & ->) | [(Hr & l & Hl & ->) | (Hr & Hl & ->)]].
  - split; [done|]. split; [done|]. intros ip [= <-].
    unfold get_static_reservation in Hr. rewrite Hr. split; [|done].
    intros m' l' Hne Hm' He' Heq. destruct Hc' as [_ Hp]. specialize (Hp m' l' Hm' He').
    destruct (static_reservations db !! m') as [r'|] eqn:Hr'.
    + apply Hne. apply (Hinj m' mac r' r); congruence.
    + apply Hp. by exists mac, r.
  - split; [done|]. split; [done|]. intros ip [= <-].
    apply get_lease_Some in Hl as [Hl He]. destruct Hc as [Hu Hp]. split.
    + intros m' l' Hne Hm' He'. apply (Hu m' mac l' l); [done..|lia|lia].
    + unfold get_static_reservation in Hr. specialize (Hp mac l Hl).
      rewrite Hr in Hp |- *. apply Hp. lia.
  - split; [done|]. split; [by apply consistent_cleanup|]. intros a Ha.
    apply first_available_Some in Ha as (ip & -> & Hin & Hex & Hact).
    rewrite elem_of_active_ips in Hact. split.
    + intros m' l' Hne Hm' He' Heq. apply Hact. exists m', l'. split; [done|]. split; [lia|done].
    + unfold get_static_reservation in Hr.
      change (static_reservations (cleanup_expired_leases db (now_cleanup clk)))
        with (static_reservations db).
      rewrite Hr. intros (m & r & Hm & Heq). destruct (Hout m r Hm) as [Hx|Hx].
      * apply Hex. by rewrite Heq in Hx.
      * by apply (Hx ip).
Qed.

Lemma handle_client_consistent db data clk t0 :
  reservations_apart s db -> consistent db t0 -> clock_ordered t0 clk ->
  static_reservations (handle_client inet_aton decode s db data clk).1 = static_reservations db /\
  consistent (handle_client inet_aton decode s db data clk).1 (now_add_lease clk).
Proof.
  intros Hres Hc Hclk.
  assert (consistent db (now_add_lease clk)) as Hc'.
  { eapply consistent_mono; [done|]. destruct Hclk as (? & ? & ? & ?). lia. }
  unfold handle_client.
  destruct (parse_dhcp_packet decode data) as [[[mt mac] xid] hn].
  repeat case_decide; [| |done..].
  - destruct (handle_discover_shape inet_aton s db mac xid hn clk) as (out & -> & _). cbn.
    pose proof (get_available_ip_consistent db (mac_str mac) clk t0 Hres Hc Hclk) as Ha.
    destruct (_get_available_ip s db (mac_str mac) clk) as [r db']. cbn.
    by destruct Ha as (? & ? & _).
  - rewrite handle_request_eq.
    pose proof (get_available_ip_consistent db (mac_str mac) clk t0 Hres Hc Hclk) as Ha.
    destruct (_get_available_ip s db (mac_str mac) clk) as [[ip|] db'];
      [|by destruct Ha as (? & ? & _)].
    destruct Ha as (Hst & Hc'' & Hip). destruct (Hip ip eq_refl) as [Hfresh Hplace].
    destruct ip as [|c ip]; [done|]. cbn. split; [done|].
    by apply consistent_add_lease.
Qed.

Lemma run_consistent evs : forall db t0,
  reservations_apart s db -> consistent db t0 -> timeline t0 evs ->
  consistent (run inet_aton decode s db evs) (end_of_timeline t0 evs).
Proof.
  induction evs as [|[data clk] evs IH]; intros db t0 Hres Hc Ht; [done|].
  destruct Ht as [Hclk Ht]. cbn in *.
  destruct (handle_client_consistent db data clk t0 Hres Hc Hclk) as [Hst Hc'].
  apply IH; [|done..]. unfold reservations_apart in *. by rewrite Hst.
Qed.

End Uniqueness.

(** C1, amended. Let the lease table be empty at the start, let no two MACs
    have the same reserved address, and let every reserved address be
    excluded from the pool or lie outside the hosts of the network. Then
    after any sequence of datagrams handled one after the other, with clock
    readings that do not run backwards, no two MACs hold active leases for
    the same address, at the end of the sequence and at every later
    instant. *)
Theorem unique_active_ips (inet_aton : string -> result (list byte))
    (decode : list byte -> string) (s : DHCPServer) (db : DHCPDatabase.t)
    (evs : list (list byte * Clock)) (t0 t : Z) :
  leases db = ∅ ->
  reservations_apart s db ->
  timeline t0 evs ->
  end_of_timeline t0 evs <= t ->
  unique_active (run inet_aton decode s db evs) t.
Proof.
  intros Hempty Hres Ht Hle.
  assert (consistent db t0) as Hc.
  { split.
    - intros m1 m2 l1 l2 _ H1. by rewrite Hempty in H1.
    - intros m l Hm. by rewrite Hempty in Hm. }
  pose proof (run_consistent inet_aton decode s evs db t0 Hres Hc Ht) as Hend.
  by destruct (consistent_mono _ _ _ Hend Hle).
Qed.

(** * Instances of the theorems on concrete inputs *)

(** A store with no lease and one reservation, for the excluded address of
    the server itself. *)
Definition office_db : DHCPDatabase.t :=
  add_static_reservation DHCPDatabase.empty "aa:bb:cc:dd:ee:ff" "192.168.1.1" None None.

Lemma office_db_reservations_apart : reservations_apart example_server office_db.
Proof.
  split.
  - intros m1 m2 r1 r2 H1 H2 _. unfold office_db, add_static_reservation in H1, H2.
    cbn in H1, H2. apply lookup_insert_Some in H1 as [[<- _]|[_ H1]]; [|done].
    by apply lookup_insert_Some in H2 as [[<- _]|[_ H2]].
  - intros m r Hm. left. unfold office_db, add_static_reservation in Hm. cbn in Hm.
    apply lookup_insert_Some in Hm as [[_ <-]|[_ Hm]]; [|done]. cbn. set_solver.
Qed.

Lemma unique_active_ips_witness :
  unique_active
    (run inet_aton_decimal decode_ascii example_server office_db
       [(request_from [xaa; xbb; xcc; xdd; xee; x01], clock_at 0);
        (request_from [xaa; xbb; xcc; xdd; xee; xff], clock_at 1);
        (request_from [xaa; xbb; xcc; xdd; xee; x02], clock_at 2)]) 5.
Proof.
  apply (unique_active_ips inet_aton_decimal decode_ascii example_server office_db
           [(request_from [xaa; xbb; xcc; xdd; xee; x01], clock_at 0);
            (request_from [xaa; xbb; xcc; xdd; xee; xff], clock_at 1);
            (request_from [xaa; xbb; xcc; xdd; xee; x02], clock_at 2)] 0 5).
  - reflexivity.
  - exact office_db_reservations_apart.
  - cbn. unfold clock_ordered. cbn. lia.
  - cbn. lia.
Defined.

(** Scenario 3 of the specification: the MAC has a dynamic lease for
    192.168.1.3 and a reservation for 192.168.1.50. *)
Definition scenario3_db : DHCPDatabase.t :=
  add_static_reservation
    (add_lease DHCPDatabase.empty "aa:bb:cc:dd:ee:ff" "192.168.1.3" 3600 None 0)
    "aa:bb:cc:dd:ee:ff" "192.168.1.50" None None.

Lemma static_precedence_witness :
  _get_available_ip example_server scenario3_db "aa:bb:cc:dd:ee:ff" (clock_at 10) =
  (Some "192.168.1.50"%string, scenario3_db).
Proof.
  apply (static_precedence example_server scenario3_db "aa:bb:cc:dd:ee:ff"
           {| res_ip_address := "192.168.1.50"; res_hostname := None; description := None |}
           (clock_at 10)).
  vm_compute. reflexivity.
Defined.

Lemma dynamic_allocation_witness :
  exists (r : option string) (db' : DHCPDatabase.t),
    _get_available_ip example_server stale_db "aa:bb:cc:dd:ee:01" (clock_at 3600000001) = (r, db') /\
    static_reservations db' = static_reservations stale_db /\
    (forall mac l, leases db' !! mac = Some l <->
                   leases stale_db !! mac = Some l /\
                   lease_end l > now_cleanup (clock_at 3600000001)) /\
    match r with
    | Some a =>
      exists ip, a = ip_str ip /\ ip ∈ hosts (network example_server) /\
        (ip_str ip ∉ excluded_ips example_server) /\
        ¬ leased db' (now_get_all (clock_at 3600000001)) (ip_str ip) /\
        forall ip', ip' ∈ hosts (network example_server) ->
          ip_str ip' ∉ excluded_ips example_server ->
          ¬ leased db' (now_get_all (clock_at 3600000001)) (ip_str ip') -> ip <= ip'
    | None =>
      forall ip, ip ∈ hosts (network example_server) ->
        ip_str ip ∈ excluded_ips example_server \/
        leased db' (now_get_all (clock_at 3600000001)) (ip_str ip)
    end.
Proof.
  apply (dynamic_allocation example_server stale_db "aa:bb:cc:dd:ee:01" (clock_at 3600000001)).
  - vm_compute. reflexivity.
  - vm_compute. reflexivity.
Defined.

Lemma inet_aton_decimal_length a b : inet_aton_decimal a = Ok b -> length b = 4%nat.
Proof.
  unfold inet_aton_decimal.
  destruct (split_on "." a) as [|p0 [|p1 [|p2 [|p3 [|]]]]]; try done.
  destruct (octet_of p0); [|done]. destruct (octet_of p1); [|done].
  destruct (octet_of p2); [|done]. destruct (octet_of p3); [|done].
  by intros [= <-].
Qed.

Lemma create_dhcp_packet_layout_witness :
  exists mt server mask router dns ntp,
    byte_val mt = 2 /\
    inet_aton_decimal (server_ip example_server) = Ok server /\
    dhcp_options example_server =
      [(1, mask); (3, router); (6, dns); (42, ntp); (51, [x00; x00; x0e; x10])] /\
    pack_I (lease_time example_server) = Ok [x00; x00; x0e; x10] /\
    create_dhcp_packet inet_aton_decimal example_server 2 example_mac example_xid "192.168.1.2" =
      [x02; x01; x06; x00] ++ example_xid ++ replicate 8 x00 ++
      [xc0; xa8; x01; x02] ++ server ++ replicate 4 x00 ++
      example_mac ++ replicate 10 x00 ++ replicate 192 x00 ++ magic_cookie ++
      [x35; x01; mt] ++ ([x36; x04] ++ server) ++
      ([x01; x04] ++ mask) ++ ([x03; x04] ++ router) ++ ([x06; x04] ++ dns) ++
      ([x2a; x04] ++ ntp) ++ [x33; x04; x00; x00; x0e; x10] ++ [xff].
Proof.
  apply (create_dhcp_packet_layout inet_aton_decimal example_server 2 example_mac example_xid
           "192.168.1.2" [xc0; xa8; x01; x02]).
  - exact inet_aton_decimal_length.
  - reflexivity.
  - lia.
  - reflexivity.
  - reflexivity.
  - reflexivity.
Defined.

(** Scenario 2 of the specification: the client of scenario 1 renews 100
    seconds after its first REQUEST. *)
Lemma renewal_stability_witness :
  exists ip l1 l2,
    (handle_request inet_aton_decimal example_server DHCPDatabase.empty
       example_mac example_xid None (clock_at 0)).2 =
      [{| payload := create_dhcp_packet inet_aton_decimal example_server DHCPACK
                       example_mac example_xid ip;
          dest_host := "255.255.255.255"; dest_port := 68 |}] /\
    (handle_request inet_aton_decimal example_server
       (handle_request inet_aton_decimal example_server DHCPDatabase.empty
          example_mac example_xid None (clock_at 0)).1
       example_mac example_xid None (clock_at 100000000)).2 =
      [{| payload := create_dhcp_packet inet_aton_decimal example_server DHCPACK
                       example_mac example_xid ip;
          dest_host := "255.255.255.255"; dest_port := 68 |}] /\
    create_dhcp_packet inet_aton_decimal example_server DHCPACK example_mac example_xid ip ≠ [] /\
    create_dhcp_packet inet_aton_decimal example_server DHCPACK example_mac example_xid ip ≠ [] /\
    leases (handle_request inet_aton_decimal example_server DHCPDatabase.empty
              example_mac example_xid None (clock_at 0)).1 !! mac_str example_mac = Some l1 /\
    leases (handle_request inet_aton_decimal example_server
              (handle_request inet_aton_decimal example_server DHCPDatabase.empty
                 example_mac example_xid None (clock_at 0)).1
              example_mac example_xid None (clock_at 100000000)).1 !! mac_str example_mac = Some l2 /\
    l1 = {| ip_address := ip; hostname := None; lease_start := now_add_lease (clock_at 0);
            lease_end := now_add_lease (clock_at 0) +
                         DHCPDatabase.seconds (lease_time example_server);
            last_seen := now_add_lease (clock_at 0) |} /\
    l2 = {| ip_address := ip; hostname := None; lease_start := now_add_lease (clock_at 100000000);
            lease_end := now_add_lease (clock_at 100000000) +
                         DHCPDatabase.seconds (lease_time example_server);
            last_seen := now_add_lease (clock_at 100000000) |} /\
    lease_end l2 > lease_end l1.
Proof.
  apply (renewal_stability inet_aton_decimal example_server DHCPDatabase.empty
           (handle_request inet_aton_decimal example_server DHCPDatabase.empty
              example_mac example_xid None (clock_at 0)).1
           (handle_request inet_aton_decimal example_server
              (handle_request inet_aton_decimal example_server DHCPDatabase.empty
                 example_mac example_xid None (clock_at 0)).1
              example_mac example_xid None (clock_at 100000000)).1
           example_mac example_xid example_xid None None (clock_at 0) (clock_at 100000000)).
  - vm_compute. reflexivity.
  - vm_compute. reflexivity.
  - vm_compute. discriminate.
  - vm_compute. reflexivity.
  - vm_compute. reflexivity.
Defined.

(** * Further properties of the lease store *)


Lemma get_all_leases_cleanup db T now :
  T <= now -> get_all_leases (cleanup_expired_leases db T) now = get_all_leases db now.
Proof.
  intros Hle. unfold get_all_leases, cleanup_expired_leases. cbn. f_equal.
  apply map_eq. intros m. apply option_eq. intros l.
  rewrite !map_lookup_filter_Some. cbn. intuition lia.
Qed.

(** X2. What the sweep removes and what readers see of it. After
    [cleanup_expired_leases] at reading [T], [get_lease] at reading [now]
    returns a row exactly when the row was in the store and ends after both
    [T] and [now]. A reader that reads the clock at [T] or later cannot
    tell a swept store from an unswept one: [get_lease] and
    [get_all_leases] give the same answers. *)
Theorem cleanup_expired_leases_readers (db : DHCPDatabase.t) (T now : Z) (mac : string) :
  (forall l, get_lease (cleanup_expired_leases db T) mac now = Some l <->
             leases db !! mac = Some l /\ lease_end l > T /\ lease_end l > now) /\
  (T <= now ->
     get_lease (cleanup_expired_leases db T) mac now = get_lease db mac now /\
     get_all_leases (cleanup_expired_leases db T) now = get_all_leases db now).
Proof.
  split.
  - intros l. rewrite get_lease_Some, lookup_cleanup. intuition.
  - intros Hle. split; [|by apply get_all_leases_cleanup].
    apply option_eq. intros l. rewrite !get_lease_Some, lookup_cleanup. intuition lia.
Qed.

(** X3. [get_all_leases] and [get_lease] agree: a row is listed at reading
    [now] exactly when [get_lease] returns it for its MAC at that reading,
    and no MAC is listed twice. *)
Theorem get_all_leases_get_lease (db : DHCPDatabase.t) (now : Z) :
  (forall mac l, (mac, l) ∈ get_all_leases db now <-> get_lease db mac now = Some l) /\
  NoDup (get_all_leases db now).*1.
Proof.
  split.
  - intros mac l. unfold get_all_leases.
    rewrite elem_of_map_to_list, map_lookup_filter_Some, get_lease_Some. done.
  - apply NoDup_fst_map_to_list.
Qed.

(** X4. A reservation takes effect at once. After [add_static_reservation]
    for a MAC the allocator returns the reserved address for that MAC and
    leaves the store alone, whatever lease the MAC holds; the lease table
    and the reservations of the other MACs are as before, and an earlier
    reservation of the MAC is replaced. *)
Theorem reservation_takes_effect (s : DHCPServer) (db : DHCPDatabase.t) (mac ip : string)
    (host descr : option string) (clk : Clock) :
  _get_available_ip s (add_static_reservation db mac ip host descr) mac clk =
    (Some ip, add_static_reservation db mac ip host descr) /\
  get_static_reservation (add_static_reservation db mac ip host descr) mac =
    Some {| res_ip_address := ip; res_hostname := host; description := descr |} /\
  (forall m, m ≠ mac ->
     get_static_reservation (add_static_reservation db mac ip host descr) m =
     get_static_reservation db m) /\
  leases (add_static_reservation db mac ip host descr) = leases db.
Proof.
  assert (get_static_reservation (add_static_reservation db mac ip host descr) mac =
          Some {| res_ip_address := ip; res_hostname := host; description := descr |}) as Hr.
  { unfold get_static_reservation, add_static_reservation. cbn. apply lookup_insert_eq. }
  split; [|split; [done|split; [|done]]].
  - unfold _get_available_ip. by rewrite Hr.
  - intros m Hne. unfold get_static_reservation, add_static_reservation. cbn.
    by rewrite lookup_insert_ne.
Qed.

(** * Further properties of the handlers *)

(** Where the allocator may place the lease of MAC [m]: on its reserved
    address when it has one, otherwise on a host of the network that is not
    excluded. *)
Definition placement (s : DHCPServer) (db0 : DHCPDatabase.t) (m ip : string) : Prop :=
  match static_reservations db0 !! m with
  | Some r => ip = res_ip_address r
  | None => exists a, a ∈ hosts (network s) /\ ip = ip_str a /\ ip_str a ∉ excluded_ips s
  end.

(** A row as the server writes it. *)
Definition lease_row_ok (s : DHCPServer) (db0 : DHCPDatabase.t) (m : string) (l : Lease) : Prop :=
  (exists mac : list byte, length mac = 6%nat /\ m = mac_str mac) /\
  last_seen l = lease_start l /\
  lease_end l = lease_start l + DHCPDatabase.seconds (lease_time s) /\
  placement s db0 m (ip_address l).

Definition rows_ok (s : DHCPServer) (db0 db : DHCPDatabase.t) : Prop :=
  static_reservations db = static_reservations db0 /\
  forall m l, leases db !! m = Some l -> lease_row_ok s db0 m l.

Lemma rows_ok_cleanup s db0 db now :
  rows_ok s db0 db -> rows_ok s db0 (cleanup_expired_leases db now).
Proof.
  intros [Hst Hrows]. split; [done|].
  intros m l Hm. apply lookup_cleanup in Hm as [Hm _]. by apply Hrows.
Qed.

Lemma get_available_ip_rows s db0 db mac clk :
  rows_ok s db0 db ->
  rows_ok s db0 (_get_available_ip s db mac clk).2 /\
  forall ip, (_get_available_ip s db mac clk).1 = Some ip -> placement s db0 mac ip.
Proof.
  intros Hok. pose proof Hok as [Hst Hrows].
  destruct (get_available_ip_cases s db mac clk)
    as [(r & Hr & ->) | [(Hr & l & Hl & ->) | (Hr & Hl & ->)]]; cbn.
  - split; [done|]. intros ip [= <-]. unfold placement, get_static_reservation in *.
    by rewrite <- Hst, Hr.
  - split; [done|]. intros ip [= <-]. apply get_lease_Some in Hl as [Hl _].
    by destruct (Hrows _ _ Hl) as (_ & _ & _ & Hp).
  - split; [by apply rows_ok_cleanup|]. intros ip Ha.
    apply first_available_Some in Ha as (a & -> & Hin & Hex & _).
    unfold placement, get_static_reservation in *. rewrite <- Hst, Hr. by exists a.
Qed.

Lemma handle_client_rows inet_aton decode s db0 db data clk :
  rows_ok s db0 db -> rows_ok s db0 (handle_client inet_aton decode s db data clk).1.
Proof.
  intros Hok. unfold handle_client.
  destruct (parse_dhcp_packet decode data) as [[[mt mac] xid] hn] eqn:Hp.
  repeat case_decide; [| |done..].
  - destruct (handle_discover_shape inet_aton s db mac xid hn clk) as (out & -> & _). cbn.
    by apply get_available_ip_rows.
  - assert (length mac = 6%nat) as Hmac.
    { destruct (parse_message_type_sizes decode data mt mac xid hn Hp) as [Hm _]; [|done].
      by subst mt. }
    rewrite handle_request_eq.
    destruct (get_available_ip_rows s db0 db (mac_str mac) clk Hok) as [Hok' Hplace].
    destruct (_get_available_ip s db (mac_str mac) clk) as [[ip|] db']; cbn in *; [|done].
    specialize (Hplace ip eq_refl). destruct Hok' as [Hst Hrows].
    destruct ip as [|c ip]; [done|]. cbn. split; [done|].
    intros m l Hm. unfold add_lease in Hm. cbn in Hm.
    destruct (decide (m = mac_str mac)) as [->|Hne].
    + rewrite lookup_insert_eq in Hm. injection Hm as <-.
      split; [by exists mac|]. by repeat split.
    + rewrite lookup_insert_ne in Hm by done. by apply Hrows.
Qed.

Lemma run_rows inet_aton decode s db0 evs : forall db,
  rows_ok s db0 db -> rows_ok s db0 (run inet_aton decode s db evs).
Proof.
  induction evs as [|[data clk] evs IH]; intros db Hok; [done|].
  cbn. apply IH. by apply handle_client_rows.
Qed.

(** X5. The lease table the server builds. Starting from an empty lease
    table, after any sequence of datagrams every row of the table, expired
    or not, is keyed by the colon-separated hex form of a 6-byte MAC, has
    [last_seen = lease_start] and [lease_end = lease_start + lease_time],
    and holds the reserved address of its MAC when the MAC has a
    reservation, and otherwise the string of a host of the network that is
    not excluded. The reservations are never changed. *)
Theorem lease_table_rows (inet_aton : string -> result (list byte))
    (decode : list byte -> string) (s : DHCPServer) (db : DHCPDatabase.t)
    (evs : list (list byte * Clock)) :
  leases db = ∅ ->
  static_reservations (run inet_aton decode s db evs) = static_reservations db /\
  forall m l, leases (run inet_aton decode s db evs) !! m = Some l -> lease_row_ok s db m l.
Proof.
  intros Hempty.
  assert (rows_ok s db db) as Hok.
  { split; [done|]. intros m l Hm. by rewrite Hempty in Hm. }
  exact (run_rows inet_aton decode s db evs db Hok).
Qed.

Lemma lease_table_rows_witness :
  static_reservations
    (run inet_aton_decimal decode_ascii example_server office_db
       [(request_from [xaa; xbb; xcc; xdd; xee; x01], clock_at 0);
        (request_from [xaa; xbb; xcc; xdd; xee; xff], clock_at 1)]) =
    static_reservations office_db /\
  forall m l,
    leases (run inet_aton_decimal decode_ascii example_server office_db
              [(request_from [xaa; xbb; xcc; xdd; xee; x01], clock_at 0);
               (request_from [xaa; xbb; xcc; xdd; xee; xff], clock_at 1)]) !! m = Some l ->
    lease_row_ok example_server office_db m l.
Proof.
  apply (lease_table_rows inet_aton_decimal decode_ascii example_server office_db
           [(request_from [xaa; xbb; xcc; xdd; xee; x01], clock_at 0);
            (request_from [xaa; xbb; xcc; xdd; xee; xff], clock_at 1)]).
  reflexivity.
Defined.

Lemma get_available_ip_frame s db mac clk :
  static_reservations (_get_available_ip s db mac clk).2 = static_reservations db /\
  forall m l,
    (leases (_get_available_ip s db mac clk).2 !! m = Some l -> leases db !! m = Some l) /\
    (leases db !! m = Some l -> lease_end l > now_cleanup clk ->
     leases (_get_available_ip s db mac clk).2 !! m = Some l).
Proof.
  destruct (get_available_ip_cases s db mac clk)
    as [(r & Hr & ->) | [(Hr & l & Hl & ->) | (Hr & Hl & ->)]]; cbn [snd]; [done..|].
  split; [done|]. intros m l. rewrite lookup_cleanup. intuition.
Qed.

(** X6. A REQUEST touches no other client's lease. Handling a REQUEST
    leaves the reservations as they are, and for every MAC other than the
    requesting one: a row found afterwards was there, unchanged, before, and
    a row that had not ended at the reading of the sweep is still there. *)
Theorem handle_request_frame (inet_aton : string -> result (list byte)) (s : DHCPServer)
    (db : DHCPDatabase.t) (client_mac transaction_id : list byte) (host : option string)
    (clk : Clock) (m : string) (l : Lease) :
  m ≠ mac_str client_mac ->
  static_reservations (handle_request inet_aton s db client_mac transaction_id host clk).1 =
    static_reservations db /\
  (leases (handle_request inet_aton s db client_mac transaction_id host clk).1 !! m = Some l ->
   leases db !! m = Some l) /\
  (leases db !! m = Some l -> lease_end l > now_cleanup clk ->
   leases (handle_request inet_aton s db client_mac transaction_id host clk).1 !! m = Some l).
Proof.
  intros Hne. rewrite handle_request_eq.
  destruct (get_available_ip_frame s db (mac_str client_mac) clk) as [Hst Hfr].
  specialize (Hfr m l).
  destruct (_get_available_ip s db (mac_str client_mac) clk) as [[[|c ip]|] db']; cbn in *;
    [done| |done].
  by rewrite lookup_insert_ne.
Qed.

Lemma handle_request_frame_witness :
  static_reservations
    (handle_request inet_aton_decimal example_server stale_db example_mac example_xid None
       (clock_at 5)).1 = static_reservations stale_db /\
  (leases (handle_request inet_aton_decimal example_server stale_db example_mac example_xid None
             (clock_at 5)).1 !! "11:22:33:44:55:66"%string =
     Some {| ip_address := "192.168.1.2"; hostname := None; lease_start := 0;
             lease_end := 3600000000; last_seen := 0 |} ->
   leases stale_db !! "11:22:33:44:55:66"%string =
     Some {| ip_address := "192.168.1.2"; hostname := None; lease_start := 0;
             lease_end := 3600000000; last_seen := 0 |}) /\
  (leases stale_db !! "11:22:33:44:55:66"%string =
     Some {| ip_address := "192.168.1.2"; hostname := None; lease_start := 0;
             lease_end := 3600000000; last_seen := 0 |} ->
   lease_end {| ip_address := "192.168.1.2"; hostname := None; lease_start := 0;
                lease_end := 3600000000; last_seen := 0 |} > now_cleanup (clock_at 5) ->
   leases (handle_request inet_aton_decimal example_server stale_db example_mac example_xid None
             (clock_at 5)).1 !! "11:22:33:44:55:66"%string =
     Some {| ip_address := "192.168.1.2"; hostname := None; lease_start := 0;
             lease_end := 3600000000; last_seen := 0 |}).
Proof.
  apply (handle_request_frame inet_aton_decimal example_server stale_db example_mac example_xid
           None (clock_at 5) "11:22:33:44:55:66").
  vm_compute. discriminate.
Defined.

(** X7. An exhausted pool. When the MAC has no reservation and no unexpired
    lease, and every host of the network is excluded or held by a lease
    that is active in the swept store, DISCOVER and REQUEST alike send
    nothing and write nothing: the store they leave is the swept store. *)
Theorem pool_exhausted (inet_aton : string -> result (list byte)) (s : DHCPServer)
    (db : DHCPDatabase.t) (client_mac transaction_id : list byte) (host : option string)
    (clk : Clock) :
  get_static_reservation db (mac_str client_mac) = None ->
  get_lease db (mac_str client_mac) (now_get_lease clk) = None ->
  (forall ip, ip ∈ hosts (network s) ->
     ip_str ip ∈ excluded_ips s \/
     leased (cleanup_expired_leases db (now_cleanup clk)) (now_get_all clk) (ip_str ip)) ->
  handle_discover inet_aton s db client_mac transaction_id host clk =
    (cleanup_expired_leases db (now_cleanup clk), []) /\
  handle_request inet_aton s db client_mac transaction_id host clk =
    (cleanup_expired_leases db (now_cleanup clk), []).
Proof.
  intros Hr Hl Hfull.
  assert (_get_available_ip s db (mac_str client_mac) clk =
          (None, cleanup_expired_leases db (now_cleanup clk))) as Ha.
  { unfold _get_available_ip. rewrite Hr, Hl. f_equal.
    unfold first_available.
    destruct (list_find _ _) as [[i ip]|] eqn:Hfind; [|done].
    apply list_find_Some in Hfind as (Hi & [Hex Hact] & _).
    destruct (Hfull ip) as [Hx|Hx]; [by eapply list_elem_of_lookup_2|done|].
    by apply elem_of_active_ips in Hx. }
  by rewrite handle_discover_eq, handle_request_eq, Ha.
Qed.

(** The store of scenario 4 after the first two clients were served. *)
Definition full_db : DHCPDatabase.t :=
  add_lease (add_lease DHCPDatabase.empty "aa:bb:cc:dd:ee:01" "192.168.1.1" 3600 None 0)
    "aa:bb:cc:dd:ee:02" "192.168.1.2" 3600 None 1.

Lemma full_db_no_host_free ip :
  ip ∈ hosts (network small_server) ->
  ip_str ip ∈ excluded_ips small_server \/
  leased (cleanup_expired_leases full_db (now_cleanup (clock_at 2)))
    (now_get_all (clock_at 2)) (ip_str ip).
Proof.
  intros Hin. right. apply elem_of_active_ips.
  change (hosts (network small_server)) with [3232235777; 3232235778] in Hin.
  apply elem_of_cons in Hin as [->|Hin]; [by vm_compute|].
  apply list_elem_of_singleton in Hin as ->. by vm_compute.
Qed.

Lemma pool_exhausted_witness :
  handle_discover inet_aton_decimal small_server full_db
    [xaa; xbb; xcc; xdd; xee; x03] example_xid None (clock_at 2) =
    (cleanup_expired_leases full_db (now_cleanup (clock_at 2)), []) /\
  handle_request inet_aton_decimal small_server full_db
    [xaa; xbb; xcc; xdd; xee; x03] example_xid None (clock_at 2) =
    (cleanup_expired_leases full_db (now_cleanup (clock_at 2)), []).
Proof.
  apply (pool_exhausted inet_aton_decimal small_server full_db
           [xaa; xbb; xcc; xdd; xee; x03] example_xid None (clock_at 2)).
  - vm_compute. reflexivity.
  - vm_compute. reflexivity.
  - exact full_db_no_host_free.
Defined.

Lemma active_ips_ext db1 db2 t1 t2 :
  (forall m l, leases db1 !! m = Some l /\ lease_end l > t1 <->
               leases db2 !! m = Some l /\ lease_end l > t2) ->
  active_ips db1 t1 = active_ips db2 t2.
Proof.
  intros Hext. apply set_eq. intros ip. rewrite !elem_of_active_ips. unfold leased.
  split; intros (m & l & Hm & He & Hip); exists m, l.
  - destruct (proj1 (Hext m l)) as [? ?]; done.
  - destruct (proj2 (Hext m l)) as [? ?]; done.
Qed.

(** X8. Two REQUESTs whose allocations both run before either lease is
    written. [handle_request] allocates first and writes afterwards; let the
    allocation for MAC A, the allocation for MAC B, the write for A and the
    write for B happen in this order. If neither MAC has a reservation or
    an unexpired lease, and no lease that A's allocation saw as active has
    ended when B's allocation looks, then B is given the very address A was
    given, both rows are written with it, and while both leases run the
    table holds the address twice. *)
Theorem interleaved_requests_share_ip (s : DHCPServer) (db : DHCPDatabase.t)
    (macA macB ip : string) (hostA hostB : option string) (clkA clkB : Clock) :
  macA ≠ macB ->
  get_static_reservation db macA = None ->
  get_lease db macA (now_get_lease clkA) = None ->
  get_static_reservation db macB = None ->
  get_lease db macB (now_get_lease clkB) = None ->
  now_get_all clkA <= now_cleanup clkB <= now_get_all clkB ->
  (forall m l, leases db !! m = Some l -> lease_end l > now_get_all clkA ->
     lease_end l > now_get_all clkB) ->
  (_get_available_ip s db macA clkA).1 = Some ip ->
  exists db1 db2,
    _get_available_ip s db macA clkA = (Some ip, db1) /\
    _get_available_ip s db1 macB clkB = (Some ip, db2) /\
    forall t, t < now_add_lease clkA + DHCPDatabase.seconds (lease_time s) ->
      t < now_add_lease clkB + DHCPDatabase.seconds (lease_time s) ->
      ¬ unique_active
          (add_lease (add_lease db2 macA ip (lease_time s) hostA (now_add_lease clkA))
             macB ip (lease_time s) hostB (now_add_lease clkB)) t.
Proof.
  intros Hne HrA HlA HrB HlB Hclk Hkeep Hip.
  set (db1 := cleanup_expired_leases db (now_cleanup clkA)).
  set (db2 := cleanup_expired_leases db1 (now_cleanup clkB)).
  assert (_get_available_ip s db macA clkA =
          (first_available s (active_ips db1 (now_get_all clkA)), db1)) as HA.
  { unfold _get_available_ip. by rewrite HrA, HlA. }
  rewrite HA in Hip. cbn in Hip.
  assert (get_lease db1 macB (now_get_lease clkB) = None) as HlB'.
  { apply eq_None_not_Some. intros [l Hl]. apply get_lease_Some in Hl as [Hl He].
    apply lookup_cleanup in Hl as [Hl _].
    assert (get_lease db macB (now_get_lease clkB) = Some l) as Hs
      by (by apply get_lease_Some).
    by rewrite HlB in Hs. }
  assert (active_ips db2 (now_get_all clkB) = active_ips db1 (now_get_all clkA)) as Hact.
  { apply active_ips_ext. intros m l. unfold db2. rewrite lookup_cleanup. unfold db1.
    rewrite lookup_cleanup. split.
    - intros [[[Hm ?] ?] ?]. split; [done|]. lia.
    - intros [[Hm ?] ?]. specialize (Hkeep m l Hm). split; [|lia]. split; [done|]. lia. }
  exists db1, db2. split; [by rewrite HA, Hip|]. split.
  { unfold _get_available_ip.
    change (get_static_reservation db1 macB) with (get_static_reservation db macB).
    rewrite HrB, HlB'. fold db2. by rewrite Hact, Hip. }
  intros t HtA HtB Hu.
  apply (Hu macA macB
           {| ip_address := ip; hostname := hostA; lease_start := now_add_lease clkA;
              lease_end := now_add_lease clkA + DHCPDatabase.seconds (lease_time s);
              last_seen := now_add_lease clkA |}
           {| ip_address := ip; hostname := hostB; lease_start := now_add_lease clkB;
              lease_end := now_add_lease clkB + DHCPDatabase.seconds (lease_time s);
              last_seen := now_add_lease clkB |}); cbn; try done; try lia.
  - rewrite lookup_insert_ne by done. apply lookup_insert_eq.
  - apply lookup_insert_eq.
Qed.

Lemma interleaved_requests_share_ip_witness :
  exists db1 db2,
    _get_available_ip example_server DHCPDatabase.empty "aa:bb:cc:dd:ee:01" (clock_at 0) =
      (Some "192.168.1.2"%string, db1) /\
    _get_available_ip example_server db1 "aa:bb:cc:dd:ee:02" (clock_at 1) =
      (Some "192.168.1.2"%string, db2) /\
    forall t, t < now_add_lease (clock_at 0) + DHCPDatabase.seconds (lease_time example_server) ->
      t < now_add_lease (clock_at 1) + DHCPDatabase.seconds (lease_time example_server) ->
      ¬ unique_active
          (add_lease (add_lease db2 "aa:bb:cc:dd:ee:01" "192.168.1.2"
                        (lease_time example_server) None (now_add_lease (clock_at 0)))
             "aa:bb:cc:dd:ee:02" "192.168.1.2" (lease_time example_server) None
             (now_add_lease (clock_at 1))) t.
Proof.
  apply (interleaved_requests_share_ip example_server DHCPDatabase.empty
           "aa:bb:cc:dd:ee:01" "aa:bb:cc:dd:ee:02" "192.168.1.2" None None
           (clock_at 0) (clock_at 1)).
  - discriminate.
  - reflexivity.
  - reflexivity.
  - reflexivity.
  - reflexivity.
  - cbn. lia.
  - intros m l Hm. vm_compute in Hm. discriminate.
  - vm_compute. reflexivity.
Defined.

(** * Further properties of the serializer *)

Lemma byte_of_int_Ok n b : byte_of_int n = Ok b -> 0 <= n < 256 /\ byte_val b = n.
Proof.
  unfold byte_of_int. case_decide as Hn; [|done].
  destruct (byte_of_int_val n Hn) as (b' & Hb' & Hv). unfold byte_of_int in Hb'.
  rewrite decide_True in Hb' by done. rewrite Hb'. by intros [= <-].
Qed.

Lemma byte_of_int_Raise n e : byte_of_int n = Raise e -> ¬ (0 <= n < 256).
Proof. intros He Hn. destruct (byte_of_int_val n Hn) as (b & Hb & _). congruence. Qed.

(** A configured option that fits the wire format: a code and a length that
    are bytes. *)
Definition option_encodable (cv : Z * list byte) : Prop :=
  0 <= cv.1 < 256 /\ (length cv.2 < 256)%nat.

(** The options as [extend_options] writes them. *)
Definition configured_tlv (cv : Z * list byte) (o : tlv) : Prop :=
  byte_val o.1.1 = cv.1 /\ Z.to_nat (byte_val o.1.2) = length cv.2 /\ o.2 = cv.2.

Lemma extend_options_Ok items : forall acc r,
  extend_options acc items = Ok r ->
  Forall option_encodable items /\
  exists tl, Forall2 configured_tlv items tl /\ r = acc ++ encode_options tl.
Proof.
  induction items as [|[c v] items IH]; intros acc r; cbn.
  - intros [= <-]. split; [done|]. exists []. split; [done|]. by rewrite app_nil_r.
  - destruct (byte_of_int c) as [cb|] eqn:Hc; [|done]. cbn.
    destruct (byte_of_int (Z.of_nat (length v))) as [nb|] eqn:Hn; [|done]. cbn.
    intros Hr. destruct (IH _ _ Hr) as (Hall & tl & Htl & ->).
    apply byte_of_int_Ok in Hc as [Hc Hcv], Hn as [Hn Hnv]. split.
    + constructor; [|done]. split; cbn; lia.
    + exists ((cb, nb, v) :: tl). split.
      * constructor; [|done]. repeat split; cbn; [done|lia].
      * change (encode_options ((cb, nb, v) :: tl)) with ((cb :: nb :: v) ++ encode_options tl).
        by rewrite <- !(assoc_L (++)).
Qed.

Lemma extend_options_Raise items : forall acc e,
  extend_options acc items = Raise e -> ¬ Forall option_encodable items.
Proof.
  induction items as [|[c v] items IH]; intros acc e; cbn; [done|].
  intros He Hall. apply Forall_cons in Hall as [[Hc Hv] Hall]. cbn in Hc, Hv.
  destruct (byte_of_int_val c Hc) as (cb & Hcb & _). rewrite Hcb in He. cbn in He.
  destruct (byte_of_int_val (Z.of_nat (length v))) as (nb & Hnb & _); [lia|].
  rewrite Hnb in He. cbn in He. by eapply IH.
Qed.

Lemma create_dhcp_packet_nonempty_iff inet_aton s mt mac xid ip :
  create_dhcp_packet inet_aton s mt mac xid ip ≠ [] <->
  exists p, create_dhcp_packet_try inet_aton s mt mac xid ip = Ok p.
Proof.
  unfold create_dhcp_packet.
  destruct (create_dhcp_packet_try inet_aton s mt mac xid ip) as [p|e] eqn:Hp.
  - split; [by exists p|]. intros _. by eapply create_dhcp_packet_try_nonempty.
  - split; [done|]. by intros [p [=]].
Qed.

(** X9. When no reply can be built. [create_dhcp_packet] returns the empty
    buffer exactly when [inet_aton] rejects [your_ip] or the server's own
    address, or the message type is not a byte, or a configured option has
    a code that is not a byte or a value of 256 bytes or more. The client
    MAC and the transaction id never make it fail, whatever their
    lengths. *)
Theorem create_dhcp_packet_empty (inet_aton : string -> result (list byte)) (s : DHCPServer)
    (message_type : Z) (client_mac transaction_id : list byte) (your_ip : string) :
  create_dhcp_packet inet_aton s message_type client_mac transaction_id your_ip = [] <->
  ¬ ((exists b, inet_aton your_ip = Ok b) /\ (exists b, inet_aton (server_ip s) = Ok b) /\
     0 <= message_type < 256 /\ Forall option_encodable (dhcp_options s)).
Proof.
  split.
  - intros Hnil ((yb & Hy) & (sb & Hs) & Hmt & Hopts).
    destruct (byte_of_int_val message_type Hmt) as (mtb & Hmtb & _).
    assert (create_dhcp_packet inet_aton s message_type client_mac transaction_id your_ip ≠ [])
      as Hne; [|done].
    apply create_dhcp_packet_nonempty_iff. unfold create_dhcp_packet_try.
    rewrite Hy, Hs, Hmtb. cbn.
    destruct (extend_options _ (dhcp_options s)) as [r|e] eqn:He; cbn; [by eexists|].
    by apply extend_options_Raise in He.
  - intros Hnot.
    destruct (decide (create_dhcp_packet inet_aton s message_type client_mac transaction_id
                        your_ip = [])) as [|Hne]; [done|].
    exfalso. apply Hnot. apply create_dhcp_packet_nonempty_iff in Hne as [p Hp].
    revert Hp. unfold create_dhcp_packet_try.
    destruct (inet_aton your_ip) as [yb|]; [|done]. cbn.
    destruct (inet_aton (server_ip s)) as [sb|]; [|done]. cbn.
    destruct (byte_of_int message_type) as [mtb|] eqn:Hmt; [|done]. cbn.
    destruct (extend_options _ (dhcp_options s)) as [r|] eqn:He; [|done]. cbn.
    intros _. apply byte_of_int_Ok in Hmt as [Hmt _].
    apply extend_options_Ok in He as [Hall _].
    split; [by eexists|]. split; [by eexists|]. done.
Qed.

(** X10. The lease is written before the reply is built. When the
    allocator returns a non-empty address that [inet_aton] rejects (a
    reservation may hold any text), a REQUEST still writes the lease for
    that address and sends no ACK, and a DISCOVER sends no OFFER. *)
Theorem unanswered_request_writes_lease (inet_aton : string -> result (list byte))
    (s : DHCPServer) (db db' : DHCPDatabase.t) (client_mac transaction_id : list byte)
    (host : option string) (clk : Clock) (ip : string) (e : exn) :
  _get_available_ip s db (mac_str client_mac) clk = (Some ip, db') ->
  ip ≠ EmptyString ->
  inet_aton ip = Raise e ->
  handle_request inet_aton s db client_mac transaction_id host clk =
    (add_lease db' (mac_str client_mac) ip (lease_time s) host (now_add_lease clk), []) /\
  handle_discover inet_aton s db client_mac transaction_id host clk = (db', []).
Proof.
  intros Ha Hip He. rewrite handle_request_eq, handle_discover_eq, Ha.
  assert (forall mt, create_dhcp_packet inet_aton s mt client_mac transaction_id ip = []) as Hnil.
  { intros mt. unfold create_dhcp_packet, create_dhcp_packet_try. by rewrite He. }
  rewrite !Hnil. by destruct ip.
Qed.

(** A store with a reservation that is not an address. *)
Definition typo_db : DHCPDatabase.t :=
  add_static_reservation DHCPDatabase.empty "aa:bb:cc:dd:ee:01" "192.168.1.300" None None.

Lemma unanswered_request_writes_lease_witness :
  handle_request inet_aton_decimal example_server typo_db example_mac example_xid None
    (clock_at 0) =
    (add_lease typo_db (mac_str example_mac) "192.168.1.300" (lease_time example_server) None
       (now_add_lease (clock_at 0)), []) /\
  handle_discover inet_aton_decimal example_server typo_db example_mac example_xid None
    (clock_at 0) = (typo_db, []).
Proof.
  apply (unanswered_request_writes_lease inet_aton_decimal example_server typo_db typo_db
           example_mac example_xid None (clock_at 0) "192.168.1.300" OSError).
  - vm_compute. reflexivity.
  - discriminate.
  - reflexivity.
Defined.

(** * The server reads its own replies *)

Section RoundTrip.

Variable inet_aton : string -> result (list byte).
Variable decode : list byte -> string.
Variable s : DHCPServer.

(** [inet_aton] returns four bytes when it returns. *)
Hypothesis inet_aton_length : forall a b, inet_aton a = Ok b -> length b = 4%nat.

Lemma create_dhcp_packet_try_shape mt mac xid ip p :
  length xid = 4%nat -> length mac = 6%nat ->
  create_dhcp_packet_try inet_aton s mt mac xid ip = Ok p ->
  exists yb sb mtb tl,
    inet_aton ip = Ok yb /\ inet_aton (server_ip s) = Ok sb /\ byte_val mtb = mt /\
    Forall2 configured_tlv (dhcp_options s) tl /\
    p = ([x02; x01; x06; x00] ++ xid ++ replicate 8 x00 ++ yb ++ sb ++ replicate 4 x00 ++
         mac ++ replicate 202 x00 ++ magic_cookie) ++
        encode_options ((x35, x01, [mtb]) :: (x36, x04, sb) :: tl) ++ [xff].
Proof.
  intros Hxid Hmac. unfold create_dhcp_packet_try.
  destruct (inet_aton ip) as [yb|] eqn:Hy; [|done]. cbn.
  destruct (inet_aton (server_ip s)) as [sb|] eqn:Hs; [|done]. cbn.
  destruct (byte_of_int mt) as [mtb|] eqn:Hmt; [|done]. cbn.
  destruct (extend_options _ (dhcp_options s)) as [r|] eqn:He; [|done]. cbn.
  apply byte_of_int_Ok in Hmt as [_ Hmt].
  apply extend_options_Ok in He as (_ & tl & Htl & ->).
  destruct (length_4_inv _ Hxid) as (x0 & x1 & x2 & x3 & ->).
  destruct (length_6_inv _ Hmac) as (m0 & m1 & m2 & m3 & m4 & m5 & ->).
  destruct (length_4_inv _ (inet_aton_length _ _ Hy)) as (y0 & y1 & y2 & y3 & ->).
  destruct (length_4_inv _ (inet_aton_length _ _ Hs)) as (s0 & s1 & s2 & s3 & ->).
  intros [= <-]. exists [y0; y1; y2; y3], [s0; s1; s2; s3], mtb, tl.
  repeat split; try done.
Qed.

Lemma foldl_field_update_other (tl : list tlv) st :
  Forall (fun o => byte_val o.1.1 ≠ 53 /\ byte_val o.1.1 ≠ 12) tl ->
  foldl (field_update decode) st tl = st.
Proof.
  revert st. induction tl as [|o tl IH]; intros st Hall; [done|].
  apply Forall_cons in Hall as [[H53 H12] Hall]. cbn. rewrite IH by done.
  unfold field_update. by rewrite !decide_False.
Qed.

Lemma parse_header_options header opts :
  length header = 240%nat -> Forall tlv_ok opts ->
  parse_dhcp_packet decode (header ++ encode_options opts ++ [xff]) =
    ((foldl (field_update decode) (0, None) opts).1, slice 28 34 header, slice 4 8 header,
     (foldl (field_update decode) (0, None) opts).2).
Proof.
  intros Hlen Hok. unfold parse_dhcp_packet, parse_dhcp_packet_try.
  rewrite !slice_app_l by lia.
  replace 240%nat with (length header) at 1. rewrite drop_app_length.
  pose proof (option_loop_encode decode opts [] [] (0, None) Hok) as Hl.
  cbn in Hl. by rewrite Hl.
Qed.

(** The configured option codes leave the message type, the hostname and the
    end of the options to the server. *)
Definition codes_reserved (s : DHCPServer) : Prop :=
  Forall (fun cv : Z * list byte => cv.1 ≠ 53 /\ cv.1 ≠ 12 /\ cv.1 ≠ 255) (dhcp_options s).

Lemma configured_tlv_ok (items : list (Z * list byte)) (tl : list tlv) :
  Forall2 configured_tlv items tl ->
  Forall (fun cv : Z * list byte => cv.1 ≠ 53 /\ cv.1 ≠ 12 /\ cv.1 ≠ 255) items ->
  Forall tlv_ok tl /\
  Forall (fun o : tlv => byte_val o.1.1 ≠ 53 /\ byte_val o.1.1 ≠ 12) tl.
Proof.
  induction 1 as [|cv o items tl Hcv _ IH]; intros Hcodes; [done|].
  destruct Hcv as (Hc & Hn & Hv).
  apply Forall_cons in Hcodes as [(H53 & H12 & H255) Hcodes].
  destruct (IH Hcodes) as [? ?]. split; constructor; try done.
  - repeat split; [congruence|congruence|]. intros ?. congruence.
  - split; congruence.
Qed.

Lemma parse_reply mt mac xid ip p :
  codes_reserved s -> length xid = 4%nat -> length mac = 6%nat ->
  create_dhcp_packet_try inet_aton s mt mac xid ip = Ok p ->
  parse_dhcp_packet decode p = (mt, mac, xid, None) /\
  exists yb sb, inet_aton ip = Ok yb /\ inet_aton (server_ip s) = Ok sb /\
    slice 0 4 p = [x02; x01; x06; x00] /\ slice 16 20 p = yb /\ slice 20 24 p = sb /\
    slice 236 240 p = magic_cookie.
Proof.
  intros Hcodes Hxid Hmac Hp.
  destruct (create_dhcp_packet_try_shape _ _ _ _ _ Hxid Hmac Hp)
    as (yb & sb & mtb & tl & Hy & Hs & Hmt & Htl & ->).
  pose proof (inet_aton_length _ _ Hy) as Hyl. pose proof (inet_aton_length _ _ Hs) as Hsl.
  destruct (length_4_inv _ Hxid) as (x0 & x1 & x2 & x3 & ->).
  destruct (length_6_inv _ Hmac) as (m0 & m1 & m2 & m3 & m4 & m5 & ->).
  destruct (length_4_inv _ Hyl) as (y0 & y1 & y2 & y3 & ->).
  destruct (length_4_inv _ Hsl) as (s0 & s1 & s2 & s3 & ->).
  destruct (configured_tlv_ok _ _ Htl Hcodes) as [Hok Hother].
  split.
  - rewrite parse_header_options; [|done|].
    + cbn [foldl]. rewrite foldl_field_update_other by done.
      unfold field_update. cbn. by rewrite Hmt.
    + constructor; [by vm_compute|]. constructor; [|done].
      repeat split; (by vm_compute) || done.
  - exists [y0; y1; y2; y3], [s0; s1; s2; s3]. by repeat split.
Qed.

Lemma parse_create_round_trip_helper mt mac xid ip :
  codes_reserved s -> length xid = 4%nat -> length mac = 6%nat ->
  create_dhcp_packet inet_aton s mt mac xid ip ≠ [] ->
  parse_dhcp_packet decode (create_dhcp_packet inet_aton s mt mac xid ip) =
    (mt, mac, xid, None) /\
  exists yb sb, inet_aton ip = Ok yb /\ inet_aton (server_ip s) = Ok sb /\
    slice 0 4 (create_dhcp_packet inet_aton s mt mac xid ip) = [x02; x01; x06; x00] /\
    slice 16 20 (create_dhcp_packet inet_aton s mt mac xid ip) = yb /\
    slice 20 24 (create_dhcp_packet inet_aton s mt mac xid ip) = sb /\
    slice 236 240 (create_dhcp_packet inet_aton s mt mac xid ip) = magic_cookie.
Proof.
  intros Hcodes Hxid Hmac Hne.
  apply create_dhcp_packet_nonempty_iff in Hne as [p Hp].
  unfold create_dhcp_packet. rewrite Hp. by eapply parse_reply.
Qed.

(** X11. The server reads back what it writes. Let the configured option
    codes differ from 53, 12 and 255. For a 4-byte transaction id and a
    6-byte MAC, every reply [create_dhcp_packet] builds is parsed by
    [parse_dhcp_packet] to the message type, the MAC and the transaction id
    it was built from, with no hostname; it starts with op 2, htype 1,
    hlen 6, hops 0, carries the bytes of [your_ip] at 16..20 and of the
    server address at 20..24 and the magic cookie at 236..240. *)
Theorem parse_create_round_trip (message_type : Z) (client_mac transaction_id : list byte)
    (your_ip : string) :
  codes_reserved s ->
  length transaction_id = 4%nat ->
  length client_mac = 6%nat ->
  create_dhcp_packet inet_aton s message_type client_mac transaction_id your_ip ≠ [] ->
  parse_dhcp_packet decode
    (create_dhcp_packet inet_aton s message_type client_mac transaction_id your_ip) =
    (message_type, client_mac, transaction_id, None) /\
  exists yb sb, inet_aton your_ip = Ok yb /\ inet_aton (server_ip s) = Ok sb /\
    slice 0 4 (create_dhcp_packet inet_aton s message_type client_mac transaction_id your_ip) =
      [x02; x01; x06; x00] /\
    slice 16 20 (create_dhcp_packet inet_aton s message_type client_mac transaction_id your_ip) =
      yb /\
    slice 20 24 (create_dhcp_packet inet_aton s message_type client_mac transaction_id your_ip) =
      sb /\
    slice 236 240 (create_dhcp_packet inet_aton s message_type client_mac transaction_id your_ip) =
      magic_cookie.
Proof.
  intros Hcodes Hxid Hmac Hne.
  apply create_dhcp_packet_nonempty_iff in Hne as [p Hp].
  unfold create_dhcp_packet. rewrite Hp.
  destruct (parse_reply _ _ _ _ _ Hcodes Hxid Hmac Hp) as (Hparse & yb & sb & Hrest).
  split; [done|]. by exists yb, sb.
Qed.

End RoundTrip.

Lemma parse_fields decode data mt mac xid hn :
  parse_dhcp_packet decode data = (mt, mac, xid, hn) -> mt ≠ 0 ->
  mac = slice 28 34 data /\ xid = slice 4 8 data /\
  length mac = 6%nat /\ length xid = 4%nat.
Proof.
  intros Hp Hmt.
  destruct (parse_message_type_sizes decode data mt mac xid hn Hp Hmt) as [Hm Hx].
  unfold parse_dhcp_packet, parse_dhcp_packet_try in Hp.
  destruct (option_loop decode (drop 240 data) 0 0 None) as [r|e]; cbn in Hp; [|by simplify_eq].
  by injection Hp as _ <- <- _.
Qed.

Lemma send_reply_payload p :
  send_reply p = [] \/
  (p ≠ [] /\ send_reply p = [{| payload := p; dest_host := "255.255.255.255"; dest_port := 68 |}]).
Proof. destruct p; [by left|by right]. Qed.

Lemma parse_create_round_trip_witness :
  parse_dhcp_packet decode_ascii
    (create_dhcp_packet inet_aton_decimal example_server DHCPOFFER example_mac example_xid
       "192.168.1.2") = (DHCPOFFER, example_mac, example_xid, None) /\
  exists yb sb, inet_aton_decimal "192.168.1.2" = Ok yb /\
    inet_aton_decimal (server_ip example_server) = Ok sb /\
    slice 0 4 (create_dhcp_packet inet_aton_decimal example_server DHCPOFFER example_mac
                 example_xid "192.168.1.2") = [x02; x01; x06; x00] /\
    slice 16 20 (create_dhcp_packet inet_aton_decimal example_server DHCPOFFER example_mac
                   example_xid "192.168.1.2") = yb /\
    slice 20 24 (create_dhcp_packet inet_aton_decimal example_server DHCPOFFER example_mac
                   example_xid "192.168.1.2") = sb /\
    slice 236 240 (create_dhcp_packet inet_aton_decimal example_server DHCPOFFER example_mac
                     example_xid "192.168.1.2") = magic_cookie.
Proof.
  apply (parse_create_round_trip inet_aton_decimal decode_ascii example_server
           inet_aton_decimal_length DHCPOFFER example_mac example_xid "192.168.1.2").
  - repeat constructor; discriminate.
  - reflexivity.
  - reflexivity.
  - vm_compute. discriminate.
Defined.

(** X12. A reply echoes the request. Let the configured option codes differ
    from 53, 12 and 255. Whatever datagram [handle_client] is given, it
    sends nothing or exactly one datagram, to 255.255.255.255:68; that
    datagram starts with op 2, htype 1, hlen 6, hops 0, and the server's own
    parser reads from it the transaction id at bytes 4..8 and the MAC at
    bytes 28..34 of the request, no hostname, and the message type OFFER
    when the request was a DISCOVER, ACK when it was a REQUEST. No other
    request is answered. *)
Theorem reply_echoes_request (inet_aton : string -> result (list byte))
    (decode : list byte -> string) (s : DHCPServer) (db : DHCPDatabase.t)
    (data : list byte) (clk : Clock) :
  (forall a b, inet_aton a = Ok b -> length b = 4%nat) ->
  codes_reserved s ->
  (handle_client inet_aton decode s db data clk).2 = [] \/
  exists p reply_type,
    (handle_client inet_aton decode s db data clk).2 =
      [{| payload := p; dest_host := "255.255.255.255"; dest_port := 68 |}] /\
    slice 0 4 p = [x02; x01; x06; x00] /\
    parse_dhcp_packet decode p = (reply_type, slice 28 34 data, slice 4 8 data, None) /\
    (((parse_dhcp_packet decode data).1.1.1 = DHCPDISCOVER /\ reply_type = DHCPOFFER) \/
     ((parse_dhcp_packet decode data).1.1.1 = DHCPREQUEST /\ reply_type = DHCPACK)).
Proof.
  intros Hlen Hcodes. unfold handle_client.
  destruct (parse_dhcp_packet decode data) as [[[mt mac] xid] hn] eqn:Hp. cbn [fst].
  repeat case_decide; [| |by left..].
  - destruct (parse_fields decode data mt mac xid hn Hp) as (-> & -> & Hm & Hx); [by subst|].
    rewrite handle_discover_eq.
    destruct (_get_available_ip s db _ clk) as [[[|c ip]|] db']; cbn [snd]; [by left| |by left].
    destruct (send_reply_payload (create_dhcp_packet inet_aton s DHCPOFFER (slice 28 34 data)
                                    (slice 4 8 data) (String c ip))) as [->|[Hne ->]]; [by left|].
    right. eexists _, DHCPOFFER. split; [done|].
    destruct (parse_create_round_trip_helper inet_aton decode s Hlen _ _ _ _ Hcodes Hx Hm Hne)
      as (Hparse & yb & sb & _ & _ & Hop & _).
    split; [done|]. split; [done|]. by left.
  - destruct (parse_fields decode data mt mac xid hn Hp) as (-> & -> & Hm & Hx); [by subst|].
    rewrite handle_request_eq.
    destruct (_get_available_ip s db _ clk) as [[[|c ip]|] db']; cbn [snd]; [by left| |by left].
    destruct (send_reply_payload (create_dhcp_packet inet_aton s DHCPACK (slice 28 34 data)
                                    (slice 4 8 data) (String c ip))) as [->|[Hne ->]]; [by left|].
    right. eexists _, DHCPACK. split; [done|].
    destruct (parse_create_round_trip_helper inet_aton decode s Hlen _ _ _ _ Hcodes Hx Hm Hne)
      as (Hparse & yb & sb & _ & _ & Hop & _).
    split; [done|]. split; [done|]. by right.
Qed.

Lemma reply_echoes_request_witness :
  (handle_client inet_aton_decimal decode_ascii example_server DHCPDatabase.empty
     (request_from example_mac) (clock_at 0)).2 = [] \/
  exists p reply_type,
    (handle_client inet_aton_decimal decode_ascii example_server DHCPDatabase.empty
       (request_from example_mac) (clock_at 0)).2 =
      [{| payload := p; dest_host := "255.255.255.255"; dest_port := 68 |}] /\
    slice 0 4 p = [x02; x01; x06; x00] /\
    parse_dhcp_packet decode_ascii p =
      (reply_type, slice 28 34 (request_from example_mac),
       slice 4 8 (request_from example_mac), None) /\
    (((parse_dhcp_packet decode_ascii (request_from example_mac)).1.1.1 = DHCPDISCOVER /\
      reply_type = DHCPOFFER) \/
     ((parse_dhcp_packet decode_ascii (request_from example_mac)).1.1.1 = DHCPREQUEST /\
      reply_type = DHCPACK)).
Proof.
  apply (reply_echoes_request inet_aton_decimal decode_ascii example_server DHCPDatabase.empty
           (request_from example_mac) (clock_at 0)).
  - exact inet_aton_decimal_length.
  - repeat constructor; discriminate.
Defined.

(** X13. Every ACK is backed by a lease. When a REQUEST with a 4-byte
    transaction id and a 6-byte MAC is answered, the store it leaves holds a
    row for the MAC, written at this request with the hostname of the
    request, and bytes 16..20 of the ACK are what [inet_aton] makes of the
    address in that row. *)
Theorem ack_matches_lease (inet_aton : string -> result (list byte)) (s : DHCPServer)
    (db : DHCPDatabase.t) (client_mac transaction_id : list byte) (host : option string)
    (clk : Clock) (d : Datagram) :
  (forall a b, inet_aton a = Ok b -> length b = 4%nat) ->
  length transaction_id = 4%nat ->
  length client_mac = 6%nat ->
  (handle_request inet_aton s db client_mac transaction_id host clk).2 = [d] ->
  exists l yb,
    leases (handle_request inet_aton s db client_mac transaction_id host clk).1
      !! mac_str client_mac = Some l /\
    lease_start l = now_add_lease clk /\ hostname l = host /\
    inet_aton (ip_address l) = Ok yb /\ slice 16 20 (payload d) = yb.
Proof.
  intros Hlen Hxid Hmac. rewrite handle_request_eq.
  destruct (_get_available_ip s db (mac_str client_mac) clk) as [[[|c ip]|] db']; cbn [fst snd];
    [done| |done].
  destruct (send_reply_payload (create_dhcp_packet inet_aton s DHCPACK client_mac
                                  transaction_id (String c ip))) as [->|[Hne ->]]; [done|].
  intros [= <-]. cbn [payload].
  apply create_dhcp_packet_nonempty_iff in Hne as [p Hp].
  unfold create_dhcp_packet. rewrite Hp.
  destruct (create_dhcp_packet_try_shape inet_aton s Hlen _ _ _ _ _ Hxid Hmac Hp)
    as (yb & sb & mtb & tl & Hy & Hs & _ & _ & ->).
  eexists _, yb. split; [apply lookup_insert_eq|]. cbn. repeat split; [done|].
  destruct (length_4_inv _ Hxid) as (x0 & x1 & x2 & x3 & ->).
  destruct (length_4_inv _ (Hlen _ _ Hy)) as (y0 & y1 & y2 & y3 & ->).
  reflexivity.
Qed.

Lemma ack_matches_lease_witness :
  exists l yb,
    leases (handle_request inet_aton_decimal example_server DHCPDatabase.empty example_mac
              example_xid (Some "laptop"%string) (clock_at 7)).1
      !! mac_str example_mac = Some l /\
    lease_start l = now_add_lease (clock_at 7) /\ hostname l = Some "laptop"%string /\
    inet_aton_decimal (ip_address l) = Ok yb /\
    slice 16 20
      (payload {| payload := create_dhcp_packet inet_aton_decimal example_server DHCPACK
                               example_mac example_xid "192.168.1.2";
                  dest_host := "255.255.255.255"; dest_port := 68 |}) = yb.
Proof.
  apply (ack_matches_lease inet_aton_decimal example_server DHCPDatabase.empty example_mac
           example_xid (Some "laptop"%string) (clock_at 7)
           {| payload := create_dhcp_packet inet_aton_decimal example_server DHCPACK
                           example_mac example_xid "192.168.1.2";
              dest_host := "255.255.255.255"; dest_port := 68 |}).
  - exact inet_aton_decimal_length.
  - reflexivity.
  - reflexivity.
  - vm_compute. reflexivity.
Defined.

(** * The key of a lease *)

Definition hex_val (c : ascii) : Z :=
  let n := Z.of_N (N_of_ascii c) in if decide (n < 58) then n - 48 else n - 87.

Definition unhex2 (s : string) : option byte :=
  match s with
  | String a (String b _) => Byte.of_N (Z.to_N (16 * hex_val a + hex_val b))
  | _ => None
  end.

Lemma unhex2_hex2 b rest : unhex2 (hex2 b +:+ rest) = Some b.
Proof. by destruct b. Qed.

Lemma mac_str_cons b l :
  mac_str (b :: l) = hex2 b +:+ match l with [] => EmptyString | _ => ":" +:+ mac_str l end.
Proof. by destruct l. Qed.

Lemma mac_str_inj l1 : forall l2, mac_str l1 = mac_str l2 -> l1 = l2.
Proof.
  induction l1 as [|a l1 IH]; intros [|b l2] Heq; [done|by destruct l2|by destruct l1|].
  rewrite !mac_str_cons in Heq.
  assert (a = b) as ->.
  { apply (f_equal unhex2) in Heq. rewrite !unhex2_hex2 in Heq. by injection Heq. }
  f_equal. apply IH. cbn in Heq. injection Heq as Heq.
  destruct l1 as [|a1 l1], l2 as [|b1 l2]; [done|done|done|].
  by injection Heq.
Qed.

Lemma string_length_app (s1 s2 : string) :
  String.length (s1 +:+ s2) = (String.length s1 + String.length s2)%nat.
Proof.
  induction s1 as [|a s1 IH]; [done|].
  change (String a s1 +:+ s2) with (String a (s1 +:+ s2)). cbn [String.length]. by rewrite IH.
Qed.

Lemma mac_str_length l : String.length (mac_str l) = (3 * length l - 1)%nat.
Proof.
  induction l as [|b l IH]; [done|]. rewrite mac_str_cons.
  destruct l as [|b' l]; [done|]. rewrite !string_length_app, IH. cbn. lia.
Qed.

(** X14. The key under which a client's lease is stored identifies the
    client: two byte strings have the same colon-separated hex form
    exactly when they are equal, so no two MACs share a row of the lease
    table; the form of an [n]-byte MAC has [3n - 1] characters, 17 for six
    bytes. *)
Theorem mac_str_identifies (mac1 mac2 : list byte) :
  (mac_str mac1 = mac_str mac2 <-> mac1 = mac2) /\
  String.length (mac_str mac1) = (3 * length mac1 - 1)%nat.
Proof.
  split; [|apply mac_str_length]. split; [apply mac_str_inj|by intros ->].
Qed.

(** * From OFFER to ACK *)

(** No lease of [db] runs out between the readings of the first handler and
    those of the second. *)
Definition no_expiry_between (db : DHCPDatabase.t) (clk1 clk2 : Clock) : Prop :=
  forall m l, leases db !! m = Some l ->
    (lease_end l > now_get_lease clk1 -> lease_end l > now_get_lease clk2) /\
    (lease_end l > now_get_all clk1 -> lease_end l > now_get_all clk2).

Lemma get_available_ip_twice s db mac clk1 clk2 :
  now_get_lease clk1 <= now_get_lease clk2 ->
  now_get_all clk1 <= now_get_all clk2 ->
  now_cleanup clk2 <= now_get_all clk2 ->
  no_expiry_between db clk1 clk2 ->
  (_get_available_ip s (_get_available_ip s db mac clk1).2 mac clk2).1 =
  (_get_available_ip s db mac clk1).1.
Proof.
  intros Hg Ha Hs Hkeep.
  destruct (get_available_ip_cases s db mac clk1)
    as [(r & Hr & ->) | [(Hr & l & Hl & ->) | (Hr & Hl & ->)]]; cbn [fst snd].
  - by rewrite (static_precedence_helper s db mac r clk2 Hr).
  - unfold _get_available_ip. rewrite Hr.
    apply get_lease_Some in Hl as [Hl He].
    assert (get_lease db mac (now_get_lease clk2) = Some l) as ->; [|done].
    apply get_lease_Some. split; [done|]. by apply (Hkeep mac l Hl).
  - set (db1 := cleanup_expired_leases db (now_cleanup clk1)).
    unfold _get_available_ip.
    change (get_static_reservation db1 mac) with (get_static_reservation db mac). rewrite Hr.
    assert (get_lease db1 mac (now_get_lease clk2) = None) as ->.
    { apply eq_None_not_Some. intros [l Hl']. apply get_lease_Some in Hl' as [Hl' He].
      apply lookup_cleanup in Hl' as [Hl' _].
      assert (get_lease db mac (now_get_lease clk1) = Some l) as Hs'
        by (apply get_lease_Some; split; [done|lia]).
      by rewrite Hl in Hs'. }
    cbn [fst]. f_equal. apply active_ips_ext. intros m l. unfold db1.
    rewrite !lookup_cleanup. split.
    + intros [[[Hm ?] ?] ?]. split; [done|]. lia.
    + intros [[Hm ?] ?]. destruct (Hkeep m l Hm) as [_ Hk]. specialize (Hk ltac:(done)).
      split; [|done]. split; [done|]. lia.
Qed.

Lemma create_dhcp_packet_message_type inet_aton s mt mt' mac xid ip :
  0 <= mt' < 256 ->
  create_dhcp_packet inet_aton s mt mac xid ip ≠ [] ->
  create_dhcp_packet inet_aton s mt' mac xid ip ≠ [].
Proof.
  intros Hmt' Hne. apply create_dhcp_packet_nonempty_iff in Hne as [p Hp].
  apply create_dhcp_packet_nonempty_iff. revert Hp. unfold create_dhcp_packet_try.
  destruct (inet_aton ip); [|done]. cbn.
  destruct (inet_aton (server_ip s)); [|done]. cbn.
  destruct (byte_of_int mt) as [mtb|] eqn:Hmt; [|done]. cbn.
  destruct (byte_of_int_val mt' Hmt') as (mtb' & -> & _). cbn.
  apply byte_of_int_Ok in Hmt as [_ Hmt].
  destruct (extend_options _ (dhcp_options s)) as [r|] eqn:He; [|done].
  apply extend_options_Ok in He as [Hall _]. intros _.
  destruct (extend_options _ (dhcp_options s)) as [r'|e'] eqn:He'.
  - cbn. by eexists.
  - by apply extend_options_Raise in He'.
Qed.

(** X15. The ACK confirms the OFFER. Let a DISCOVER be answered with an
    OFFER and let the REQUEST of the same MAC be handled next, its readings
    not before those of the DISCOVER, with no lease running out in
    between. Then the REQUEST is answered with an ACK for the address that
    was offered, and the lease written for the MAC holds that address. *)
Theorem offer_then_ack_same_ip (inet_aton : string -> result (list byte)) (s : DHCPServer)
    (db : DHCPDatabase.t) (client_mac xid1 xid2 : list byte) (host1 host2 : option string)
    (clk1 clk2 : Clock) :
  (handle_discover inet_aton s db client_mac xid1 host1 clk1).2 ≠ [] ->
  now_get_lease clk1 <= now_get_lease clk2 ->
  now_get_all clk1 <= now_get_all clk2 ->
  now_cleanup clk2 <= now_get_all clk2 ->
  no_expiry_between db clk1 clk2 ->
  exists ip,
    (handle_discover inet_aton s db client_mac xid1 host1 clk1).2 =
      [{| payload := create_dhcp_packet inet_aton s DHCPOFFER client_mac xid1 ip;
          dest_host := "255.255.255.255"; dest_port := 68 |}] /\
    (handle_request inet_aton s
       (handle_discover inet_aton s db client_mac xid1 host1 clk1).1
       client_mac xid2 host2 clk2).2 =
      [{| payload := create_dhcp_packet inet_aton s DHCPACK client_mac xid2 ip;
          dest_host := "255.255.255.255"; dest_port := 68 |}] /\
    create_dhcp_packet inet_aton s DHCPOFFER client_mac xid1 ip ≠ [] /\
    create_dhcp_packet inet_aton s DHCPACK client_mac xid2 ip ≠ [] /\
    ip_address <$>
      leases (handle_request inet_aton s
                (handle_discover inet_aton s db client_mac xid1 host1 clk1).1
                client_mac xid2 host2 clk2).1 !! mac_str client_mac = Some ip.
Proof.
  intros Hout Hg Ha Hs Hkeep.
  pose proof (get_available_ip_twice s db (mac_str client_mac) clk1 clk2 Hg Ha Hs Hkeep) as Hsame.
  rewrite handle_discover_eq in Hout |- *.
  destruct (_get_available_ip s db (mac_str client_mac) clk1) as [[[|c ip]|] db1];
    cbn [fst snd] in *; [done| |done].
  apply send_reply_nonempty in Hout.
  assert (create_dhcp_packet inet_aton s DHCPACK client_mac xid2 (String c ip) ≠ []) as Hne2.
  { apply (create_dhcp_packet_xid inet_aton s _ _ xid1).
    by apply (create_dhcp_packet_message_type inet_aton s DHCPOFFER). }
  exists (String c ip). rewrite handle_request_eq.
  destruct (_get_available_ip s db1 (mac_str client_mac) clk2) as [r db2]. cbn in Hsame.
  subst r. cbn [fst snd].
  split; [by apply send_reply_Some|]. split; [by apply send_reply_Some|].
  split; [done|]. split; [done|]. cbn. by rewrite lookup_insert_eq.
Qed.

Lemma offer_then_ack_same_ip_witness :
  exists ip,
    (handle_discover inet_aton_decimal example_server stale_db example_mac example_xid None
       (clock_at 5)).2 =
      [{| payload := create_dhcp_packet inet_aton_decimal example_server DHCPOFFER example_mac
                       example_xid ip;
          dest_host := "255.255.255.255"; dest_port := 68 |}] /\
    (handle_request inet_aton_decimal example_server
       (handle_discover inet_aton_decimal example_server stale_db example_mac example_xid None
          (clock_at 5)).1
       example_mac example_xid None (clock_at 6)).2 =
      [{| payload := create_dhcp_packet inet_aton_decimal example_server DHCPACK example_mac
                       example_xid ip;
          dest_host := "255.255.255.255"; dest_port := 68 |}] /\
    create_dhcp_packet inet_aton_decimal example_server DHCPOFFER example_mac example_xid ip ≠ [] /\
    create_dhcp_packet inet_aton_decimal example_server DHCPACK example_mac example_xid ip ≠ [] /\
    ip_address <$>
      leases (handle_request inet_aton_decimal example_server
                (handle_discover inet_aton_decimal example_server stale_db example_mac
                   example_xid None (clock_at 5)).1
                example_mac example_xid None (clock_at 6)).1 !! mac_str example_mac = Some ip.
Proof.
  apply (offer_then_ack_same_ip inet_aton_decimal example_server stale_db example_mac
           example_xid example_xid None None (clock_at 5) (clock_at 6)).
  - vm_compute. discriminate.
  - unfold clock_at. cbn. lia.
  - unfold clock_at. cbn. lia.
  - unfold clock_at. cbn. lia.
  - intros m l Hm. unfold stale_db, add_lease in Hm. cbn in Hm.
    apply lookup_insert_Some in Hm as [[_ <-]|[_ Hm]]; [|done].
    split; intros _; by vm_compute.
Defined.

(** * [dhcp_client.py] *)

(** [socket.inet_ntoa]: four bytes as a dotted quad, [OSError] otherwise. *)
Definition inet_ntoa (packed : list byte) : result string :=
  match packed with
  | [_; _; _; _] => Ok (String.concat "." ((fun b => dec_octet (byte_val b)) <$> packed))
  | _ => Raise OSError
  end.

(** [struct.unpack('!I', b)[0]] *)
Definition unpack_I (b : list byte) : result Z :=
  match b with
  | [b3; b2; b1; b0] =>
    Ok (((byte_val b3 * 256 + byte_val b2) * 256 + byte_val b1) * 256 + byte_val b0)
  | _ => Raise StructError
  end.

Module DHCPClient.

(** The fields of a [DHCPClient]; [__init__] draws six random bytes for
    [client_mac] and a random 32-bit number for [transaction_id]. *)
Record t := {
  client_mac : list byte;
  transaction_id : Z;
  server_ip : option string;
  offered_ip : option string;
  lease_time : option Z;
  subnet_mask : option string;
  router : option string }.

Definition set_lease_time (c : t) (v : Z) : t :=
  {| client_mac := client_mac c; transaction_id := transaction_id c;
     server_ip := server_ip c; offered_ip := offered_ip c;
     lease_time := Some v; subnet_mask := subnet_mask c; router := router c |}.

Definition set_subnet_mask (c : t) (v : string) : t :=
  {| client_mac := client_mac c; transaction_id := transaction_id c;
     server_ip := server_ip c; offered_ip := offered_ip c;
     lease_time := lease_time c; subnet_mask := Some v; router := router c |}.

Definition set_router (c : t) (v : string) : t :=
  {| client_mac := client_mac c; transaction_id := transaction_id c;
     server_ip := server_ip c; offered_ip := offered_ip c;
     lease_time := lease_time c; subnet_mask := subnet_mask c; router := Some v |}.

(** [if x:] for an optional string: [None] and the empty string are false. *)
Definition truthy (x : option string) : option string :=
  match x with
  | Some (String _ _ as v) => Some v
  | _ => None
  end.

(** [__init__], with the six bytes and the number that [random.randint]
    returned. *)
Definition __init__ (mac : list byte) (xid : Z) : t :=
  {| client_mac := mac; transaction_id := xid; server_ip := None; offered_ip := None;
     lease_time := None; subnet_mask := None; router := None |}.

(** [client.offered_ip = offered_ip; client.server_ip = server_ip] *)
Definition set_offer (c : t) (offered server : string) : t :=
  {| client_mac := client_mac c; transaction_id := transaction_id c;
     server_ip := Some server; offered_ip := Some offered;
     lease_time := lease_time c; subnet_mask := subnet_mask c; router := router c |}.

Section Client.

Variable inet_aton : string -> result (list byte).

(** [create_packet]; it has no [try], its exceptions reach the caller. *)
Definition create_packet (c : t) (message_type : Z) (requested_ip : option string)
    : result (list byte) :=
  let packet := replicate 240 x00 in
  let packet := <[0%nat := x01]> packet in
  let packet := <[1%nat := x01]> packet in
  let packet := <[2%nat := x06]> packet in
  let packet := <[3%nat := x00]> packet in
  xid ← pack_I (transaction_id c);
  let packet := splice 4 8 xid packet in
  let packet := splice 28 34 (client_mac c) packet in
  cookie ← pack_I 0x63825363;
  let packet := splice 236 240 cookie packet in
  mt ← byte_of_int message_type;
  let options := [x35; x01; mt] in
  let options := options ++ [x3d; x07; x01] in
  let options := options ++ client_mac c in
  options ← match truthy requested_ip with
            | Some requested_ip =>
              requested ← inet_aton requested_ip;
              let options := options ++ [x32; x04] ++ requested in
              match truthy (server_ip c) with
              | Some server =>
                server ← inet_aton server;
                Ok (options ++ [x36; x04] ++ server)
              | None => Ok options
              end
            | None => Ok options
            end;
  let options := options ++ [x37; x04; x01; x03; x06; x2a] in
  let options := options ++ [xff] in
  Ok (packet ++ options).

(** One pass through the loop of [parse_response], entered with
    [i < len(options)]: the client as the pass leaves it, the message type,
    and where the loop goes on ([None] after [break]). The assignments to
    [self] made before an exception stay. *)
Definition response_body (options : list byte) (i : nat) (c : t) (message_type : Z)
    : t * Z * result (option nat) :=
  match index options i with
  | Raise e => (c, message_type, Raise e)
  | Ok tag =>
    if decide (tag = 255) then (c, message_type, Ok None)
    else
      let st : result (t * Z) :=
        if decide (tag = 53) then v ← index options (i + 2); Ok (c, v)
        else if decide (tag = 51) then
          v ← unpack_I (slice (i + 2) (i + 6) options); Ok (set_lease_time c v, message_type)
        else if decide (tag = 1) then
          v ← inet_ntoa (slice (i + 2) (i + 6) options); Ok (set_subnet_mask c v, message_type)
        else if decide (tag = 3) then
          v ← inet_ntoa (slice (i + 2) (i + 6) options); Ok (set_router c v, message_type)
        else Ok (c, message_type) in
      match st with
      | Raise e => (c, message_type, Raise e)
      | Ok (c, message_type) =>
        match index options (i + 1) with
        | Raise e => (c, message_type, Raise e)
        | Ok n => (c, message_type, Ok (Some (i + Z.to_nat n + 2)%nat))
        end
      end
  end.

Lemma response_body_Next options i c mt c' mt' i' :
  response_body options i c mt = (c', mt', Ok (Some i')) -> (i + 2 <= i')%nat.
Proof.
  unfold response_body. destruct (index options i) as [tag|]; [|done].
  case_decide; [done|].
  destruct (if decide (tag = 53) then _ else _) as [[c1 mt1]|]; [|done].
  destruct (index options (i + 1)); [|done]. intros [= _ _ <-]. lia.
Qed.

(** [while i < len(options): ...] of [parse_response]. *)
Equations? response_loop (options : list byte) (i : nat) (c : t) (message_type : Z)
    : t * result Z by wf (length options - i)%nat lt :=
response_loop options i c mt with decide (i < length options)%nat => {
  | right _ := (c, Ok mt)
  | left _ with inspect (response_body options i c mt) => {
      | exist _ (c', _, Raise e) _ := (c', Raise e)
      | exist _ (c', mt', Ok None) _ := (c', Ok mt')
      | exist _ (c', mt', Ok (Some i')) Hb := response_loop options i' c' mt' } }.
Proof. apply response_body_Next in Hb. lia. Qed.

(** [parse_response]: the client with the fields the options set, and the
    tuple returned; [(0, None, None)] when the body raised. *)
Definition parse_response (c : t) (data : list byte)
    : t * (Z * option string * option string) :=
  match index data 0 with
  | Raise _ => (c, (0, None, None))
  | Ok op =>
    let addrs : result (option string * option string) :=
      if decide (op = 2) then
        offered ← inet_ntoa (slice 16 20 data);
        server ← inet_ntoa (slice 20 24 data);
        Ok (Some offered, Some server)
      else Ok (None, None) in
    match addrs with
    | Raise _ => (c, (0, None, None))
    | Ok (offered, server) =>
      match response_loop (drop 240 data) 0 c 0 with
      | (c, Ok message_type) => (c, (message_type, offered, server))
      | (c, Raise _) => (c, (0, None, None))
      end
    end
  end.

(** [release_ip]: the datagrams sent; building the packet is outside the
    [try]. *)
Definition release_ip (c : t) : result (list Datagram) :=
  match truthy (offered_ip c), truthy (server_ip c) with
  | Some offered, Some server =>
    release_packet ← create_packet c DHCPRELEASE (Some offered);
    Ok [{| payload := release_packet; dest_host := server; dest_port := 67 |}]
  | _, _ => Ok []
  end.

(** [main], for the client [c] that [DHCPClient()] made. [received] holds
    what the calls of [recvfrom] return, in order; when it has run out the
    call times out. The result is the client at the end and the datagrams
    sent. An exception ends the run: [socket.timeout] in the inner handler,
    any other in the outer one. *)
Definition main (c : t) (received : list (list byte)) : t * list Datagram :=
  match create_packet c DHCPDISCOVER None with
  | Raise _ => (c, [])
  | Ok discover_packet =>
    let sent := [{| payload := discover_packet; dest_host := "255.255.255.255";
                    dest_port := 67 |}] in
    match received with
    | [] => (c, sent)
    | data :: received =>
      let '(c, (message_type, offered_ip, server_ip)) := parse_response c data in
      if decide (message_type = DHCPOFFER) then
        match truthy offered_ip, truthy server_ip with
        | Some offered_ip, Some server_ip =>
          let c := set_offer c offered_ip server_ip in
          match create_packet c DHCPREQUEST (Some offered_ip) with
          | Raise _ => (c, sent)
          | Ok request_packet =>
            let sent := sent ++ [{| payload := request_packet;
                                    dest_host := "255.255.255.255"; dest_port := 67 |}] in
            match received with
            | [] => (c, sent)
            | data :: _ =>
              let '(c, (message_type, _, _)) := parse_response c data in
              if decide (message_type = DHCPACK) then
                match release_ip c with
                | Ok released => (c, sent ++ released)
                | Raise _ => (c, sent)
                end
              else (c, sent)
            end
          end
        | _, _ => (c, sent)
        end
      else (c, sent)
    end
  end.

End Client.

End DHCPClient.

(** * The client and the server read each other *)

(** [Forall P] on a list written out, element by element. *)
Ltac forall_list tac :=
  repeat first [apply Forall_nil_2 | apply Forall_cons_2; [tac|]].

Lemma pack_I_Ok n b :
  pack_I n = Ok b -> 0 <= n < 2 ^ 32 /\ length b = 4%nat /\ unpack_I b = Ok n.
Proof.
  unfold pack_I. case_decide as Hn; [|done].
  destruct (byte_of_int (n / 2 ^ 24 mod 256)) as [b3|] eqn:H3; [|done]. cbn.
  destruct (byte_of_int (n / 2 ^ 16 mod 256)) as [b2|] eqn:H2; [|done]. cbn.
  destruct (byte_of_int (n / 2 ^ 8 mod 256)) as [b1|] eqn:H1; [|done]. cbn.
  destruct (byte_of_int (n mod 256)) as [b0|] eqn:H0; [|done]. cbn.
  intros [= <-]. split; [done|]. split; [done|].
  apply byte_of_int_Ok in H3 as [_ H3], H2 as [_ H2], H1 as [_ H1], H0 as [_ H0].
  unfold unpack_I. rewrite H3, H2, H1, H0. f_equal.
  change (2 ^ 24) with (256 * 256 * 256). change (2 ^ 16) with (256 * 256).
  change (2 ^ 8) with 256. change (2 ^ 32) with (256 * 256 * 256 * 256) in Hn.
  rewrite <- !Z.div_div by lia.
  set (q1 := n / 256). set (q2 := q1 / 256). set (q3 := q2 / 256).
  pose proof (Z.div_mod n 256 ltac:(lia)) as E0.
  pose proof (Z.div_mod q1 256 ltac:(lia)) as E1.
  pose proof (Z.div_mod q2 256 ltac:(lia)) as E2.
  fold q1 in E0. fold q2 in E1. fold q3 in E2.
  assert (0 <= q3 < 256) as Hq3.
  { unfold q3, q2, q1. split; [repeat apply Z.div_pos; lia|].
    repeat (apply Z.div_lt_upper_bound; [lia|]). lia. }
  rewrite (Z.mod_small q3) by done. lia.
Qed.

Lemma pack_I_val n :
  0 <= n < 2 ^ 32 -> exists b, pack_I n = Ok b.
Proof.
  intros Hn. unfold pack_I. rewrite decide_True by done.
  destruct (byte_of_int_val (n / 2 ^ 24 mod 256)) as (b3 & -> & _); [by apply Z.mod_pos_bound|].
  destruct (byte_of_int_val (n / 2 ^ 16 mod 256)) as (b2 & -> & _); [by apply Z.mod_pos_bound|].
  destruct (byte_of_int_val (n / 2 ^ 8 mod 256)) as (b1 & -> & _); [by apply Z.mod_pos_bound|].
  destruct (byte_of_int_val (n mod 256)) as (b0 & -> & _); [by apply Z.mod_pos_bound|].
  by eexists.
Qed.

Section ClientServer.

Variable inet_aton : string -> result (list byte).
Variable decode : list byte -> string.
Hypothesis inet_aton_length : forall a b, inet_aton a = Ok b -> length b = 4%nat.

Lemma create_packet_shape c mt rip p :
  length (DHCPClient.client_mac c) = 6%nat ->
  DHCPClient.create_packet inet_aton c mt rip = Ok p ->
  exists xid mtb opts,
    pack_I (DHCPClient.transaction_id c) = Ok xid /\ byte_val mtb = mt /\
    Forall tlv_ok opts /\
    Forall (fun o : tlv => byte_val o.1.1 ≠ 53 /\ byte_val o.1.1 ≠ 12) opts /\
    p = ([x01; x01; x06; x00] ++ xid ++ replicate 20 x00 ++ DHCPClient.client_mac c ++
         replicate 202 x00 ++ magic_cookie) ++
        encode_options ((x35, x01, [mtb]) :: opts) ++ [xff].
Proof.
  intros Hmac. unfold DHCPClient.create_packet.
  destruct (pack_I (DHCPClient.transaction_id c)) as [xid|] eqn:Hxid; [|done]. cbn.
  destruct (byte_of_int mt) as [mtb|] eqn:Hmt; [|done]. cbn.
  apply byte_of_int_Ok in Hmt as [_ Hmt]. apply pack_I_Ok in Hxid as (_ & Hxl & _).
  destruct (length_4_inv _ Hxl) as (x0 & x1 & x2 & x3 & Hx).
  destruct (length_6_inv _ Hmac) as (m0 & m1 & m2 & m3 & m4 & m5 & Hm).
  assert (tlv_ok (x3d, x07, x01 :: DHCPClient.client_mac c) /\
          tlv_ok (x37, x04, [x01; x03; x06; x2a])) as [Hid Hprl].
  { rewrite Hm. split; repeat split; (by vm_compute) || done. }
  assert (forall v : list byte, length v = 4%nat -> tlv_ok (x32, x04, v) /\ tlv_ok (x36, x04, v))
    as Hv4.
  { intros v Hv. split; repeat split; cbn; try (by vm_compute); by rewrite Hv. }
  destruct (DHCPClient.truthy rip) as [rq|]; cbn.
  - destruct (inet_aton rq) as [rb|] eqn:Hrb; [|done]. cbn.
    destruct (Hv4 rb (inet_aton_length _ _ Hrb)) as [Hrq _].
    destruct (length_4_inv _ (inet_aton_length _ _ Hrb)) as (r0 & r1 & r2 & r3 & Hrbe).
    destruct (DHCPClient.truthy (DHCPClient.server_ip c)) as [sv|]; cbn.
    + destruct (inet_aton sv) as [sb|] eqn:Hsb; [|done]. cbn.
      destruct (Hv4 sb (inet_aton_length _ _ Hsb)) as [_ Hsv].
      destruct (length_4_inv _ (inet_aton_length _ _ Hsb)) as (s0 & s1 & s2 & s3 & Hsbe).
      intros [= <-].
      exists xid, mtb, [(x3d, x07, x01 :: DHCPClient.client_mac c); (x32, x04, rb);
                        (x36, x04, sb); (x37, x04, [x01; x03; x06; x2a])].
      split; [done|]. split; [done|]. split; [forall_list ltac:(done)|].
      split; [forall_list ltac:(by vm_compute)|].
      by rewrite Hx, Hm, Hrbe, Hsbe.
    + intros [= <-].
      exists xid, mtb, [(x3d, x07, x01 :: DHCPClient.client_mac c); (x32, x04, rb);
                        (x37, x04, [x01; x03; x06; x2a])].
      split; [done|]. split; [done|]. split; [forall_list ltac:(done)|].
      split; [forall_list ltac:(by vm_compute)|].
      by rewrite Hx, Hm, Hrbe.
  - intros [= <-].
    exists xid, mtb, [(x3d, x07, x01 :: DHCPClient.client_mac c);
                      (x37, x04, [x01; x03; x06; x2a])].
    split; [done|]. split; [done|]. split; [forall_list ltac:(done)|].
    split; [forall_list ltac:(by vm_compute)|].
    by rewrite Hx, Hm.
Qed.

Lemma server_reads_client_packet_helper c mt rip p :
  length (DHCPClient.client_mac c) = 6%nat ->
  DHCPClient.create_packet inet_aton c mt rip = Ok p ->
  exists xid,
    pack_I (DHCPClient.transaction_id c) = Ok xid /\
    unpack_I xid = Ok (DHCPClient.transaction_id c) /\
    parse_dhcp_packet decode p = (mt, DHCPClient.client_mac c, xid, None) /\
    slice 0 4 p = [x01; x01; x06; x00] /\ slice 236 240 p = magic_cookie.
Proof.
  intros Hmac Hp.
  destruct (create_packet_shape c mt rip p Hmac Hp)
    as (xid & mtb & opts & Hxid & Hmt & Hok & Hother & ->).
  exists xid. split; [done|].
  destruct (pack_I_Ok _ _ Hxid) as (_ & Hxl & Hun). split; [done|].
  destruct (length_4_inv _ Hxl) as (x0 & x1 & x2 & x3 & ->).
  destruct (length_6_inv _ Hmac) as (m0 & m1 & m2 & m3 & m4 & m5 & Hm).
  rewrite Hm in *. split; [|done].
  rewrite (parse_header_options decode); [|done|].
  - cbn [foldl]. rewrite (foldl_field_update_other decode) by done.
    unfold field_update. cbn. by rewrite Hmt.
  - constructor; [by vm_compute|done].
Qed.

(** X16. The server reads the client's packets. When [create_packet] of
    [dhcp_client.py] succeeds for a client with a 6-byte MAC, the server's
    parser reads from the packet the message type the client asked for, the
    client's MAC, and the four bytes that [struct.pack] made of the
    client's transaction id (which unpack to it again); no hostname. The
    packet starts with op 1, htype 1, hlen 6, hops 0 and has the magic
    cookie at 236..240. *)
Theorem server_reads_client_packet (c : DHCPClient.t) (message_type : Z)
    (requested_ip : option string) (p : list byte) :
  length (DHCPClient.client_mac c) = 6%nat ->
  DHCPClient.create_packet inet_aton c message_type requested_ip = Ok p ->
  exists xid,
    pack_I (DHCPClient.transaction_id c) = Ok xid /\
    unpack_I xid = Ok (DHCPClient.transaction_id c) /\
    parse_dhcp_packet decode p = (message_type, DHCPClient.client_mac c, xid, None) /\
    slice 0 4 p = [x01; x01; x06; x00] /\ slice 236 240 p = magic_cookie.
Proof. apply server_reads_client_packet_helper. Qed.

End ClientServer.

(** ** The client reads the server's replies *)

Lemma response_loop_eq options i c mt :
  DHCPClient.response_loop options i c mt =
  if decide (i < length options)%nat then
    match DHCPClient.response_body options i c mt with
    | (c', _, Raise e) => (c', Raise e)
    | (c', mt', Ok None) => (c', Ok mt')
    | (c', mt', Ok (Some i')) => DHCPClient.response_loop options i' c' mt'
    end
  else (c, Ok mt).
Proof.
  funelim (DHCPClient.response_loop options i c mt); rewrite <- ?Heqcall, Heq; [done|..].
  all: match goal with E : DHCPClient.response_body _ _ _ _ = _ |- _ => by rewrite E end.
Qed.

(** What one well-formed option does to the client and the message type:
    the fields are read from the first four value bytes. *)
Definition client_update (st : DHCPClient.t * Z) (o : tlv) : DHCPClient.t * Z :=
  if decide (byte_val o.1.1 = 53) then
    (st.1, match o.2 with b :: _ => byte_val b | [] => st.2 end)
  else if decide (byte_val o.1.1 = 51) then
    match unpack_I (take 4 o.2) with
    | Ok v => (DHCPClient.set_lease_time st.1 v, st.2)
    | Raise _ => st
    end
  else if decide (byte_val o.1.1 = 1) then
    match inet_ntoa (take 4 o.2) with
    | Ok v => (DHCPClient.set_subnet_mask st.1 v, st.2)
    | Raise _ => st
    end
  else if decide (byte_val o.1.1 = 3) then
    match inet_ntoa (take 4 o.2) with
    | Ok v => (DHCPClient.set_router st.1 v, st.2)
    | Raise _ => st
    end
  else st.

(** An option the client can read: well formed, and with four value bytes
    or more when the client takes a field from it. *)
Definition tlv_client_ok (o : tlv) : Prop :=
  tlv_ok o /\
  (byte_val o.1.1 = 51 \/ byte_val o.1.1 = 1 \/ byte_val o.1.1 = 3 -> (4 <= length o.2)%nat).

Lemma unpack_I_take4 (v : list byte) :
  (4 <= length v)%nat -> exists n, unpack_I (take 4 v) = Ok n.
Proof. destruct v as [|a [|b [|c [|d v]]]]; cbn; try lia. by eexists. Qed.

Lemma inet_ntoa_take4 (v : list byte) :
  (4 <= length v)%nat -> exists a, inet_ntoa (take 4 v) = Ok a.
Proof. destruct v as [|a [|b [|c [|d v]]]]; cbn; try lia. by eexists. Qed.

Lemma response_loop_tlv pre o post st :
  tlv_client_ok o ->
  DHCPClient.response_loop (pre ++ encode_tlv o ++ post) (length pre) st.1 st.2 =
  DHCPClient.response_loop (pre ++ encode_tlv o ++ post) (length (pre ++ encode_tlv o))
    (client_update st o).1 (client_update st o).2.
Proof.
  destruct o as [[tag n] v], st as [c mt]. intros [(H255 & Hn & Hv) H4].
  unfold encode_tlv. cbn in *.
  set (options := pre ++ tag :: n :: v ++ post).
  assert (options !! length pre = Some tag) as Hi by (by apply list_lookup_middle).
  assert (options !! (length pre + 1)%nat = Some n) as Hi1.
  { unfold options. rewrite lookup_app_r by lia.
    by replace (length pre + 1 - length pre)%nat with 1%nat by lia. }
  assert (length (pre ++ tag :: n :: v) = (length pre + Z.to_nat (byte_val n) + 2)%nat) as ->.
  { rewrite length_app. cbn. lia. }
  assert ((4 <= length v)%nat ->
          slice (length pre + 2) (length pre + 6) options = take 4 v) as Hslice.
  { intros Hlen. unfold options, slice.
    change (tag :: n :: v ++ post) with ([tag; n] ++ v ++ post).
    rewrite (assoc_L _ pre [tag; n]).
    replace (length pre + 2)%nat with (length (pre ++ [tag; n]))
      by (rewrite length_app; cbn; lia).
    rewrite drop_app_length.
    replace (length pre + 6 - length (pre ++ [tag; n]))%nat with 4%nat
      by (rewrite length_app; cbn; lia).
    by rewrite take_app_le. }
  rewrite response_loop_eq, decide_True by (by eapply lookup_lt_Some).
  unfold DHCPClient.response_body, client_update.
  rewrite (index_Some _ _ _ Hi), (index_Some _ _ _ Hi1). cbn.
  rewrite decide_False by done.
  destruct (decide (byte_val tag = 53)) as [H53|H53]; cbn.
  { destruct v as [|b v]; [by destruct Hv|].
    assert (options !! (length pre + 2)%nat = Some b) as Hi2.
    { unfold options. rewrite lookup_app_r by lia.
      by replace (length pre + 2 - length pre)%nat with 2%nat by lia. }
    by rewrite (index_Some _ _ _ Hi2). }
  destruct (decide (byte_val tag = 51)) as [H51|H51]; cbn.
  { rewrite Hslice by auto. by destruct (unpack_I_take4 v) as [x ->]; auto. }
  destruct (decide (byte_val tag = 1)) as [H1|H1]; cbn.
  { rewrite Hslice by auto. by destruct (inet_ntoa_take4 v) as [x ->]; auto. }
  destruct (decide (byte_val tag = 3)) as [H3|H3]; cbn; [|done].
  rewrite Hslice by auto. by destruct (inet_ntoa_take4 v) as [x ->]; auto.
Qed.

Lemma response_loop_encode opts : forall pre post st,
  Forall tlv_client_ok opts ->
  DHCPClient.response_loop (pre ++ encode_options opts ++ xff :: post) (length pre) st.1 st.2 =
  ((foldl client_update st opts).1, Ok (foldl client_update st opts).2).
Proof.
  induction opts as [|o opts IH]; intros pre post st Hok.
  - cbn. rewrite response_loop_eq.
    assert ((pre ++ xff :: post) !! length pre = Some xff) as Hi
      by (by apply list_lookup_middle).
    rewrite decide_True by (by eapply lookup_lt_Some).
    unfold DHCPClient.response_body. by rewrite (index_Some _ _ _ Hi).
  - apply Forall_cons in Hok as [Ho Hok].
    change (encode_options (o :: opts)) with (encode_tlv o ++ encode_options opts).
    rewrite <- (assoc_L _ (encode_tlv o)).
    rewrite response_loop_tlv by done.
    rewrite (assoc_L _ pre). by apply IH.
Qed.

Lemma parse_response_header_options c header opts offered server :
  length header = 240%nat -> header !! 0%nat = Some x02 ->
  inet_ntoa (slice 16 20 header) = Ok offered ->
  inet_ntoa (slice 20 24 header) = Ok server ->
  Forall tlv_client_ok opts ->
  DHCPClient.parse_response c (header ++ encode_options opts ++ [xff]) =
    ((foldl client_update (c, 0) opts).1,
     ((foldl client_update (c, 0) opts).2, Some offered, Some server)).
Proof.
  intros Hlen Hop Ho Hs Hok. unfold DHCPClient.parse_response.
  assert ((header ++ encode_options opts ++ [xff]) !! 0%nat = Some x02) as Hop'.
  { rewrite lookup_app_l by lia. done. }
  rewrite (index_Some _ _ _ Hop'). rewrite decide_True by done.
  rewrite !slice_app_l by lia. rewrite Ho, Hs. cbn.
  replace 240%nat with (length header) at 1. rewrite drop_app_length.
  pose proof (response_loop_encode opts [] [] (c, 0) Hok) as Hl. cbn in Hl.
  by rewrite Hl.
Qed.

Lemma client_reads_server_reply_helper (inet_aton : string -> result (list byte))
    (s : DHCPServer) (c : DHCPClient.t) (message_type : Z)
    (client_mac transaction_id : list byte) (your_ip : string) (your_ip_bytes : list byte) :
  (forall a b, inet_aton a = Ok b -> length b = 4%nat) ->
  __init__ inet_aton = Ok s ->
  0 <= message_type < 256 ->
  length transaction_id = 4%nat ->
  length client_mac = 6%nat ->
  inet_aton your_ip = Ok your_ip_bytes ->
  exists offered server mask router,
    inet_ntoa your_ip_bytes = Ok offered /\
    (exists b, inet_aton (server_ip s) = Ok b /\ inet_ntoa b = Ok server) /\
    (exists b, inet_aton "255.255.255.0" = Ok b /\ inet_ntoa b = Ok mask) /\
    (exists b, inet_aton "192.168.1.1" = Ok b /\ inet_ntoa b = Ok router) /\
    lease_time s = 3600 /\
    length (create_dhcp_packet inet_aton s message_type client_mac transaction_id your_ip) =
      280%nat /\
    DHCPClient.parse_response c
      (create_dhcp_packet inet_aton s message_type client_mac transaction_id your_ip) =
      ({| DHCPClient.client_mac := DHCPClient.client_mac c;
          DHCPClient.transaction_id := DHCPClient.transaction_id c;
          DHCPClient.server_ip := DHCPClient.server_ip c;
          DHCPClient.offered_ip := DHCPClient.offered_ip c;
          DHCPClient.lease_time := Some (lease_time s);
          DHCPClient.subnet_mask := Some mask;
          DHCPClient.router := Some router |},
       (message_type, Some offered, Some server)).
Proof.
  intros Hlen Hinit Hmt Hxid Hmac Hip.
  unfold __init__ in Hinit.
  destruct (inet_aton "255.255.255.0") as [mask|] eqn:Hmask; [|done].
  destruct (inet_aton "192.168.1.1") as [router|] eqn:Hrouter; [|done].
  destruct (inet_aton "8.8.8.8") as [dns|] eqn:Hdns; [|done].
  cbn in Hinit. injection Hinit as <-.
  destruct (byte_of_int_val message_type Hmt) as (mt & Hmtb & Hmtv).
  destruct (length_4_inv _ Hxid) as (x0 & x1 & x2 & x3 & ->).
  destruct (length_6_inv _ Hmac) as (m0 & m1 & m2 & m3 & m4 & m5 & ->).
  destruct (length_4_inv _ (Hlen _ _ Hip)) as (y0 & y1 & y2 & y3 & ->).
  destruct (length_4_inv _ (Hlen _ _ Hmask)) as (k0 & k1 & k2 & k3 & ->).
  destruct (length_4_inv _ (Hlen _ _ Hrouter)) as (r0 & r1 & r2 & r3 & ->).
  destruct (length_4_inv _ (Hlen _ _ Hdns)) as (d0 & d1 & d2 & d3 & ->).
  eexists _, _, _, _. split; [reflexivity|].
  split; [eexists; split; [exact Hrouter|reflexivity]|].
  split; [eexists; split; [reflexivity|reflexivity]|].
  split; [eexists; split; [reflexivity|reflexivity]|].
  split; [reflexivity|].
  assert (create_dhcp_packet_try inet_aton
            {| server_ip := "192.168.1.1";
               network := {| network_address := 3232235776; prefixlen := 24 |};
               excluded_ips := {[ "192.168.1.0"; "192.168.1.1"; "192.168.1.255" ]};
               lease_time := 3600;
               dhcp_options := [(1, [k0; k1; k2; k3]); (3, [r0; r1; r2; r3]);
                                (6, [d0; d1; d2; d3]); (42, [d0; d1; d2; d3]);
                                (51, [x00; x00; x0e; x10])] |}
            message_type [m0; m1; m2; m3; m4; m5] [x0; x1; x2; x3] your_ip =
          Ok (([x02; x01; x06; x00] ++ [x0; x1; x2; x3] ++ replicate 8 x00 ++ [y0; y1; y2; y3] ++
               [r0; r1; r2; r3] ++ replicate 4 x00 ++ [m0; m1; m2; m3; m4; m5] ++
               replicate 202 x00 ++ magic_cookie) ++
              encode_options [(x35, x01, [mt]); (x36, x04, [r0; r1; r2; r3]);
                              (x01, x04, [k0; k1; k2; k3]); (x03, x04, [r0; r1; r2; r3]);
                              (x06, x04, [d0; d1; d2; d3]); (x2a, x04, [d0; d1; d2; d3]);
                              (x33, x04, [x00; x00; x0e; x10])] ++ [xff])) as Htry.
  { unfold create_dhcp_packet_try. cbn [server_ip dhcp_options lease_time].
    by rewrite Hip, Hrouter, Hmtb. }
  unfold create_dhcp_packet. rewrite Htry. split; [reflexivity|].
  erewrite parse_response_header_options; [|reflexivity..|].
  - rewrite <- Hmtv. reflexivity.
  - forall_list ltac:(split; [split; [by vm_compute|split; [by vm_compute|done]]
                               |intros H; cbn; first [lia | by destruct H as [|[|]]]]).
Qed.

(** X17. The client reads the server's replies. For the server that
    [__init__] configures, a message type in 0..255, a 4-byte transaction
    id, a 6-byte MAC and an address [inet_aton] accepts, [parse_response] of
    [dhcp_client.py] reads from the reply built by [create_dhcp_packet]:
    the message type; as offered address the dotted quad of the bytes at
    16..20; as server address the dotted quad of the server's address
    bytes; and it sets the client's lease time to the server's lease time
    (3600), its subnet mask and its router to the dotted quads of the
    configured option values, leaving the other fields of the client as
    they were. *)
Theorem client_reads_server_reply (inet_aton : string -> result (list byte))
    (s : DHCPServer) (c : DHCPClient.t) (message_type : Z)
    (client_mac transaction_id : list byte) (your_ip : string) (your_ip_bytes : list byte) :
  (forall a b, inet_aton a = Ok b -> length b = 4%nat) ->
  __init__ inet_aton = Ok s ->
  0 <= message_type < 256 ->
  length transaction_id = 4%nat ->
  length client_mac = 6%nat ->
  inet_aton your_ip = Ok your_ip_bytes ->
  exists offered server mask router,
    inet_ntoa your_ip_bytes = Ok offered /\
    (exists b, inet_aton (server_ip s) = Ok b /\ inet_ntoa b = Ok server) /\
    (exists b, inet_aton "255.255.255.0" = Ok b /\ inet_ntoa b = Ok mask) /\
    (exists b, inet_aton "192.168.1.1" = Ok b /\ inet_ntoa b = Ok router) /\
    lease_time s = 3600 /\
    DHCPClient.parse_response c
      (create_dhcp_packet inet_aton s message_type client_mac transaction_id your_ip) =
      ({| DHCPClient.client_mac := DHCPClient.client_mac c;
          DHCPClient.transaction_id := DHCPClient.transaction_id c;
          DHCPClient.server_ip := DHCPClient.server_ip c;
          DHCPClient.offered_ip := DHCPClient.offered_ip c;
          DHCPClient.lease_time := Some (lease_time s);
          DHCPClient.subnet_mask := Some mask;
          DHCPClient.router := Some router |},
       (message_type, Some offered, Some server)).
Proof.
  intros Hlen Hinit Hmt Hxid Hmac Hip.
  destruct (client_reads_server_reply_helper inet_aton s c message_type client_mac
              transaction_id your_ip your_ip_bytes Hlen Hinit Hmt Hxid Hmac Hip)
    as (offered & server & mask & router & Ho & Hs & Hm & Hr & Hl & _ & Hp).
  by exists offered, server, mask, router.
Qed.

Lemma client_reads_server_reply_witness :
  exists offered server mask router,
    inet_ntoa [xc0; xa8; x01; x02] = Ok offered /\
    (exists b, inet_aton_decimal (server_ip example_server) = Ok b /\ inet_ntoa b = Ok server) /\
    (exists b, inet_aton_decimal "255.255.255.0" = Ok b /\ inet_ntoa b = Ok mask) /\
    (exists b, inet_aton_decimal "192.168.1.1" = Ok b /\ inet_ntoa b = Ok router) /\
    lease_time example_server = 3600 /\
    DHCPClient.parse_response
      {| DHCPClient.client_mac := example_mac; DHCPClient.transaction_id := 305419896;
         DHCPClient.server_ip := None; DHCPClient.offered_ip := None;
         DHCPClient.lease_time := None; DHCPClient.subnet_mask := None;
         DHCPClient.router := None |}
      (create_dhcp_packet inet_aton_decimal example_server DHCPOFFER example_mac example_xid
         "192.168.1.2") =
      ({| DHCPClient.client_mac := example_mac; DHCPClient.transaction_id := 305419896;
          DHCPClient.server_ip := None; DHCPClient.offered_ip := None;
          DHCPClient.lease_time := Some (lease_time example_server);
          DHCPClient.subnet_mask := Some mask;
          DHCPClient.router := Some router |},
       (DHCPOFFER, Some offered, Some server)).
Proof.
  apply (client_reads_server_reply inet_aton_decimal example_server
           {| DHCPClient.client_mac := example_mac; DHCPClient.transaction_id := 305419896;
              DHCPClient.server_ip := None; DHCPClient.offered_ip := None;
              DHCPClient.lease_time := None; DHCPClient.subnet_mask := None;
              DHCPClient.router := None |}
           DHCPOFFER example_mac example_xid "192.168.1.2" [xc0; xa8; x01; x02]).
  - exact inet_aton_decimal_length.
  - reflexivity.
  - unfold DHCPOFFER. lia.
  - reflexivity.
  - reflexivity.
  - reflexivity.
Defined.

Definition example_client : DHCPClient.t :=
  {| DHCPClient.client_mac := example_mac; DHCPClient.transaction_id := 305419896;
     DHCPClient.server_ip := Some "192.168.1.1"%string;
     DHCPClient.offered_ip := Some "192.168.1.2"%string;
     DHCPClient.lease_time := None; DHCPClient.subnet_mask := None;
     DHCPClient.router := None |}.

Lemma server_reads_client_packet_witness :
  exists p,
    DHCPClient.create_packet inet_aton_decimal example_client DHCPREQUEST
      (Some "192.168.1.2"%string) = Ok p /\
    exists xid,
      pack_I (DHCPClient.transaction_id example_client) = Ok xid /\
      unpack_I xid = Ok (DHCPClient.transaction_id example_client) /\
      parse_dhcp_packet decode_ascii p =
        (DHCPREQUEST, DHCPClient.client_mac example_client, xid, None) /\
      slice 0 4 p = [x01; x01; x06; x00] /\ slice 236 240 p = magic_cookie.
Proof.
  eexists. split; [reflexivity|].
  apply (server_reads_client_packet inet_aton_decimal decode_ascii inet_aton_decimal_length
           example_client DHCPREQUEST (Some "192.168.1.2"%string)).
  - reflexivity.
  - reflexivity.
Defined.

(** X18. The release is sent and ignored. [release_ip] of a client with a
    6-byte MAC sends nothing when the client has no offered address or no
    server address, and otherwise one datagram, to the client's server on
    port 67. Whatever it sends, the server's parser reads as a RELEASE
    and [handle_client] answers with no datagram and leaves the leases and
    the reservations as they are: the lease of a client that released stays
    until it expires. *)
Theorem release_sent_and_ignored (inet_aton : string -> result (list byte))
    (decode : list byte -> string) (s : DHCPServer) (db : DHCPDatabase.t)
    (c : DHCPClient.t) (clk : Clock) (sent : list Datagram) :
  (forall a b, inet_aton a = Ok b -> length b = 4%nat) ->
  length (DHCPClient.client_mac c) = 6%nat ->
  DHCPClient.release_ip inet_aton c = Ok sent ->
  (sent = [] <->
     DHCPClient.truthy (DHCPClient.offered_ip c) = None \/
     DHCPClient.truthy (DHCPClient.server_ip c) = None) /\
  (length sent <= 1)%nat /\
  Forall (fun d =>
    dest_port d = 67 /\ Some (dest_host d) = DHCPClient.server_ip c /\
    (parse_dhcp_packet decode (payload d)).1.1.1 = DHCPRELEASE /\
    handle_client inet_aton decode s db (payload d) clk = (db, [])) sent.
Proof.
  intros Hlen Hmac. unfold DHCPClient.release_ip.
  destruct (DHCPClient.truthy (DHCPClient.offered_ip c)) as [offered|] eqn:Ho.
  2: { intros [= <-]. split; [naive_solver|]. split; [cbn; lia|constructor]. }
  destruct (DHCPClient.truthy (DHCPClient.server_ip c)) as [server|] eqn:Hs.
  2: { intros [= <-]. split; [naive_solver|]. split; [cbn; lia|constructor]. }
  destruct (DHCPClient.create_packet inet_aton c DHCPRELEASE (Some offered)) as [p|] eqn:Hp;
    [|done].
  cbn. intros [= <-].
  split; [split; [done|by intros [|]]|]. split; [cbn; lia|].
  constructor; [|constructor]. cbn [payload dest_host dest_port].
  split; [done|]. split.
  { unfold DHCPClient.truthy in Hs.
    destruct (DHCPClient.server_ip c) as [[|a v]|]; [done| |done]. by injection Hs as <-. }
  destruct (server_reads_client_packet_helper inet_aton decode Hlen c DHCPRELEASE
              (Some offered) p Hmac Hp) as (xid & _ & _ & Hparse & _).
  unfold handle_client. rewrite Hparse. done.
Qed.

Lemma release_sent_and_ignored_witness :
  exists sent,
    DHCPClient.release_ip inet_aton_decimal example_client = Ok sent /\
    (sent = [] <->
       DHCPClient.truthy (DHCPClient.offered_ip example_client) = None \/
       DHCPClient.truthy (DHCPClient.server_ip example_client) = None) /\
    (length sent <= 1)%nat /\
    Forall (fun d =>
      dest_port d = 67 /\ Some (dest_host d) = DHCPClient.server_ip example_client /\
      (parse_dhcp_packet decode_ascii (payload d)).1.1.1 = DHCPRELEASE /\
      handle_client inet_aton_decimal decode_ascii example_server DHCPDatabase.empty
        (payload d) (clock_at 0) = (DHCPDatabase.empty, [])) sent.
Proof.
  eexists. split; [reflexivity|].
  apply (release_sent_and_ignored inet_aton_decimal decode_ascii example_server
           DHCPDatabase.empty example_client (clock_at 0)).
  - exact inet_aton_decimal_length.
  - reflexivity.
  - reflexivity.
Defined.

(** * A whole exchange: [main] of the client against the server *)

(** [inet_aton_decimal] reads back what [inet_ntoa] writes. *)
Lemma octet_of_dec_octet (b : byte) : octet_of (dec_octet (byte_val b)) = Ok b.
Proof. destruct b; reflexivity. Qed.

Lemma split_on_dec_octet_dot (b : byte) (r : string) :
  split_on "." (dec_octet (byte_val b) +:+ "." +:+ r) =
  dec_octet (byte_val b) :: split_on "." r.
Proof. destruct b; reflexivity. Qed.

Lemma split_on_dec_octet (b : byte) :
  split_on "." (dec_octet (byte_val b)) = [dec_octet (byte_val b)].
Proof. destruct b; reflexivity. Qed.

Lemma inet_aton_decimal_ntoa (b : list byte) (v : string) :
  inet_ntoa b = Ok v -> inet_aton_decimal v = Ok b.
Proof.
  destruct b as [|b0 [|b1 [|b2 [|b3 [|]]]]]; try done. intros [= <-].
  unfold inet_aton_decimal.
  change (String.concat "." ((fun b => dec_octet (byte_val b)) <$> [b0; b1; b2; b3])) with
    (dec_octet (byte_val b0) +:+ "." +:+ dec_octet (byte_val b1) +:+ "." +:+
     dec_octet (byte_val b2) +:+ "." +:+ dec_octet (byte_val b3)).
  rewrite !split_on_dec_octet_dot, split_on_dec_octet.
  by rewrite !octet_of_dec_octet.
Qed.

Lemma inet_ntoa_truthy (b : list byte) (v : string) :
  inet_ntoa b = Ok v -> DHCPClient.truthy (Some v) = Some v.
Proof.
  destruct b as [|b0 [|b1 [|b2 [|b3 [|]]]]]; try done. intros [= <-].
  change (String.concat "." ((fun b => dec_octet (byte_val b)) <$> [b0; b1; b2; b3])) with
    (dec_octet (byte_val b0) +:+ "." +:+ dec_octet (byte_val b1) +:+ "." +:+
     dec_octet (byte_val b2) +:+ "." +:+ dec_octet (byte_val b3)).
  destruct (dec_octet (byte_val b0)) as [|a w] eqn:Hd; [|done].
  unfold dec_octet in Hd. by repeat case_decide.
Qed.

Lemma truthy_Some (x : option string) (v : string) :
  DHCPClient.truthy x = Some v -> x = Some v /\ v ≠ EmptyString.
Proof. destruct x as [[|a w]|]; [done| |done]. by intros [= <-]. Qed.

Section Exchange.

Variable inet_aton : string -> result (list byte).
Variable decode : list byte -> string.
Hypothesis inet_aton_length : forall a b, inet_aton a = Ok b -> length b = 4%nat.

(** When [create_packet] returns. *)
Lemma create_packet_Ok c mt rip :
  0 <= DHCPClient.transaction_id c < 2 ^ 32 -> 0 <= mt < 256 ->
  (forall r, DHCPClient.truthy rip = Some r ->
     (exists b, inet_aton r = Ok b) /\
     forall sv, DHCPClient.truthy (DHCPClient.server_ip c) = Some sv ->
       exists b, inet_aton sv = Ok b) ->
  exists p, DHCPClient.create_packet inet_aton c mt rip = Ok p.
Proof.
  intros Hxid Hmt Hrip. unfold DHCPClient.create_packet.
  destruct (pack_I_val _ Hxid) as [xid ->]. cbn.
  destruct (byte_of_int_val mt Hmt) as (mtb & -> & _). cbn.
  destruct (DHCPClient.truthy rip) as [r|]; [|by eexists].
  destruct (Hrip r eq_refl) as [[rb ->] Hsv]. cbn.
  destruct (DHCPClient.truthy (DHCPClient.server_ip c)) as [sv|]; [|by eexists].
  destruct (Hsv sv eq_refl) as [sb ->]. by eexists.
Qed.

Lemma create_packet_length c mt rip p :
  length (DHCPClient.client_mac c) = 6%nat ->
  DHCPClient.create_packet inet_aton c mt rip = Ok p -> (length p <= 4096)%nat.
Proof.
  intros Hmac. unfold DHCPClient.create_packet.
  destruct (pack_I (DHCPClient.transaction_id c)) as [xid|] eqn:Hx; [|done]. cbn.
  destruct (byte_of_int mt) as [mtb|]; [|done]. cbn.
  apply pack_I_Ok in Hx as (_ & Hxl & _).
  destruct (length_4_inv _ Hxl) as (x0 & x1 & x2 & x3 & ->).
  destruct (length_6_inv _ Hmac) as (m0 & m1 & m2 & m3 & m4 & m5 & ->).
  destruct (DHCPClient.truthy rip) as [r|]; [|intros [= <-]; cbn; lia].
  destruct (inet_aton r) as [rb|] eqn:Hr; [|done]. cbn.
  destruct (length_4_inv _ (inet_aton_length _ _ Hr)) as (r0 & r1 & r2 & r3 & ->).
  destruct (DHCPClient.truthy (DHCPClient.server_ip c)) as [sv|]; [|intros [= <-]; cbn; lia].
  destruct (inet_aton sv) as [sb|] eqn:Hsv; [|done]. cbn.
  destruct (length_4_inv _ (inet_aton_length _ _ Hsv)) as (s0 & s1 & s2 & s3 & ->).
  intros [= <-]. cbn. lia.
Qed.

Hypothesis inet_aton_ntoa : forall b v, inet_ntoa b = Ok v -> inet_aton v = Ok b.

(** X19. A whole exchange. Let the server be the one [__init__] configures,
    and let its allocator have an address for the MAC of a new client, which
    [inet_aton] accepts; let the REQUEST be handled after the DISCOVER with
    no lease running out in between. When [main] of [dhcp_client.py]
    receives what the server sends, it sends a DISCOVER, a REQUEST and a
    RELEASE: the server answers the DISCOVER with an OFFER and the REQUEST
    with an ACK, both to 255.255.255.255:68 and both shorter than the
    client's receive buffer; the client ends with the dotted quad of the
    offered address bytes as its address, the server's address and the
    lease time 3600; the lease table holds the MAC with the allocator's
    address for 3600 seconds from the reading of the write; and the RELEASE,
    sent to the server's address on port 67, changes nothing. *)
Theorem client_obtains_lease (s : DHCPServer) (db db1 : DHCPDatabase.t) (mac : list byte)
    (xid : Z) (ip : string) (ip_bytes : list byte) (clk1 clk2 : Clock) :
  __init__ inet_aton = Ok s ->
  length mac = 6%nat ->
  0 <= xid < 2 ^ 32 ->
  _get_available_ip s db (mac_str mac) clk1 = (Some ip, db1) ->
  ip ≠ EmptyString ->
  inet_aton ip = Ok ip_bytes ->
  now_get_lease clk1 <= now_get_lease clk2 ->
  now_get_all clk1 <= now_get_all clk2 ->
  now_cleanup clk2 <= now_get_all clk2 ->
  no_expiry_between db clk1 clk2 ->
  exists discover offer request ack release offered server c' db2,
    inet_ntoa ip_bytes = Ok offered /\
    handle_client inet_aton decode s db discover clk1 =
      (db1, [{| payload := offer; dest_host := "255.255.255.255"; dest_port := 68 |}]) /\
    handle_client inet_aton decode s db1 request clk2 =
      (db2, [{| payload := ack; dest_host := "255.255.255.255"; dest_port := 68 |}]) /\
    (length offer <= 1024)%nat /\ (length ack <= 1024)%nat /\
    (length discover <= 4096)%nat /\ (length request <= 4096)%nat /\
    (length release <= 4096)%nat /\
    DHCPClient.main inet_aton (DHCPClient.__init__ mac xid) [offer; ack] =
      (c', [{| payload := discover; dest_host := "255.255.255.255"; dest_port := 67 |};
            {| payload := request; dest_host := "255.255.255.255"; dest_port := 67 |};
            {| payload := release; dest_host := server; dest_port := 67 |}]) /\
    DHCPClient.offered_ip c' = Some offered /\
    DHCPClient.server_ip c' = Some server /\
    DHCPClient.lease_time c' = Some 3600 /\
    leases db2 !! mac_str mac =
      Some {| ip_address := ip; hostname := None; lease_start := now_add_lease clk2;
              lease_end := now_add_lease clk2 + DHCPDatabase.seconds 3600;
              last_seen := now_add_lease clk2 |} /\
    forall clk3, handle_client inet_aton decode s db2 release clk3 = (db2, []).
Proof.
  intros Hinit Hmac Hxid Hip Hne Hyb Hg Ha Hs Hkeep.
  destruct ip as [|a w]; [done|]. clear Hne.
  set (ip := String a w) in *.
  set (c0 := DHCPClient.__init__ mac xid).
  destruct (create_packet_Ok c0 DHCPDISCOVER None) as [discover Hd];
    [done|unfold DHCPDISCOVER; lia|done|].
  destruct (server_reads_client_packet_helper inet_aton decode inet_aton_length c0 _ _ _
              Hmac Hd) as (xb & Hxb & _ & Hpd & _).
  change (DHCPClient.client_mac c0) with mac in Hpd.
  destruct (pack_I_Ok _ _ Hxb) as (_ & Hxl & _).
  destruct (client_reads_server_reply_helper inet_aton s c0 DHCPOFFER mac xb ip ip_bytes
              inet_aton_length Hinit ltac:(unfold DHCPOFFER; lia) Hxl Hmac Hyb)
    as (offered & server & mask & router & Ho & (sb & Hsb & Hsv) & _ & _ & Hlt & Hlen1 & Hparse1).
  set (offer := create_dhcp_packet inet_aton s DHCPOFFER mac xb ip) in *.
  set (c2 := DHCPClient.set_offer
               {| DHCPClient.client_mac := DHCPClient.client_mac c0;
                  DHCPClient.transaction_id := DHCPClient.transaction_id c0;
                  DHCPClient.server_ip := DHCPClient.server_ip c0;
                  DHCPClient.offered_ip := DHCPClient.offered_ip c0;
                  DHCPClient.lease_time := Some (lease_time s);
                  DHCPClient.subnet_mask := Some mask;
                  DHCPClient.router := Some router |} offered server).
  pose proof (inet_ntoa_truthy _ _ Ho) as Hto.
  pose proof (inet_ntoa_truthy _ _ Hsv) as Hts.
  destruct (create_packet_Ok c2 DHCPREQUEST (Some offered)) as [request Hr];
    [done|unfold DHCPREQUEST; lia| |].
  { intros r Hr. rewrite Hto in Hr. injection Hr as <-.
    split; [exists ip_bytes; by apply inet_aton_ntoa|].
    intros sv Hsv'. change (DHCPClient.truthy (Some server) = Some sv) in Hsv'.
    rewrite Hts in Hsv'. injection Hsv' as <-.
    exists sb. by apply inet_aton_ntoa. }
  destruct (server_reads_client_packet_helper inet_aton decode inet_aton_length c2 _ _ _
              Hmac Hr) as (xb' & Hxb' & _ & Hpr & _).
  change (DHCPClient.client_mac c2) with mac in Hpr.
  change (pack_I (DHCPClient.transaction_id c0) = Ok xb') in Hxb'.
  rewrite Hxb in Hxb'. injection Hxb' as <-.
  destruct (client_reads_server_reply_helper inet_aton s c2 DHCPACK mac xb ip ip_bytes
              inet_aton_length Hinit ltac:(unfold DHCPACK; lia) Hxl Hmac Hyb)
    as (offered' & server' & mask' & router' & Ho' & (sb' & Hsb' & Hsv') & _ & _ & _ & Hlen2 &
        Hparse2).
  rewrite Ho in Ho'. injection Ho' as <-.
  rewrite Hsb in Hsb'. injection Hsb' as <-.
  rewrite Hsv in Hsv'. injection Hsv' as <-.
  set (ack := create_dhcp_packet inet_aton s DHCPACK mac xb ip) in *.
  set (c3 := {| DHCPClient.client_mac := DHCPClient.client_mac c2;
                DHCPClient.transaction_id := DHCPClient.transaction_id c2;
                DHCPClient.server_ip := DHCPClient.server_ip c2;
                DHCPClient.offered_ip := DHCPClient.offered_ip c2;
                DHCPClient.lease_time := Some (lease_time s);
                DHCPClient.subnet_mask := Some mask';
                DHCPClient.router := Some router' |}) in *.
  destruct (create_packet_Ok c3 DHCPRELEASE (Some offered)) as [release Hrel];
    [done|unfold DHCPRELEASE; lia| |].
  { intros r Hr'. rewrite Hto in Hr'. injection Hr' as <-.
    split; [exists ip_bytes; by apply inet_aton_ntoa|].
    intros sv Hsv'. change (DHCPClient.truthy (Some server) = Some sv) in Hsv'.
    rewrite Hts in Hsv'. injection Hsv' as <-.
    exists sb. by apply inet_aton_ntoa. }
  destruct (server_reads_client_packet_helper inet_aton decode inet_aton_length c3 _ _ _
              Hmac Hrel) as (xb' & _ & _ & Hprel & _).
  change (DHCPClient.client_mac c3) with mac in Hprel.
  pose proof (get_available_ip_twice s db (mac_str mac) clk1 clk2 Hg Ha Hs Hkeep) as Hsame.
  rewrite Hip in Hsame. cbn [fst snd] in Hsame.
  destruct (_get_available_ip s db1 (mac_str mac) clk2) as [r db1'] eqn:Hip2.
  cbn [fst] in Hsame. subst r.
  assert (offer ≠ []) as Hne1 by (intros E; by rewrite E in Hlen1).
  assert (ack ≠ []) as Hne2 by (intros E; by rewrite E in Hlen2).
  exists discover, offer, request, ack, release, offered, server, c3,
    (add_lease db1' (mac_str mac) ip (lease_time s) None (now_add_lease clk2)).
  split; [done|]. split.
  { unfold handle_client. rewrite Hpd. rewrite decide_True by done.
    rewrite handle_discover_eq, Hip. unfold ip at 1. fold ip. fold offer.
    by rewrite (send_reply_Some _ Hne1). }
  split.
  { unfold handle_client. rewrite Hpr. rewrite decide_False by done.
    rewrite decide_True by done.
    rewrite handle_request_eq, Hip2. unfold ip at 1. fold ip. fold ack.
    by rewrite (send_reply_Some _ Hne2). }
  split; [lia|]. split; [lia|].
  split; [exact (create_packet_length c0 _ _ _ Hmac Hd)|].
  split; [exact (create_packet_length c2 _ _ _ Hmac Hr)|].
  split; [exact (create_packet_length c3 _ _ _ Hmac Hrel)|].
  split.
  { unfold DHCPClient.main. fold c0. rewrite Hd, Hparse1. rewrite decide_True by done.
    rewrite Hto, Hts. fold c2. rewrite Hr, Hparse2. rewrite decide_True by done.
    unfold DHCPClient.release_ip. fold c3.
    change (DHCPClient.offered_ip c3) with (Some offered).
    change (DHCPClient.server_ip c3) with (Some server).
    rewrite Hto, Hts, Hrel. done. }
  split; [done|]. split; [done|]. split; [cbn; by rewrite Hlt|].
  split; [cbn; by rewrite lookup_insert_eq, Hlt|].
  intros clk3. unfold handle_client. rewrite Hprel. done.
Qed.

End Exchange.

Lemma client_obtains_lease_witness :
  exists discover offer request ack release offered server c' db2,
    inet_ntoa [xc0; xa8; x01; x03] = Ok offered /\
    handle_client inet_aton_decimal decode_ascii example_server stale_db discover (clock_at 5) =
      (stale_db, [{| payload := offer; dest_host := "255.255.255.255"; dest_port := 68 |}]) /\
    handle_client inet_aton_decimal decode_ascii example_server stale_db request (clock_at 6) =
      (db2, [{| payload := ack; dest_host := "255.255.255.255"; dest_port := 68 |}]) /\
    (length offer <= 1024)%nat /\ (length ack <= 1024)%nat /\
    (length discover <= 4096)%nat /\ (length request <= 4096)%nat /\
    (length release <= 4096)%nat /\
    DHCPClient.main inet_aton_decimal (DHCPClient.__init__ example_mac 305419896) [offer; ack] =
      (c', [{| payload := discover; dest_host := "255.255.255.255"; dest_port := 67 |};
            {| payload := request; dest_host := "255.255.255.255"; dest_port := 67 |};
            {| payload := release; dest_host := server; dest_port := 67 |}]) /\
    DHCPClient.offered_ip c' = Some offered /\
    DHCPClient.server_ip c' = Some server /\
    DHCPClient.lease_time c' = Some 3600 /\
    leases db2 !! mac_str example_mac =
      Some {| ip_address := "192.168.1.3"; hostname := None;
              lease_start := now_add_lease (clock_at 6);
              lease_end := now_add_lease (clock_at 6) + DHCPDatabase.seconds 3600;
              last_seen := now_add_lease (clock_at 6) |} /\
    forall clk3,
      handle_client inet_aton_decimal decode_ascii example_server db2 release clk3 = (db2, []).
Proof.
  apply (client_obtains_lease inet_aton_decimal decode_ascii inet_aton_decimal_length
           inet_aton_decimal_ntoa example_server stale_db stale_db example_mac 305419896
           "192.168.1.3" [xc0; xa8; x01; x03] (clock_at 5) (clock_at 6)).
  - reflexivity.
  - reflexivity.
  - lia.
  - vm_compute. reflexivity.
  - discriminate.
  - reflexivity.
  - unfold clock_at. cbn. lia.
  - unfold clock_at. cbn. lia.
  - unfold clock_at. cbn. lia.
  - intros m l Hm. unfold stale_db, add_lease in Hm. cbn in Hm.
    apply lookup_insert_Some in Hm as [[_ <-]|[_ Hm]]; [|done].
    split; intros _; by vm_compute.
Defined.
